(** * ARA local-ai extraction pipeline: shallow embedding and properties

    The development embeds the form-extraction pipeline of the local AI
    service: the v2 form schema and its validator, the confidence scorer,
    the rule-based extractor, the JSON recovery chains of the LLM
    strategies, the categorizer's validation and merge phases and the
    strategy-selection policy of [parseFormFromText].

    Modelling conventions.
    - A JavaScript string is a [string]: a sequence of code units in the
      range 0..255 (ASCII and Latin-1).  Case mapping, white space and the
      regular-expression character classes are those of ECMAScript on that
      range.
    - A JavaScript number that is only compared (an OCR confidence) is a
      rational [Q]; every finite double is one.
    - [throw] is the [Throw] constructor of [Res]; [undefined] is [None].
    - Logging and progress reporting have no effect on results and are
      left out.
    - Requests are served one at a time; the calls to the model runtime
      are answered by a [World] that the properties quantify over. *)

From Stdlib Require Import String Ascii List Bool Arith ZArith QArith Lia.
Import ListNotations.

Local Open Scope string_scope.
Local Open Scope nat_scope.

Set Warnings "-register-all".

(* ================================================================== *)
(** * Strings *)

Module JsString.

Definition code (c : ascii) : nat := nat_of_ascii c.

Definition between (lo hi : nat) (c : ascii) : bool :=
  (lo <=? code c) && (code c <=? hi).

(** WhiteSpace and LineTerminator code units below 256: TAB, LF, VT, FF,
    CR, SP and NBSP.  Shared by [trim] and by the class escape [\s]. *)
Definition isWhiteSpace (c : ascii) : bool :=
  between 9 13 c || (code c =? 32) || (code c =? 160).

Definition isLineTerminator (c : ascii) : bool :=
  (code c =? 10) || (code c =? 13).

Definition isDigit (c : ascii) : bool := between 48 57 c.

(** [\w]: ASCII letters, digits and underscore. *)
Definition isWordChar (c : ascii) : bool :=
  between 97 122 c || between 65 90 c || isDigit c || (code c =? 95).

(** [toLowerCase] on one code unit: A-Z and the Latin-1 capitals
    (U+00C0..U+00DE without the multiplication sign).  On the alphabet
    the mapping is unit by unit and keeps the length of a text; the
    mappings of ECMAScript that lengthen a text (U+0130) concern
    characters outside it. *)
Definition toLowerChar (c : ascii) : ascii :=
  if between 65 90 c || (between 192 222 c && negb (code c =? 215))
  then ascii_of_nat (code c + 32) else c.

(** Canonicalize of a case-insensitive, non-unicode regular expression:
    the upper-case mapping where its result is one code unit of the
    alphabet. *)
Definition canonicalize (c : ascii) : ascii :=
  if between 97 122 c || (between 224 254 c && negb (code c =? 247))
  then ascii_of_nat (code c - 32) else c.

Fixpoint toLowerCase (s : string) : string :=
  match s with
  | EmptyString => EmptyString
  | String c r => String (toLowerChar c) (toLowerCase r)
  end.

Fixpoint trimStart (s : string) : string :=
  match s with
  | EmptyString => EmptyString
  | String c r => if isWhiteSpace c then trimStart r else s
  end.

Fixpoint trimEnd (s : string) : string :=
  match s with
  | EmptyString => EmptyString
  | String c r =>
      match trimEnd r with
      | EmptyString => if isWhiteSpace c then EmptyString else String c EmptyString
      | r' => String c r'
      end
  end.

Definition trim (s : string) : string := trimEnd (trimStart s).

Fixpoint drop (n : nat) (s : string) : string :=
  match n, s with
  | S n', String _ r => drop n' r
  | _, _ => s
  end.

(** Search for [p] in [s], where [s] is the suffix of the searched
    string that starts at index [pos]. *)
Fixpoint indexOfFrom (p s : string) (pos : nat) : option nat :=
  if prefix p s then Some pos
  else match s with
       | EmptyString => None
       | String _ r => indexOfFrom p r (S pos)
       end.

(** [s.indexOf(p, start)]; the source's [-1] is [None]. *)
Definition indexOf (s p : string) (start : nat) : option nat :=
  let start := Nat.min start (String.length s) in
  indexOfFrom p (drop start s) start.

Definition includes (s p : string) : bool :=
  match indexOf s p 0 with Some _ => true | None => false end.

(** [s.slice(a, b)] for non-negative arguments. *)
Definition slice (s : string) (a b : nat) : string := substring a (b - a) s.

(** [s.split(sep)] for a separator of one character. *)
Fixpoint split (sep : ascii) (s : string) : list string :=
  match s with
  | EmptyString => [EmptyString]
  | String c r =>
      if Ascii.eqb c sep then EmptyString :: split sep r
      else match split sep r with
           | h :: t => String c h :: t
           | [] => [String c EmptyString]
           end
  end.

(** [s.split('\n')] *)
Definition splitLines (s : string) : list string := split (ascii_of_nat 10) s.

(** Truthiness of a string: non-empty. *)
Definition truthy (s : string) : bool :=
  match s with EmptyString => false | _ => true end.

Definition LF : string := String (ascii_of_nat 10) EmptyString.

End JsString.

(* ================================================================== *)
(** * Regular expressions

    A backtracking matcher for the fragment of ECMAScript regular
    expressions that the service uses: literals, classes, [.], sequence,
    alternation, greedy and lazy quantifiers, capture groups, [^], [$]
    and [\b], with the [i] flag.  Alternatives are tried left to right, a
    greedy quantifier tries one more iteration first, and the match is
    looked for at the leftmost start position, as [RegExp.prototype.exec]
    does. *)

Module Regex.
Import JsString.

Inductive cset : Type :=
| CChar (c : ascii)
| CRange (lo hi : ascii)
| CDigit                         (* \d *)
| CSpace                         (* \s *)
| CNotSpace.                     (* \S *)

Inductive regex : Type :=
| Eps
| Lit (s : string)               (* a run of literal characters *)
| Dot                            (* . *)
| Class (items : list cset)      (* [...] and the escapes \d \s *)
| Seq (a b : regex)
| Alt (a b : regex)
| Quant (a : regex) (min : nat) (max : option nat) (greedy : bool)
| Group (n : nat) (a : regex)    (* n-th capturing group *)
| Bol                            (* ^ *)
| Eol                            (* $ *)
| WordB.                         (* \b *)

(** Position in the input: the code unit before it and what is left. *)
Record pos : Type := mkPos { before : option ascii; rest : string }.

Definition caps : Type := list (nat * string).

Fixpoint getCap (n : nat) (c : caps) : option string :=
  match c with
  | [] => None
  | (m, s) :: c' => if m =? n then Some s else getCap n c'
  end.

Definition ceq (ic : bool) (a b : ascii) : bool :=
  if ic then Ascii.eqb (canonicalize a) (canonicalize b) else Ascii.eqb a b.

Definition inRange (lo hi ch : ascii) : bool :=
  (code lo <=? code ch) && (code ch <=? code hi).

Definition csetMatch (ic : bool) (ch : ascii) (i : cset) : bool :=
  match i with
  | CChar c => ceq ic c ch
  | CRange lo hi =>
      inRange lo hi ch
      || (ic && (inRange lo hi (canonicalize ch) || inRange lo hi (toLowerChar ch)))
  | CDigit => isDigit ch
  | CSpace => isWhiteSpace ch
  | CNotSpace => negb (isWhiteSpace ch)
  end.

Definition stepIf (f : ascii -> bool) (p : pos) : option pos :=
  match rest p with
  | String ch r => if f ch then Some (mkPos (Some ch) r) else None
  | EmptyString => None
  end.

Fixpoint eatLit (ic : bool) (l : string) (p : pos) : option pos :=
  match l with
  | EmptyString => Some p
  | String c l' =>
      match stepIf (ceq ic c) p with
      | Some p' => eatLit ic l' p'
      | None => None
      end
  end.

(** The part of the input between two positions. *)
Definition consumed (p p' : pos) : string :=
  substring 0 (String.length (rest p) - String.length (rest p')) (rest p).

Definition isWordAt (c : option ascii) : bool :=
  match c with Some ch => isWordChar ch | None => false end.

Definition nextChar (p : pos) : option ascii :=
  match rest p with String ch _ => Some ch | EmptyString => None end.

Definition Cont : Type := pos -> caps -> option (pos * caps).

Definition orElse {A} (x y : option A) : option A :=
  match x with Some _ => x | None => y end.

Definition maxAllows (mx : option nat) : bool :=
  match mx with Some 0 => false | _ => true end.

Definition decMax (mx : option nat) : option nat :=
  match mx with Some n => Some (pred n) | None => None end.

(** RepeatMatcher: [fuel] bounds the number of iterations; an iteration
    that consumes nothing once the minimum is reached is rejected, so
    [min + length of the input + 1] is always enough. *)
Fixpoint repeatMatcher (body : pos -> caps -> Cont -> option (pos * caps))
         (greedy : bool) (mn : nat) (mx : option nat) (fuel : nat)
         (p : pos) (c : caps) (k : Cont) : option (pos * caps) :=
  match fuel with
  | 0 => None
  | S fuel' =>
      let more :=
        if maxAllows mx then
          body p c (fun p' c' =>
            if (mn =? 0) && (String.length (rest p) <=? String.length (rest p')) then None
            else repeatMatcher body greedy (pred mn) (decMax mx) fuel' p' c' k)
        else None in
      if 0 <? mn then more
      else if greedy then orElse more (k p c)
      else orElse (k p c) more
  end.

Fixpoint run (ic : bool) (r : regex) (p : pos) (c : caps) (k : Cont)
  : option (pos * caps) :=
  match r with
  | Eps => k p c
  | Lit l => match eatLit ic l p with Some p' => k p' c | None => None end
  | Dot =>
      match stepIf (fun ch => negb (isLineTerminator ch)) p with
      | Some p' => k p' c
      | None => None
      end
  | Class items =>
      match stepIf (fun ch => existsb (csetMatch ic ch) items) p with
      | Some p' => k p' c
      | None => None
      end
  | Seq a b => run ic a p c (fun p' c' => run ic b p' c' k)
  | Alt a b => orElse (run ic a p c k) (run ic b p c k)
  | Quant a mn mx greedy =>
      repeatMatcher (run ic a) greedy mn mx (mn + String.length (rest p) + 1) p c k
  | Group n a => run ic a p c (fun p' c' => k p' ((n, consumed p p') :: c'))
  | Bol => match before p with None => k p c | Some _ => None end
  | Eol => match rest p with EmptyString => k p c | _ => None end
  | WordB =>
      if xorb (isWordAt (before p)) (isWordAt (nextChar p)) then k p c else None
  end.

(** The result array of [exec]/[match]: index, [m[0]] and the groups. *)
Record MatchResult : Type :=
  mkMatch { index : nat; matched : string; groups : caps }.

Definition group (n : nat) (m : MatchResult) : option string :=
  getCap n (groups m).

Fixpoint execFrom (ic : bool) (r : regex) (bef : option ascii) (s : string)
         (idx : nat) : option MatchResult :=
  match run ic r (mkPos bef s) [] (fun p c => Some (p, c)) with
  | Some (p', c) => Some (mkMatch idx (consumed (mkPos bef s) p') c)
  | None =>
      match s with
      | EmptyString => None
      | String ch s' => execFrom ic r (Some ch) s' (S idx)
      end
  end.

(** [s.match(re)] / [re.exec(s)] for a regular expression without the
    [g] flag; [ic] is the [i] flag. *)
Definition exec (ic : bool) (r : regex) (s : string) : option MatchResult :=
  execFrom ic r None s 0.

Definition test (ic : bool) (r : regex) (s : string) : bool :=
  match exec ic r s with Some _ => true | None => false end.

(** Notation-like helpers so that a pattern reads as its literal. *)
Definition star (a : regex) : regex := Quant a 0 None true.       (* a*  *)
Definition plus (a : regex) : regex := Quant a 1 None true.       (* a+  *)
Definition opt (a : regex) : regex := Quant a 0 (Some 1) true.    (* a?  *)
Definition lazyStar (a : regex) : regex := Quant a 0 None false.  (* a*? *)
Definition times (a : regex) (m n : nat) : regex := Quant a m (Some n) true.
Definition ch (s : string) : cset :=
  match s with String c _ => CChar c | EmptyString => CChar zero end.
Definition digit : regex := Class [CDigit].                       (* \d *)
Definition space : regex := Class [CSpace].                       (* \s *)

Fixpoint seqs (l : list regex) : regex :=
  match l with
  | [] => Eps
  | [a] => a
  | a :: l' => Seq a (seqs l')
  end.

Fixpoint alts (l : list regex) : regex :=
  match l with
  | [] => Eps
  | [a] => a
  | a :: l' => Alt a (alts l')
  end.

End Regex.

(* ================================================================== *)
(** * Results and errors *)

(** A computation that returns or throws. *)
Inductive Res (E A : Type) : Type :=
| Ok (a : A)
| Throw (e : E).

Arguments Ok {E A} a.
Arguments Throw {E A} e.

(** A thrown [Error]: its [name] and [message]. *)
Record JsError : Type := mkError { errName : string; errMessage : string }.

Definition newError (msg : string) : JsError := mkError "Error" msg.
Definition typeError (msg : string) : JsError := mkError "TypeError" msg.
Definition syntaxError (msg : string) : JsError := mkError "SyntaxError" msg.

Definition bindRes {E A B} (x : Res E A) (f : A -> Res E B) : Res E B :=
  match x with
  | Ok a => f a
  | Throw e => Throw e
  end.

Notation "'let*' x ':=' c 'in' k" := (bindRes c (fun x => k))
  (at level 10, x name, c at level 100, k at level 200).

Definition isOk {E A} (x : Res E A) : bool :=
  match x with Ok _ => true | Throw _ => false end.

(* ================================================================== *)
(** * JSON values and [JSON.parse] *)

Module Json.
Import JsString.

Inductive JsValue : Type :=
| JNull
| JBool (b : bool)
| JNum (lexeme : string)         (* a number, by its JSON text *)
| JStr (s : string)
| JArr (items : list JsValue)
| JObj (props : list (string * JsValue)).

Fixpoint getProp (k : string) (props : list (string * JsValue)) : option JsValue :=
  match props with
  | [] => None
  | (k', v) :: ps => if String.eqb k' k then Some v else getProp k ps
  end.

(** Defining a property: a repeated key keeps its place and takes the
    later value. *)
Fixpoint setProp (k : string) (v : JsValue) (props : list (string * JsValue))
  : list (string * JsValue) :=
  match props with
  | [] => [(k, v)]
  | (k', v') :: ps =>
      if String.eqb k' k then (k, v) :: ps else (k', v') :: setProp k v ps
  end.

Definition isJsonWs (c : ascii) : bool :=
  (code c =? 32) || (code c =? 9) || (code c =? 10) || (code c =? 13).

Fixpoint skipWs (s : string) : string :=
  match s with
  | String c r => if isJsonWs c then skipWs r else s
  | EmptyString => EmptyString
  end.

Definition hexVal (c : ascii) : option nat :=
  if between 48 57 c then Some (code c - 48)
  else if between 97 102 c then Some (code c - 87)
  else if between 65 70 c then Some (code c - 55)
  else None.

Definition hex4 (a b c d : ascii) : option nat :=
  match hexVal a, hexVal b, hexVal c, hexVal d with
  | Some x, Some y, Some z, Some w => Some (((x * 16 + y) * 16 + z) * 16 + w)
  | _, _, _, _ => None
  end.

Definition simpleEscape (e : ascii) : option ascii :=
  match code e with
  | 34 => Some (ascii_of_nat 34)     (* quotation mark *)
  | 92 => Some (ascii_of_nat 92)     (* \\ *)
  | 47 => Some (ascii_of_nat 47)     (* \/ *)
  | 98 => Some (ascii_of_nat 8)      (* \b *)
  | 102 => Some (ascii_of_nat 12)    (* \f *)
  | 110 => Some (ascii_of_nat 10)    (* \n *)
  | 114 => Some (ascii_of_nat 13)    (* \r *)
  | 116 => Some (ascii_of_nat 9)     (* \t *)
  | _ => None
  end.

Definition consTo (c : ascii) (x : option (string * string)) : option (string * string) :=
  match x with
  | Some (s, r) => Some (String c s, r)
  | None => None
  end.

(** The characters of a string literal after its opening quote: the
    decoded content and what follows the closing quote.  A [\u] escape
    of a code unit outside the alphabet denotes a string that is not
    representable: JSON.parse accepts it, here it is refused, and a
    text with such an escape is outside the development. *)
Fixpoint parseChars (s : string) : option (string * string) :=
  match s with
  | EmptyString => None
  | String c r =>
      if code c =? 34 then Some (EmptyString, r)
      else if code c =? 92 then
        match r with
        | String e r' =>
            if code e =? 117 then
              match r' with
              | String h1 (String h2 (String h3 (String h4 r''))) =>
                  match hex4 h1 h2 h3 h4 with
                  | Some n =>
                      if n <? 256 then consTo (ascii_of_nat n) (parseChars r'')
                      else None
                  | None => None
                  end
              | _ => None
              end
            else
              match simpleEscape e with
              | Some x => consTo x (parseChars r')
              | None => None
              end
        | EmptyString => None
        end
      else if code c <? 32 then None
      else consTo c (parseChars r)
  end.

Fixpoint takeDigits (s : string) : string * string :=
  match s with
  | String c r =>
      if isDigit c then let (d, r') := takeDigits r in (String c d, r')
      else (EmptyString, s)
  | EmptyString => (EmptyString, EmptyString)
  end.

(** A JSON number: optional minus, an integer part without leading
    zero, an optional fraction and an optional exponent. *)
Definition parseNumber (s : string) : option (string * string) :=
  let (sign, s1) :=
    match s with
    | String c r => if code c =? 45 then ("-", r) else (EmptyString, s)
    | EmptyString => (EmptyString, s)
    end in
  let intPart :=
    match s1 with
    | String c r =>
        if code c =? 48 then Some ("0", r)
        else if between 49 57 c then let (d, r') := takeDigits s1 in Some (d, r')
        else None
    | EmptyString => None
    end in
  match intPart with
  | None => None
  | Some (i, s2) =>
      let fracPart :=
        match s2 with
        | String c r =>
            if code c =? 46 then
              match takeDigits r with
              | (EmptyString, _) => None
              | (d, r') => Some ("." ++ d, r')
              end
            else Some (EmptyString, s2)
        | EmptyString => Some (EmptyString, s2)
        end in
      match fracPart with
      | None => None
      | Some (f, s3) =>
          let expPart :=
            match s3 with
            | String c r =>
                if (code c =? 101) || (code c =? 69) then
                  let (sg, r1) :=
                    match r with
                    | String c' r' =>
                        if (code c' =? 43) || (code c' =? 45)
                        then (String c' EmptyString, r') else (EmptyString, r)
                    | EmptyString => (EmptyString, r)
                    end in
                  match takeDigits r1 with
                  | (EmptyString, _) => None
                  | (d, r') => Some (String c sg ++ d, r')
                  end
                else Some (EmptyString, s3)
            | EmptyString => Some (EmptyString, s3)
            end in
          match expPart with
          | None => None
          | Some (e, s4) => Some (sign ++ i ++ f ++ e, s4)
          end
      end
  end.

Definition literal (w : string) (v : JsValue) (s : string) : option (JsValue * string) :=
  if prefix w s then Some (v, drop (String.length w) s) else None.

Fixpoint parseValue (fuel : nat) (s : string) {struct fuel} : option (JsValue * string) :=
  match fuel with
  | 0 => None
  | S f =>
      match skipWs s with
      | EmptyString => None
      | String c r as s0 =>
          if code c =? 123 then                                   (* { *)
            match skipWs r with
            | String c1 r1 as r0 =>
                if code c1 =? 125 then Some (JObj [], r1) else parseMembers f r0 []
            | EmptyString => None
            end
          else if code c =? 91 then                               (* [ *)
            match skipWs r with
            | String c1 r1 as r0 =>
                if code c1 =? 93 then Some (JArr [], r1) else parseElements f r0 []
            | EmptyString => None
            end
          else if code c =? 34 then
            match parseChars r with
            | Some (str, r') => Some (JStr str, r')
            | None => None
            end
          else if code c =? 116 then literal "true" (JBool true) s0
          else if code c =? 102 then literal "false" (JBool false) s0
          else if code c =? 110 then literal "null" JNull s0
          else
            match parseNumber s0 with
            | Some (n, r') => Some (JNum n, r')
            | None => None
            end
      end
  end
with parseElements (fuel : nat) (s : string) (acc : list JsValue) {struct fuel}
  : option (JsValue * string) :=
  match fuel with
  | 0 => None
  | S f =>
      match parseValue f s with
      | Some (v, r) =>
          match skipWs r with
          | String c r' =>
              if code c =? 44 then parseElements f r' (acc ++ [v])%list
              else if code c =? 93 then Some (JArr (acc ++ [v])%list, r')
              else None
          | EmptyString => None
          end
      | None => None
      end
  end
with parseMembers (fuel : nat) (s : string) (acc : list (string * JsValue)) {struct fuel}
  : option (JsValue * string) :=
  match fuel with
  | 0 => None
  | S f =>
      match skipWs s with
      | String q r =>
          if code q =? 34 then
            match parseChars r with
            | Some (k, r1) =>
                match skipWs r1 with
                | String c r2 =>
                    if code c =? 58 then
                      match parseValue f r2 with
                      | Some (v, r3) =>
                          match skipWs r3 with
                          | String d r4 =>
                              if code d =? 44 then parseMembers f r4 (setProp k v acc)
                              else if code d =? 125 then Some (JObj (setProp k v acc), r4)
                              else None
                          | EmptyString => None
                          end
                      | None => None
                      end
                    else None
                | EmptyString => None
                end
            | None => None
            end
          else None
      | EmptyString => None
      end
  end.

(** [JSON.parse(s)] without reviver; [None] is the thrown SyntaxError.
    The fuel bounds the nesting of values, lists and members: a value
    nested [d] deep takes [2 * d] calls and at least [d] characters. *)
Definition JSON_parse (s : string) : option JsValue :=
  match parseValue (2 * String.length s + 2) s with
  | Some (v, r) =>
      match skipWs r with
      | EmptyString => Some v
      | _ => None
      end
  | None => None
  end.

End Json.

(* ================================================================== *)
(** * The v2 form schema and its validator *)

Module Schema.
Import Json.
Local Open Scope list_scope.

Inductive ConfidenceLevel : Type := high | medium | low.

Inductive ExtractionMethod : Type :=
| ocr_only | llm_structured | llm_categorized | vision_llm | manual.

(** [FieldConfidence].  [source] carries the method tag; the scorer's
    parameter admits the first four tags. *)
Record FieldConfidence : Type := mkFieldConfidence {
  field : string;
  confidence : ConfidenceLevel;
  ocrConfidence : Q;
  source : ExtractionMethod
}.

Record FormHeader : Type := mkFormHeader {
  recipientName : string;
  date : string;
  time : string;
  recipientIdentifier : string;
  dob : string;
  location : string
}.

Record CareCoordinationType : Type := mkCareCoordinationType {
  sih : bool;
  hcbw : bool
}.

Record NarrativeSections : Type := mkNarrativeSections {
  recipientAndVisitObservations : string;
  healthEmotionalStatus : string;
  reviewOfServices : string;
  progressTowardGoals : string;
  additionalNotes : string;
  followUpTasks : string
}.

(** The [signature] field of the signature section is [signatureText]
    here; [signature] names the section in the form. *)
Record Signature : Type := mkSignature {
  careCoordinatorName : string;
  signatureText : string;
  dateSigned : string
}.

Record MonthlyCareCoordinationForm : Type := mkForm {
  header : FormHeader;
  careCoordinationType : CareCoordinationType;
  narrative : NarrativeSections;
  signature : Signature
}.

(** ** Zod parsing *)

Inductive ZodIssue : Type :=
| InvalidType (path : list string) (expected received : string).

Definition ZodError : Type := list ZodIssue.

(** The parsed type zod reports for a value. *)
Definition parsedType (v : option JsValue) : string :=
  match v with
  | None => "undefined"
  | Some JNull => "null"
  | Some (JBool _) => "boolean"
  | Some (JNum _) => "number"
  | Some (JStr _) => "string"
  | Some (JArr _) => "array"
  | Some (JObj _) => "object"
  end.

(** Issues of all keys of an object are collected. *)
Definition ap {A B} (f : Res ZodError (A -> B)) (x : Res ZodError A) : Res ZodError B :=
  match f, x with
  | Ok g, Ok a => Ok (g a)
  | Ok _, Throw e => Throw e
  | Throw e, Ok _ => Throw e
  | Throw e1, Throw e2 => Throw (e1 ++ e2)
  end.

Infix "<*>" := ap (at level 62, left associativity).

(** [z.string()] *)
Definition zString (path : list string) (v : option JsValue) : Res ZodError string :=
  match v with
  | Some (JStr s) => Ok s
  | _ => Throw [InvalidType path "string" (parsedType v)]
  end.

(** [z.boolean()] *)
Definition zBoolean (path : list string) (v : option JsValue) : Res ZodError bool :=
  match v with
  | Some (JBool b) => Ok b
  | _ => Throw [InvalidType path "boolean" (parsedType v)]
  end.

(** [schema.default(d)]: an absent value takes the default. *)
Definition zDefault {A} (schema : list string -> option JsValue -> Res ZodError A)
           (d : A) (path : list string) (v : option JsValue) : Res ZodError A :=
  match v with
  | None => Ok d
  | Some _ => schema path v
  end.

(** [z.object(shape)]: the value must be a plain object; unknown keys
    are stripped, each key of the shape is parsed at its own path. *)
Definition zObject {A} (shape : list string -> list (string * JsValue) -> Res ZodError A)
           (path : list string) (v : option JsValue) : Res ZodError A :=
  match v with
  | Some (JObj props) => shape path props
  | _ => Throw [InvalidType path "object" (parsedType v)]
  end.

Definition strField (path : list string) (props : list (string * JsValue)) (k : string)
  : Res ZodError string :=
  zDefault zString EmptyString (path ++ [k]) (getProp k props).

Definition boolField (path : list string) (props : list (string * JsValue)) (k : string)
  : Res ZodError bool :=
  zDefault zBoolean false (path ++ [k]) (getProp k props).

Definition FormHeaderSchema : list string -> option JsValue -> Res ZodError FormHeader :=
  zObject (fun path o =>
    Ok mkFormHeader
      <*> strField path o "recipientName"
      <*> strField path o "date"
      <*> strField path o "time"
      <*> strField path o "recipientIdentifier"
      <*> strField path o "dob"
      <*> strField path o "location").

Definition CareCoordinationTypeSchema
  : list string -> option JsValue -> Res ZodError CareCoordinationType :=
  zObject (fun path o =>
    Ok mkCareCoordinationType
      <*> boolField path o "sih"
      <*> boolField path o "hcbw").

Definition NarrativeSectionsSchema
  : list string -> option JsValue -> Res ZodError NarrativeSections :=
  zObject (fun path o =>
    Ok mkNarrativeSections
      <*> strField path o "recipientAndVisitObservations"
      <*> strField path o "healthEmotionalStatus"
      <*> strField path o "reviewOfServices"
      <*> strField path o "progressTowardGoals"
      <*> strField path o "additionalNotes"
      <*> strField path o "followUpTasks").

Definition SignatureSchema : list string -> option JsValue -> Res ZodError Signature :=
  zObject (fun path o =>
    Ok mkSignature
      <*> strField path o "careCoordinatorName"
      <*> strField path o "signature"
      <*> strField path o "dateSigned").

Definition MonthlyCareCoordinationFormSchema
  : list string -> option JsValue -> Res ZodError MonthlyCareCoordinationForm :=
  zObject (fun path o =>
    Ok mkForm
      <*> FormHeaderSchema (path ++ ["header"]) (getProp "header" o)
      <*> CareCoordinationTypeSchema (path ++ ["careCoordinationType"])
            (getProp "careCoordinationType" o)
      <*> NarrativeSectionsSchema (path ++ ["narrative"]) (getProp "narrative" o)
      <*> SignatureSchema (path ++ ["signature"]) (getProp "signature" o)).

(** [validateForm(data)]: [MonthlyCareCoordinationFormSchema.parse]. *)
Definition validateForm (data : JsValue) : Res ZodError MonthlyCareCoordinationForm :=
  MonthlyCareCoordinationFormSchema [] (Some data).

(** [safeValidateForm(data)]: the same parse, as a value. *)
Definition safeValidateForm (data : JsValue)
  : MonthlyCareCoordinationForm + ZodError :=
  match MonthlyCareCoordinationFormSchema [] (Some data) with
  | Ok f => inl f
  | Throw e => inr e
  end.

(** The object a form is at run time. *)
Definition headerToJs (h : FormHeader) : JsValue :=
  JObj [("recipientName", JStr (recipientName h));
        ("date", JStr (date h));
        ("time", JStr (time h));
        ("recipientIdentifier", JStr (recipientIdentifier h));
        ("dob", JStr (dob h));
        ("location", JStr (location h))].

Definition careToJs (c : CareCoordinationType) : JsValue :=
  JObj [("sih", JBool (sih c)); ("hcbw", JBool (hcbw c))].

Definition narrativeToJs (n : NarrativeSections) : JsValue :=
  JObj [("recipientAndVisitObservations", JStr (recipientAndVisitObservations n));
        ("healthEmotionalStatus", JStr (healthEmotionalStatus n));
        ("reviewOfServices", JStr (reviewOfServices n));
        ("progressTowardGoals", JStr (progressTowardGoals n));
        ("additionalNotes", JStr (additionalNotes n));
        ("followUpTasks", JStr (followUpTasks n))].

Definition signatureToJs (s : Signature) : JsValue :=
  JObj [("careCoordinatorName", JStr (careCoordinatorName s));
        ("signature", JStr (signatureText s));
        ("dateSigned", JStr (dateSigned s))].

Definition formToJs (f : MonthlyCareCoordinationForm) : JsValue :=
  JObj [("header", headerToJs (header f));
        ("careCoordinationType", careToJs (careCoordinationType f));
        ("narrative", narrativeToJs (narrative f));
        ("signature", signatureToJs (signature f))].

(** [createEmptyForm()]: the schema applied to the all-default literal. *)
Definition emptyFormLiteral : JsValue :=
  JObj [("header",
          JObj [("recipientName", JStr EmptyString); ("date", JStr EmptyString);
                ("time", JStr EmptyString); ("recipientIdentifier", JStr EmptyString);
                ("dob", JStr EmptyString); ("location", JStr EmptyString)]);
        ("careCoordinationType",
          JObj [("sih", JBool false); ("hcbw", JBool false)]);
        ("narrative",
          JObj [("recipientAndVisitObservations", JStr EmptyString);
                ("healthEmotionalStatus", JStr EmptyString);
                ("reviewOfServices", JStr EmptyString);
                ("progressTowardGoals", JStr EmptyString);
                ("additionalNotes", JStr EmptyString);
                ("followUpTasks", JStr EmptyString)]);
        ("signature",
          JObj [("careCoordinatorName", JStr EmptyString);
                ("signature", JStr EmptyString);
                ("dateSigned", JStr EmptyString)])].

Definition defaultForm : MonthlyCareCoordinationForm :=
  mkForm (mkFormHeader EmptyString EmptyString EmptyString EmptyString EmptyString EmptyString)
         (mkCareCoordinationType false false)
         (mkNarrativeSections EmptyString EmptyString EmptyString EmptyString
                              EmptyString EmptyString)
         (mkSignature EmptyString EmptyString EmptyString).

Definition createEmptyForm : MonthlyCareCoordinationForm :=
  match MonthlyCareCoordinationFormSchema [] (Some emptyFormLiteral) with
  | Ok f => f
  | Throw _ => defaultForm
  end.

(** ** Field metadata *)

Inductive FieldKind : Type := text | checkbox | textarea.

Record FieldMetadata : Type := mkField {
  path : string;
  label : string;
  kind : FieldKind;
  required : bool;
  section : string
}.

Definition FORM_FIELDS : list FieldMetadata :=
  [ mkField "header.recipientName" "Recipient Name" text true "Header";
    mkField "header.date" "Date" text true "Header";
    mkField "header.time" "Time" text false "Header";
    mkField "header.recipientIdentifier" "Recipient Identifier" text false "Header";
    mkField "header.dob" "Date of Birth" text false "Header";
    mkField "header.location" "Location" text false "Header";
    mkField "careCoordinationType.sih" "SIH" checkbox false "Care Coordination Type";
    mkField "careCoordinationType.hcbw" "HCBW" checkbox false "Care Coordination Type";
    mkField "narrative.recipientAndVisitObservations"
            "Recipient & Visit Observations" textarea false "Observations";
    mkField "narrative.healthEmotionalStatus"
            "Health/Emotional Status, Med Changes, Doctor Visits, Behavior Changes, Critical Incidents, Falls, Hospital/Urgent Care Visits"
            textarea false "Health";
    mkField "narrative.reviewOfServices" "Review of Services" textarea false "Services";
    mkField "narrative.progressTowardGoals" "Progress Toward Goals" textarea false "Goals";
    mkField "narrative.additionalNotes" "Additional Notes" textarea false "Notes";
    mkField "narrative.followUpTasks" "Care Coordinator Follow Up Tasks"
            textarea false "Follow Up";
    mkField "signature.careCoordinatorName" "Care Coordinator Name" text false "Signature";
    mkField "signature.signature" "Signature" text false "Signature";
    mkField "signature.dateSigned" "Date Signed" text false "Signature" ].

End Schema.

(* ================================================================== *)
(** * Effects: the session flag, the runtime and the observation log

    The process state of the service is the module-level flag [llmFailed]
    of ollama.ts.  The local model runtime is outside the program: each
    request sees a [World] that says how the runtime answers.  Every
    computation also logs the calls it makes, so that properties about
    what was attempted, and in which order, can be stated. *)

Module Effects.

Inductive Event : Type :=
| NetTags                 (* GET /api/tags, the liveness probe *)
| NetGenerateText         (* POST /api/generate, text prompt *)
| NetGenerateVision       (* POST /api/generate with an image *)
| NetCategorize           (* the categorizer's calls to the runtime *)
| CallVision              (* parseWithVisionLLM entered *)
| CallCategorizer         (* parseWithLLMCategorizer entered *)
| CallText                (* parseWithLLM entered *)
| CallRules.              (* parseWithRules entered *)



(** A computation: from the flag to a result, the flag afterwards and
    the calls made. *)
Definition M (A : Type) : Type := bool -> Res JsError A * bool * list Event.

Definition ret {A} (a : A) : M A := fun st => (Ok a, st, []).

Definition bind {A B} (m : M A) (f : A -> M B) : M B :=
  fun st =>
    match m st with
    | (Ok a, st', t) =>
        let '(r, st'', t') := f a st' in (r, st'', (t ++ t')%list)
    | (Throw e, st', t) => (Throw e, st', t)
    end.

Definition throw {A} (e : JsError) : M A := fun st => (Throw e, st, []).

Definition liftRes {A} (r : Res JsError A) : M A := fun st => (r, st, []).

Definition emit (ev : Event) : M unit := fun st => (Ok tt, st, [ev]).

Definition readLlmFailed : M bool := fun st => (Ok st, st, []).

Definition writeLlmFailed (b : bool) : M unit := fun _ => (Ok tt, b, []).

(** [try { m } catch (error) { h error }] *)
Definition tryCatch {A} (m : M A) (h : JsError -> M A) : M A :=
  fun st =>
    match m st with
    | (Throw e, st', t) =>
        let '(r, st'', t') := h e st' in (r, st'', (t ++ t')%list)
    | done => done
    end.

Definition resultOf {A} (x : Res JsError A * bool * list Event) : Res JsError A :=
  fst (fst x).
Definition flagOf {A} (x : Res JsError A * bool * list Event) : bool := snd (fst x).
Definition traceOf {A} (x : Res JsError A * bool * list Event) : list Event := snd x.

End Effects.

Notation "x <- c ;; k" := (Effects.bind c (fun x => k))
  (at level 61, c at next level, right associativity).
Notation "c ;;; k" := (Effects.bind c (fun _ => k))
  (at level 61, right associativity).

(* ================================================================== *)
(** * llmCategorizer.ts: recovery of the JSON, validation and merge

    The validation and merge phases are embedded at the declared type of
    their argument, [Partial<MonthlyCareCoordinationForm>], with every
    property possibly absent, as the guards of the code allow for.  The
    flag [llmFailed] of this module, with [isLLMAvailable] and its own
    [markLLMFailed], is read by nothing in the pipeline, which imports
    those of ollama.ts; it is left out. *)

Module Categorizer.
Import JsString Regex Json Schema.

Record ValidationIssue : Type := mkIssue {
  vField : string;
  issue : string;
  suggestion : option string
}.

Record PartialHeader : Type := mkPartialHeader {
  pRecipientName : option string;
  pDate : option string;
  pTime : option string;
  pRecipientIdentifier : option string;
  pDob : option string;
  pLocation : option string
}.

Record PartialCare : Type := mkPartialCare {
  pSih : option bool;
  pHcbw : option bool
}.

Record PartialNarrative : Type := mkPartialNarrative {
  pRecipientAndVisitObservations : option string;
  pHealthEmotionalStatus : option string;
  pReviewOfServices : option string;
  pProgressTowardGoals : option string;
  pAdditionalNotes : option string;
  pFollowUpTasks : option string
}.

Record PartialSignature : Type := mkPartialSignature {
  pCareCoordinatorName : option string;
  pSignatureText : option string;
  pDateSigned : option string
}.

Record PartialForm : Type := mkPartialForm {
  pHeader : option PartialHeader;
  pCare : option PartialCare;
  pNarrative : option PartialNarrative;
  pSignature : option PartialSignature
}.

(** The result of categorizeAndValidateWithLLM; [catForm] is the merged
    object as the caller receives it, before it is validated. *)
Record CategorizationResult : Type := mkCategorizationResult {
  catForm : JsValue;
  validationNotes : list string;
  rawOutput : string
}.

Definition dq : string := String (ascii_of_nat 34) EmptyString.

(** ** categorizeText: the fallback chain on the raw output *)

Definition anyChar : regex := Class [CSpace; CNotSpace].          (* [\s\S] *)

(** The pattern [```(?:json)?\n?([\s\S]*?)\n?```]. *)
Definition codeBlockRe : regex :=
  seqs [Lit "```"; opt (Lit "json"); opt (Lit LF); Group 1 (lazyStar anyChar);
        opt (Lit LF); Lit "```"].

(** The pattern [\{[\s\S]*\}]. *)
Definition braceSpanRe : regex := seqs [Lit "{"; star anyChar; Lit "}"].

(** [data.response?.trim() || ''] *)
Definition rawOutputOf (response : option string) : string :=
  match response with
  | Some r => trim r
  | None => EmptyString
  end.

Definition parseRawOutput (raw : string) : Res JsError JsValue :=
  match JSON_parse raw with
  | Some v => Ok v
  | None =>
      match exec false codeBlockRe raw with
      | Some codeBlockMatch =>
          match group 1 codeBlockMatch with
          | Some inner =>
              match JSON_parse (trim inner) with
              | Some v => Ok v
              | None => Throw (newError "Could not parse JSON from code block")
              end
          | None => Throw (newError "Could not parse JSON from code block")
          end
      | None =>
          match exec false braceSpanRe raw with
          | Some jsonMatch =>
              match JSON_parse (matched jsonMatch) with
              | Some v => Ok v
              | None => Throw (newError "Could not parse JSON from matched brackets")
              end
          | None => Throw (newError "No JSON object found in LLM output")
          end
      end
  end.

(** The end of categorizeText: the parsed data for a response of the
    runtime. *)
Definition parseCategorizerResponse (response : option string) : Res JsError JsValue :=
  parseRawOutput (rawOutputOf response).

(** ** validateCategorizedData *)

Definition containsPlaceholder (v : string) : bool :=
  includes (toLowerCase v) "string".

(** checkLiteralString: the value to store and the issues it pushes. *)
Definition checkLiteralString (value : option string) (fieldName : string)
  : option string * list ValidationIssue :=
  match value with
  | Some v =>
      if containsPlaceholder v then
        (Some EmptyString,
         [mkIssue fieldName ("Placeholder value found: " ++ dq ++ v ++ dq)
                  (Some "Field not properly extracted from source text")])
      else (value, [])
  | None => (None, [])
  end.

Definition cleanHeader (h : PartialHeader) : PartialHeader * list ValidationIssue :=
  let '(n, i1) := checkLiteralString (pRecipientName h) "header.recipientName" in
  let '(d, i2) := checkLiteralString (pDate h) "header.date" in
  let '(t, i3) := checkLiteralString (pTime h) "header.time" in
  let '(r, i4) :=
    checkLiteralString (pRecipientIdentifier h) "header.recipientIdentifier" in
  let '(b, i5) := checkLiteralString (pDob h) "header.dob" in
  let '(l, i6) := checkLiteralString (pLocation h) "header.location" in
  (mkPartialHeader n d t r b l, (i1 ++ i2 ++ i3 ++ i4 ++ i5 ++ i6)%list).

(** The pattern [^(0[1-9]|1[0-2])\/([0-2][0-9]|3[01])\/\d{4}$]. *)
Definition dateRegex : regex :=
  seqs [Bol;
        Group 1 (alts [seqs [Lit "0"; Class [CRange "1" "9"]];
                       seqs [Lit "1"; Class [CRange "0" "2"]]]);
        Lit "/";
        Group 2 (alts [seqs [Class [CRange "0" "2"]; Class [CRange "0" "9"]];
                       seqs [Lit "3"; Class [ch "0"; ch "1"]]]);
        Lit "/";
        times digit 4 4;
        Eol].

(** [if (v && !dateRegex.test(v) && v !== '') issues.push(...)] *)
Definition dateFormatIssue (fieldName what : string) (v : option string)
  : list ValidationIssue :=
  match v with
  | Some s =>
      if truthy s && negb (test false dateRegex s) && negb (String.eqb s EmptyString)
      then [mkIssue fieldName (what ++ s) (Some "Should be MM/DD/YYYY")]
      else []
  | None => []
  end.

Definition optField {A B} (o : option A) (f : A -> option B) : option B :=
  match o with Some a => f a | None => None end.               (* o?.f *)

Definition truthyOpt (v : option string) : bool :=
  match v with Some s => truthy s | None => false end.

Definition isTrue (v : option bool) : bool :=
  match v with Some b => b | None => false end.

(** [Object.entries(narratives)]: the properties that are present. *)
Definition narrativeEntries (n : PartialNarrative) : list (string * string) :=
  let entry (k : string) (v : option string) :=
    match v with Some s => [(k, s)] | None => [] end in
  (entry "recipientAndVisitObservations" (pRecipientAndVisitObservations n)
   ++ entry "healthEmotionalStatus" (pHealthEmotionalStatus n)
   ++ entry "reviewOfServices" (pReviewOfServices n)
   ++ entry "progressTowardGoals" (pProgressTowardGoals n)
   ++ entry "additionalNotes" (pAdditionalNotes n)
   ++ entry "followUpTasks" (pFollowUpTasks n))%list.

Definition hasNarrativeContent (n : option PartialNarrative) : bool :=
  let entries := match n with Some x => narrativeEntries x | None => [] end in
  existsb (fun kv => (20 <? String.length (snd kv)) && negb (containsPlaceholder (snd kv)))
          (filter (fun kv => negb (String.eqb (fst kv) "followUpTasks")) entries).

Definition cleanNarrativeField (v : option string) : option string :=
  match v with
  | Some s => if containsPlaceholder s then Some EmptyString else v
  | None => None
  end.

Definition cleanNarrative (n : PartialNarrative) : PartialNarrative :=
  mkPartialNarrative
    (cleanNarrativeField (pRecipientAndVisitObservations n))
    (cleanNarrativeField (pHealthEmotionalStatus n))
    (cleanNarrativeField (pReviewOfServices n))
    (cleanNarrativeField (pProgressTowardGoals n))
    (cleanNarrativeField (pAdditionalNotes n))
    (cleanNarrativeField (pFollowUpTasks n)).

Record Validation : Type := mkValidation {
  issues : list ValidationIssue;
  corrected : PartialForm
}.

Definition validateCategorizedData (data : PartialForm) (originalText : string)
  : Validation :=
  (* clean header fields *)
  let '(hdr, placeholderIssues) :=
    match pHeader data with
    | Some h => let '(h', i) := cleanHeader h in (Some h', i)
    | None => (None, [])
    end in
  (* date validation *)
  let dateIssues :=
    dateFormatIssue "header.date" "Invalid date format: " (optField hdr pDate) in
  let dobIssues :=
    dateFormatIssue "header.dob" "Invalid DOB format: " (optField hdr pDob) in
  (* logical consistency *)
  let bothIssues :=
    if isTrue (optField (pCare data) pSih) && isTrue (optField (pCare data) pHcbw)
    then [mkIssue "careCoordinationType" "Both SIH and HCBW are checked"
                  (Some "Usually only one is selected")]
    else [] in
  (* empty required fields *)
  let nameIssues :=
    if negb (truthyOpt (optField hdr pRecipientName))
       || match optField hdr pRecipientName with
          | Some s => String.eqb (trim s) EmptyString
          | None => false
          end
    then [mkIssue "header.recipientName" "Recipient name not found in text"
                  (Some "Check OCR quality or manually enter")]
    else [] in
  (* narrative content quality *)
  let narrativeIssues :=
    if negb (hasNarrativeContent (pNarrative data))
    then [mkIssue "narrative" "No narrative content extracted"
                  (Some "OCR may have failed to capture text")]
    else [] in
  (* clean narrative fields of placeholder text *)
  let nar :=
    match pNarrative data with
    | Some n => Some (cleanNarrative n)
    | None => None
    end in
  mkValidation
    (placeholderIssues ++ dateIssues ++ dobIssues ++ bothIssues ++ nameIssues
       ++ narrativeIssues)%list
    (mkPartialForm hdr (pCare data) nar (pSignature data)).

(** ** mergeWithDefaults *)

(** [value || fallback] on strings. *)
Definition orDefault (v : option string) (fallback : string) : string :=
  match v with
  | Some s => if truthy s then s else fallback
  | None => fallback
  end.

(** [value ?? fallback] on booleans. *)
Definition nullish (v : option bool) (fallback : bool) : bool :=
  match v with Some b => b | None => fallback end.

Definition mergeWithDefaults (validation : Validation) : MonthlyCareCoordinationForm :=
  let empty := createEmptyForm in
  let data := corrected validation in
  let validationNotes :=
    match issues validation with
    | [] => EmptyString
    | _ =>
        "EXTRACTION NOTES:" ++ LF ++
        String.concat LF
          (map (fun i => "- " ++ vField i ++ ": " ++ issue i) (issues validation))
    end in
  let existingNotes := orDefault (optField (pNarrative data) pAdditionalNotes) EmptyString in
  let combinedNotes :=
    if truthy validationNotes
    then validationNotes ++ LF ++ LF ++ "---" ++ LF ++ LF ++ existingNotes
    else existingNotes in
  let h := pHeader data in
  let c := pCare data in
  let n := pNarrative data in
  let s := pSignature data in
  mkForm
    (mkFormHeader
       (orDefault (optField h pRecipientName) (recipientName (header empty)))
       (orDefault (optField h pDate) (date (header empty)))
       (orDefault (optField h pTime) (time (header empty)))
       (orDefault (optField h pRecipientIdentifier) (recipientIdentifier (header empty)))
       (orDefault (optField h pDob) (dob (header empty)))
       (orDefault (optField h pLocation) (location (header empty))))
    (mkCareCoordinationType
       (nullish (optField c pSih) (sih (careCoordinationType empty)))
       (nullish (optField c pHcbw) (hcbw (careCoordinationType empty))))
    (mkNarrativeSections
       (orDefault (optField n pRecipientAndVisitObservations)
                  (recipientAndVisitObservations (narrative empty)))
       (orDefault (optField n pHealthEmotionalStatus)
                  (healthEmotionalStatus (narrative empty)))
       (orDefault (optField n pReviewOfServices) (reviewOfServices (narrative empty)))
       (orDefault (optField n pProgressTowardGoals) (progressTowardGoals (narrative empty)))
       (if truthy combinedNotes then combinedNotes else additionalNotes (narrative empty))
       (orDefault (optField n pFollowUpTasks) (followUpTasks (narrative empty))))
    (mkSignature
       (orDefault (optField s pCareCoordinatorName) (careCoordinatorName (signature empty)))
       (orDefault (optField s pSignatureText) (signatureText (signature empty)))
       (orDefault (optField s pDateSigned) (dateSigned (signature empty)))).

(** The issue lines of [validationNotes]. *)
Definition issueLine (i : ValidationIssue) : string :=
  vField i ++ ": " ++ issue i ++
  match suggestion i with
  | Some s => if truthy s then " (" ++ s ++ ")" else EmptyString
  | None => EmptyString
  end.

(** Steps 2 and 3 of categorizeAndValidateWithLLM on the categorized
    data. *)
Definition validateAndMerge (data : PartialForm) (ocrText : string)
  : MonthlyCareCoordinationForm * list string :=
  let validation := validateCategorizedData data ocrText in
  (mergeWithDefaults validation, map issueLine (issues validation)).

End Categorizer.

(* ================================================================== *)
(** * The environment and the model runtime *)

Module Runtime.

(** The environment variables the service reads. *)
Record Env : Type := mkEnv {
  DISABLE_LLM : option string;
  OLLAMA_MODEL : option string
}.

(** What the runtime does when asked, for the duration of one request.
    [generateWithText] and [generateWithVision] stand for the functions
    of that name in ollama.ts: the request, the status check and the
    [response] property of the decoded body, which may be absent.
    [categorizeAndValidateWithLLM] stands for the categorizer on the
    output the runtime gives it. *)
Record World : Type := mkWorld {
  fetchTags : Res JsError bool;                                   (* response.ok *)
  generateWithText : string -> Res JsError (option string);
  generateWithVision : string -> string -> Res JsError (option string);
  categorizeAndValidateWithLLM :
    string -> Q -> Res JsError Categorizer.CategorizationResult
}.

End Runtime.

(* ================================================================== *)
(** * ollama.ts *)

Module Ollama.
Import JsString Effects Runtime.

Section WithRuntime.
Variable env : Env.
Variable world : World.

(** [process.env.OLLAMA_MODEL || 'qwen2.5:0.5b'] *)
Definition DEFAULT_MODEL : string :=
  match OLLAMA_MODEL env with
  | Some m => if truthy m then m else "qwen2.5:0.5b"
  | None => "qwen2.5:0.5b"
  end.

Definition llmDisabled : bool :=
  match DISABLE_LLM env with
  | Some v => String.eqb v "true"
  | None => false
  end.

(** checkOllamaHealth *)
Definition checkOllamaHealth : M bool :=
  failed <- readLlmFailed ;;
  if failed || llmDisabled then ret false
  else
    emit NetTags ;;;
    match fetchTags world with
    | Ok ok => ret ok
    | Throw _ => ret false
    end.

(** markLLMFailed *)
Definition markLLMFailed : M unit := writeLlmFailed true.

Definition multimodalModels : list string :=
  ["llava"; "bakllava"; "moondream"; "cogvlm"; "deepseek-vl"].

(** isMultimodalModel *)
Definition isMultimodalModel : bool :=
  let modelLower := toLowerCase DEFAULT_MODEL in
  existsb (fun m => includes modelLower m) multimodalModels.

(** generateFormWithLLM *)
Definition generateFormWithLLM (txt : string) (imagePath : option string)
  : M (option string) :=
  match imagePath with
  | Some p =>
      if truthy p && isMultimodalModel then
        emit NetGenerateVision ;;; liftRes (generateWithVision world p txt)
      else
        emit NetGenerateText ;;; liftRes (generateWithText world txt)
  | None => emit NetGenerateText ;;; liftRes (generateWithText world txt)
  end.

End WithRuntime.

End Ollama.

(* ================================================================== *)
(** * Comparisons on confidences *)

Definition Qgtb (a b : Q) : bool := negb (Qle_bool a b).   (* a > b *)
Definition Qltb (a b : Q) : bool := negb (Qle_bool b a).   (* a < b *)

(* ================================================================== *)
(** * parser.ts: confidence scorer and rule-based extractor *)

Module Parser.
Import JsString Regex Json Schema.

Record ParseResult : Type := mkParseResult {
  form : MonthlyCareCoordinationForm;
  confidenceList : list FieldConfidence;      (* the [confidence] property *)
  extractionMethod : ExtractionMethod;
  ollamaAvailable : bool;
  validationIssues : option (list string)
}.

(** ** generateConfidenceScores *)

Definition baseConfidence (baseOcrConfidence : Q) : ConfidenceLevel :=
  if Qgtb baseOcrConfidence (80 # 1) then high
  else if Qgtb baseOcrConfidence (50 # 1) then medium
  else low.

Definition isOcrOnly (m : ExtractionMethod) : bool :=
  match m with ocr_only => true | _ => false end.

Definition isLlmCategorized (m : ExtractionMethod) : bool :=
  match m with llm_categorized => true | _ => false end.

(** The level [addField] computes before it pushes the entry. *)
Definition fieldLevel (base : ConfidenceLevel) (method : ExtractionMethod)
           (hasValue : bool) : ConfidenceLevel :=
  let level := base in
  let level :=
    if isOcrOnly method then
      match level with high => medium | medium => low | low => low end
    else level in
  let level :=
    if isLlmCategorized method && hasValue then
      match level with low => medium | medium => high | high => high end
    else level in
  if negb hasValue then low else level.

Definition addField (baseOcrConfidence : Q) (method : ExtractionMethod)
           (fieldPath : string) (hasValue : bool) : FieldConfidence :=
  mkFieldConfidence fieldPath
    (fieldLevel (baseConfidence baseOcrConfidence) method hasValue)
    baseOcrConfidence method.

Definition generateConfidenceScores (f : MonthlyCareCoordinationForm)
           (baseOcrConfidence : Q) (method : ExtractionMethod) : list FieldConfidence :=
  let add := addField baseOcrConfidence method in
  [ add "header.recipientName" (truthy (recipientName (header f)));
    add "header.date" (truthy (date (header f)));
    add "header.time" (truthy (time (header f)));
    add "header.recipientIdentifier" (truthy (recipientIdentifier (header f)));
    add "header.dob" (truthy (dob (header f)));
    add "header.location" (truthy (location (header f)));
    add "careCoordinationType.sih" true;
    add "careCoordinationType.hcbw" true;
    add "narrative.recipientAndVisitObservations"
        (truthy (recipientAndVisitObservations (narrative f)));
    add "narrative.healthEmotionalStatus" (truthy (healthEmotionalStatus (narrative f)));
    add "narrative.reviewOfServices" (truthy (reviewOfServices (narrative f)));
    add "narrative.progressTowardGoals" (truthy (progressTowardGoals (narrative f)));
    add "narrative.additionalNotes" (truthy (additionalNotes (narrative f)));
    add "narrative.followUpTasks" (truthy (followUpTasks (narrative f)));
    add "signature.careCoordinatorName" (truthy (careCoordinatorName (signature f)));
    add "signature.signature" (truthy (signatureText (signature f)));
    add "signature.dateSigned" (truthy (dateSigned (signature f))) ].

(** ** findNextSectionIndex and extractNarrativeSections *)

Definition sectionHeaders : list string :=
  [ "recipient & visit observations";
    "recipient and visit observations";
    "health/emotional status";
    "review of services";
    "progress toward goals";
    "additional notes";
    "follow up tasks";
    "followup tasks";
    "care coordinator follow up";
    "signature" ].

Definition findNextSectionIndex (txt : string) (startPos : nat) : nat :=
  fold_left
    (fun nextIndex hdr =>
       match indexOf txt hdr startPos with
       | Some idx => if idx <? nextIndex then idx else nextIndex
       | None => nextIndex
       end)
    sectionHeaders (String.length txt).

Inductive NarrativeKey : Type :=
| kRecipientAndVisitObservations
| kHealthEmotionalStatus
| kReviewOfServices
| kProgressTowardGoals
| kAdditionalNotes
| kFollowUpTasks.

Definition sectionPatterns : list (NarrativeKey * list string) :=
  [ (kRecipientAndVisitObservations,
      ["recipient & visit observations"; "recipient and visit observations";
       "visit observations"]);
    (kHealthEmotionalStatus,
      ["health/emotional status"; "health emotional status"; "med changes";
       "health status"]);
    (kReviewOfServices, ["review of services"; "services review"]);
    (kProgressTowardGoals,
      ["progress toward goals"; "progress to goals"; "goals progress"]);
    (kAdditionalNotes, ["additional notes"; "notes"]);
    (kFollowUpTasks,
      ["follow up tasks"; "followup tasks"; "care coordinator follow up"]) ].

(** The inner loop over the aliases of one section: the first alias
    that occurs and is followed by more than ten characters of content
    gives the section; [None] leaves the key unset. *)
Fixpoint sectionContent (txt lowerText : string) (patterns : list string)
  : option string :=
  match patterns with
  | [] => None
  | pattern :: others =>
      match indexOf lowerText pattern 0 with
      | Some idx =>
          let start := idx + String.length pattern in
          let stop := findNextSectionIndex lowerText start in
          let content := trim (slice txt start stop) in
          if 10 <? String.length content then Some (substring 0 1000 content)
          else sectionContent txt lowerText others
      | None => sectionContent txt lowerText others
      end
  end.

(** The partial narrative object: the keys that were set, in order. *)
Definition extractNarrativeSections (txt : string) : list (NarrativeKey * string) :=
  let lowerText := toLowerCase txt in
  fold_left
    (fun sections kp =>
       match sectionContent txt lowerText (snd kp) with
       | Some content => (sections ++ [(fst kp, content)])%list
       | None => sections
       end)
    sectionPatterns [].

Definition setNarrative (k : NarrativeKey) (v : string) (n : NarrativeSections)
  : NarrativeSections :=
  match k with
  | kRecipientAndVisitObservations =>
      mkNarrativeSections v (healthEmotionalStatus n) (reviewOfServices n)
        (progressTowardGoals n) (additionalNotes n) (followUpTasks n)
  | kHealthEmotionalStatus =>
      mkNarrativeSections (recipientAndVisitObservations n) v (reviewOfServices n)
        (progressTowardGoals n) (additionalNotes n) (followUpTasks n)
  | kReviewOfServices =>
      mkNarrativeSections (recipientAndVisitObservations n) (healthEmotionalStatus n) v
        (progressTowardGoals n) (additionalNotes n) (followUpTasks n)
  | kProgressTowardGoals =>
      mkNarrativeSections (recipientAndVisitObservations n) (healthEmotionalStatus n)
        (reviewOfServices n) v (additionalNotes n) (followUpTasks n)
  | kAdditionalNotes =>
      mkNarrativeSections (recipientAndVisitObservations n) (healthEmotionalStatus n)
        (reviewOfServices n) (progressTowardGoals n) v (followUpTasks n)
  | kFollowUpTasks =>
      mkNarrativeSections (recipientAndVisitObservations n) (healthEmotionalStatus n)
        (reviewOfServices n) (progressTowardGoals n) (additionalNotes n) v
  end.

(** [{ ...narrative, ...sections }] *)
Definition spreadSections (n : NarrativeSections) (sections : list (NarrativeKey * string))
  : NarrativeSections :=
  fold_left (fun acc kv => setNarrative (fst kv) (snd kv) acc) sections n.

(** ** The line patterns of parseWithRules *)

Definition sepClass : regex := Class [ch ":"; ch "-"].            (* [:\-] *)
Definition dateSep : regex := Class [ch "/"; ch "-"; ch "."].     (* [\/\-\.] *)

(** [\d{1,2}[\/\-\.]\d{1,2}[\/\-\.]\d{2,4}] *)
Definition looseDate : regex :=
  seqs [times digit 1 2; dateSep; times digit 1 2; dateSep; times digit 2 4].

(** [/\bname\s*:/] *)
Definition nameLabelRe : regex := seqs [WordB; Lit "name"; star space; Lit ":"].

(** [/(?:recipient name|name)\s*[:\-]?\s*(.+)/i] *)
Definition nameRe : regex :=
  seqs [alts [Lit "recipient name"; Lit "name"]; star space; opt sepClass; star space;
        Group 1 (plus Dot)].

(** [/date\s*[:\-]?\s*(\d{1,2}[\/\-\.]\d{1,2}[\/\-\.]\d{2,4})/i] *)
Definition dateRe : regex :=
  seqs [Lit "date"; star space; opt sepClass; star space; Group 1 looseDate].

(** [/time\s*[:\-]?\s*(\d{1,2}:\d{2}\s*(?:AM|PM|am|pm)?)/i] *)
Definition timeRe : regex :=
  seqs [Lit "time"; star space; opt sepClass; star space;
        Group 1 (seqs [times digit 1 2; Lit ":"; times digit 2 2; star space;
                       opt (alts [Lit "AM"; Lit "PM"; Lit "am"; Lit "pm"])])].

(** [/(?:dob|date of birth)\s*[:\-]?\s*(\d{1,2}[\/\-\.]\d{1,2}[\/\-\.]\d{2,4})/i] *)
Definition dobRe : regex :=
  seqs [alts [Lit "dob"; Lit "date of birth"]; star space; opt sepClass; star space;
        Group 1 looseDate].

(** [/location\s*[:\-]?\s*(.+)/i] *)
Definition locationRe : regex :=
  seqs [Lit "location"; star space; opt sepClass; star space; Group 1 (plus Dot)].

(** [/(?:recipient identifier|identifier|id)\s*[:\-]?\s*(.+)/i] *)
Definition identifierRe : regex :=
  seqs [alts [Lit "recipient identifier"; Lit "identifier"; Lit "id"]; star space;
        opt sepClass; star space; Group 1 (plus Dot)].

(** [/\[x\]|[X]|checked|yes/i] *)
Definition checkedPattern : regex :=
  alts [Lit "[x]"; Class [ch "X"]; Lit "checked"; Lit "yes"].

(** [match[1].trim()]: reading [trim] off an undefined group throws. *)
Definition group1Trim (m : MatchResult) : Res JsError string :=
  match group 1 m with
  | Some g => Ok (trim g)
  | None => Throw (typeError "Cannot read properties of undefined (reading 'trim')")
  end.

Definition setRecipientName (v : string) (f : MonthlyCareCoordinationForm) :=
  let h := header f in
  mkForm (mkFormHeader v (date h) (time h) (recipientIdentifier h) (dob h) (location h))
         (careCoordinationType f) (narrative f) (signature f).

Definition setDate (v : string) (f : MonthlyCareCoordinationForm) :=
  let h := header f in
  mkForm (mkFormHeader (recipientName h) v (time h) (recipientIdentifier h) (dob h)
                       (location h))
         (careCoordinationType f) (narrative f) (signature f).

Definition setTime (v : string) (f : MonthlyCareCoordinationForm) :=
  let h := header f in
  mkForm (mkFormHeader (recipientName h) (date h) v (recipientIdentifier h) (dob h)
                       (location h))
         (careCoordinationType f) (narrative f) (signature f).

Definition setRecipientIdentifier (v : string) (f : MonthlyCareCoordinationForm) :=
  let h := header f in
  mkForm (mkFormHeader (recipientName h) (date h) (time h) v (dob h) (location h))
         (careCoordinationType f) (narrative f) (signature f).

Definition setDob (v : string) (f : MonthlyCareCoordinationForm) :=
  let h := header f in
  mkForm (mkFormHeader (recipientName h) (date h) (time h) (recipientIdentifier h) v
                       (location h))
         (careCoordinationType f) (narrative f) (signature f).

Definition setLocation (v : string) (f : MonthlyCareCoordinationForm) :=
  let h := header f in
  mkForm (mkFormHeader (recipientName h) (date h) (time h) (recipientIdentifier h) (dob h) v)
         (careCoordinationType f) (narrative f) (signature f).

Definition setSih (b : bool) (f : MonthlyCareCoordinationForm) :=
  mkForm (header f) (mkCareCoordinationType b (hcbw (careCoordinationType f)))
         (narrative f) (signature f).

Definition setHcbw (b : bool) (f : MonthlyCareCoordinationForm) :=
  mkForm (header f) (mkCareCoordinationType (sih (careCoordinationType f)) b)
         (narrative f) (signature f).

Definition setNarrativeOf (n : NarrativeSections) (f : MonthlyCareCoordinationForm) :=
  mkForm (header f) (careCoordinationType f) n (signature f).

(** [if (cond) { const match = line.match(re); if (match) field = match[1].trim(); }] *)
Definition extractInto (cond : bool) (re : regex) (line : string)
           (setter : string -> MonthlyCareCoordinationForm -> MonthlyCareCoordinationForm)
           (f : MonthlyCareCoordinationForm) : Res JsError MonthlyCareCoordinationForm :=
  if cond then
    match exec true re line with
    | Some m => let* v := group1Trim m in Ok (setter v f)
    | None => Ok f
    end
  else Ok f.

(** The body of the loop over the lines. *)
Definition ruleLine (f : MonthlyCareCoordinationForm) (line : string)
  : Res JsError MonthlyCareCoordinationForm :=
  let lowerLine := toLowerCase line in
  let* f := extractInto
              (includes lowerLine "recipient name" || test false nameLabelRe lowerLine)
              nameRe line setRecipientName f in
  let* f := extractInto
              (includes lowerLine "date" && negb (includes lowerLine "birth"))
              dateRe line setDate f in
  let* f := extractInto (includes lowerLine "time") timeRe line setTime f in
  let* f := extractInto
              (includes lowerLine "dob" || includes lowerLine "date of birth")
              dobRe line setDob f in
  let* f := extractInto (includes lowerLine "location") locationRe line setLocation f in
  let* f := extractInto
              (includes lowerLine "identifier" || includes lowerLine "id")
              identifierRe line setRecipientIdentifier f in
  let f := if includes lowerLine "sih" then setSih (test true checkedPattern line) f else f in
  let f := if includes lowerLine "hcbw" then setHcbw (test true checkedPattern line) f else f in
  Ok f.

Fixpoint ruleLines (f : MonthlyCareCoordinationForm) (lines : list string)
  : Res JsError MonthlyCareCoordinationForm :=
  match lines with
  | [] => Ok f
  | line :: others => let* f' := ruleLine f line in ruleLines f' others
  end.

Definition ocrOnlyNote : string :=
  "OCR-only mode: Ollama not available. Fields extracted using pattern matching only.".

Definition reviewNote : string :=
  "Please review all fields carefully as automated extraction may contain errors.".

(** ** parseWithRules *)
Definition parseWithRules (txt : string) (ocrConf : Q) (ollamaAvail : bool)
  : Res JsError ParseResult :=
  let f := createEmptyForm in
  let lines := filter truthy (map trim (splitLines txt)) in
  let* f := ruleLines f lines in
  let sections := extractNarrativeSections txt in
  let f := setNarrativeOf (spreadSections (narrative f) sections) f in
  let notes := ((if ollamaAvail then [] else [ocrOnlyNote]) ++ [reviewNote])%list in
  let f :=
    if truthy (additionalNotes (narrative f)) then
      setNarrativeOf
        (setNarrative kAdditionalNotes
           (String.concat LF notes ++ LF ++ LF ++ additionalNotes (narrative f))
           (narrative f)) f
    else
      setNarrativeOf
        (setNarrative kAdditionalNotes (String.concat LF notes) (narrative f)) f in
  let conf := generateConfidenceScores f ocrConf ocr_only in
  Ok (mkParseResult f conf ocr_only ollamaAvail None).

(** ** The LLM strategies and the orchestrator *)

(** The pattern [```json\n?([\s\S]*?)\n?```]. *)
Definition jsonFenceRe : regex :=
  seqs [Lit "```json"; opt (Lit LF); Group 1 (lazyStar Categorizer.anyChar);
        opt (Lit LF); Lit "```"].

(** [JSON.parse(s)] as a statement that may throw. *)
Definition parseJsonText (s : string) : Res JsError JsValue :=
  match JSON_parse s with
  | Some v => Ok v
  | None => Throw (syntaxError "Unexpected token in JSON")
  end.

(** The block [try { parsed = JSON.parse(llmResponse) } catch { ... }]
    of parseWithLLM and parseWithVisionLLM; [failure] is the message of
    the error thrown when no fence is found. *)
Definition recoverJson (failure : string) (llmResponse : string) : Res JsError JsValue :=
  match JSON_parse llmResponse with
  | Some v => Ok v
  | None =>
      match exec false jsonFenceRe llmResponse with
      | Some m =>
          match group 1 m with
          | Some inner => parseJsonText inner
          | None => Throw (syntaxError "undefined is not valid JSON")
          end
      | None => Throw (newError failure)
      end
  end.

(** [llmResponse.length] is read for the debug log before the parse. *)
Definition responseText (r : option string) : Res JsError string :=
  match r with
  | Some s => Ok s
  | None => Throw (typeError "Cannot read properties of undefined (reading 'length')")
  end.

Definition isTimeoutError (e : JsError) : bool := String.eqb (errName e) "TimeoutError".

Definition truthyPath (p : option string) : bool :=
  match p with Some s => truthy s | None => false end.

Record Request : Type := mkRequest {
  reqText : string;
  reqConfidence : Q;
  reqImagePath : option string
}.

Section Strategies.
Import Effects Runtime Ollama.
Variable env : Env.
Variable world : World.

(** The common end of the three LLM strategies: validate, score and
    build the result; a validation failure throws. *)
Definition finish (failure : string) (parsed : JsValue) (ocrConf : Q)
           (method : ExtractionMethod) (notes : option (list string))
  : M ParseResult :=
  match safeValidateForm parsed with
  | inl data =>
      ret (mkParseResult data (generateConfidenceScores data ocrConf method)
                         method true notes)
  | inr _ => throw (newError failure)
  end.

Definition parseWithLLMCategorizer (txt : string) (ocrConf : Q) : M ParseResult :=
  emit CallCategorizer ;;;
  emit NetCategorize ;;;
  categorized <- liftRes (categorizeAndValidateWithLLM world txt ocrConf) ;;
  finish "Categorized form validation failed"
         (Categorizer.catForm categorized) ocrConf llm_categorized
         (match Categorizer.validationNotes categorized with
          | [] => None
          | notes => Some notes
          end).

Definition parseWithVisionLLM (imagePath ocrText : string) (ocrConf : Q)
  : M ParseResult :=
  emit CallVision ;;;
  r <- generateFormWithLLM env world ocrText (Some imagePath) ;;
  llmResponse <- liftRes (responseText r) ;;
  parsed <- liftRes (recoverJson "Invalid JSON from vision LLM" llmResponse) ;;
  finish "Vision LLM output validation failed" parsed ocrConf vision_llm None.

Definition parseWithLLM (txt : string) (ocrConf : Q) : M ParseResult :=
  emit CallText ;;;
  r <- generateFormWithLLM env world txt None ;;
  llmResponse <- liftRes (responseText r) ;;
  parsed <- liftRes (recoverJson "Invalid JSON from LLM" llmResponse) ;;
  finish "LLM output validation failed" parsed ocrConf llm_structured None.

(** [try { return await strategy } catch (error) { onError }]: [Some]
    is the returned result, [None] falls through to the next
    statement. *)
Definition attempt (strategy : M ParseResult) (onError : JsError -> M unit)
  : M (option ParseResult) :=
  tryCatch (x <- strategy ;; ret (Some x)) (fun e => onError e ;;; ret None).

Definition markIfTimeout (e : JsError) : M unit :=
  if isTimeoutError e then markLLMFailed else ret tt.

(** parseFormFromText *)
Definition parseFormFromText (txt : string) (ocrConf : Q) (imagePath : option string)
  : M ParseResult :=
  ollamaAvail <- checkOllamaHealth env world ;;
  let useVision := truthyPath imagePath && isMultimodalModel env in
  (* Priority 1: vision LLM *)
  r1 <- match imagePath with
        | Some p =>
            if ollamaAvail && useVision && truthy p && Qltb ocrConf (50 # 1)
            then attempt (parseWithVisionLLM p txt ocrConf) (fun _ => ret tt)
            else ret None
        | None => ret None
        end ;;
  match r1 with
  | Some result => ret result
  | None =>
      (* Priority 2: LLM categorization *)
      r2 <- (if ollamaAvail && Qltb ocrConf (80 # 1)
             then attempt (parseWithLLMCategorizer txt ocrConf) markIfTimeout
             else ret None) ;;
      match r2 with
      | Some result => ret result
      | None =>
          (* Priority 3: standard LLM text structuring *)
          r3 <- (if ollamaAvail
                 then attempt (parseWithLLM txt ocrConf) markIfTimeout
                 else ret None) ;;
          match r3 with
          | Some result => ret result
          | None =>
              (* Fallback: rule-based parsing *)
              emit CallRules ;;;
              liftRes (parseWithRules txt ocrConf ollamaAvail)
          end
      end
  end.

End Strategies.

(** A process serving requests one after the other; each request meets
    the runtime in its own state.  The flag is carried from one request
    to the next and is never written back to [false]. *)
Fixpoint serve (env : Runtime.Env) (reqs : list (Runtime.World * Request)) (flag : bool)
  : list (Res JsError ParseResult * list Effects.Event) * bool :=
  match reqs with
  | [] => ([], flag)
  | (w, r) :: others =>
      let '(res, flag', tr) :=
        parseFormFromText env w (reqText r) (reqConfidence r) (reqImagePath r) flag in
      let '(outs, final) := serve env others flag' in
      ((res, tr) :: outs, final)
  end.

End Parser.

(* ================================================================== *)
(** * pdfExport.ts: reading a value at a dotted path *)

Module PdfExport.
Import JsString Json.

(** getValueAtPath.  The objects read here are forms: objects nested in
    objects.  A property of anything else reads as undefined. *)
Definition getValueAtPath (obj : JsValue) (path : string) : option JsValue :=
  fold_left
    (fun current part =>
       match current with
       | Some (JObj props) => getProp part props
       | _ => None
       end)
    (split "." path) (Some obj).

End PdfExport.

(* ================================================================== *)
(** * Vocabulary of the properties *)

Module Props.
Import JsString Regex Json Schema Effects Categorizer Runtime Ollama Parser PdfExport.

(** The order low < medium < high on tiers. *)
Definition levelRank (l : ConfidenceLevel) : nat :=
  match l with low => 0 | medium => 1 | high => 2 end.

(** The tier the list gives to a path, if the path has an entry. *)
Definition lookupConfidence (p : string) (l : list FieldConfidence)
  : option ConfidenceLevel :=
  match find (fun e => String.eqb (field e) p) l with
  | Some e => Some (confidence e)
  | None => None
  end.

Definition fieldPaths : list string := map path FORM_FIELDS.

Definition checkboxPaths : list string :=
  map path (filter (fun m => match kind m with checkbox => true | _ => false end)
                   FORM_FIELDS).

(** A field is populated when its string is non-empty; a checkbox always. *)
Definition isPopulated (f : MonthlyCareCoordinationForm) (p : string) : bool :=
  match getValueAtPath (formToJs f) p with
  | Some (JStr s) => truthy s
  | Some (JBool _) => true
  | _ => false
  end.

Definition countPrefix (pre : string) (l : list string) : nat :=
  List.length (filter (prefix pre) l).

(** A pattern in which group [n] takes part in every match. *)
Fixpoint alwaysCaptures (n : nat) (r : regex) : bool :=
  match r with
  | Group m a => (m =? n) || alwaysCaptures n a
  | Seq a b => alwaysCaptures n a || alwaysCaptures n b
  | Alt a b => alwaysCaptures n a && alwaysCaptures n b
  | Quant a mn _ _ => (0 <? mn) && alwaysCaptures n a
  | _ => false
  end.

Definition hasCap (n : nat) (c : caps) : Prop := getCap n c <> None.

(** A matcher that, whenever it succeeds, has called its continuation
    with group [n] set, provided it was set before or [sets] holds. *)
Definition keepsCap (n : nat) (sets : bool)
           (body : pos -> caps -> Cont -> option (pos * caps)) : Prop :=
  forall p c k res,
    body p c k = Some res ->
    exists p' c', k p' c' = Some res /\ (hasCap n c \/ sets = true -> hasCap n c').

(** ** Fuel of the matcher *)

(** Two continuations that agree on every position with at most [n]
    characters left. *)
Definition agreeBelow (n : nat) (k1 k2 : Cont) : Prop :=
  forall p c, String.length (rest p) <= n -> k1 p c = k2 p c.

(** A matcher that only calls its continuation at positions not before
    the one it starts from. *)
Definition forwardOnly (body : pos -> caps -> Cont -> option (pos * caps)) : Prop :=
  forall p c k1 k2,
    agreeBelow (String.length (rest p)) k1 k2 -> body p c k1 = body p c k2.

(** ** The JSON recovery chain, tier by tier *)

Definition isSome {A} (o : option A) : bool :=
  match o with Some _ => true | None => false end.

(** Tier 1: the response itself. *)
Definition directJson (r : string) : option JsValue := JSON_parse r.

(** Tier 2: the content of the first fenced block, for a fence pattern. *)
Definition fencedJson (fence : regex) (r : string) : option JsValue :=
  match exec false fence r with
  | Some m =>
      match group 1 m with
      | Some inner => JSON_parse inner
      | None => None
      end
  | None => None
  end.

(** Tier 3: the span from the first opening brace to the last closing
    brace. *)
Definition braceSpanJson (r : string) : option JsValue :=
  match exec false braceSpanRe r with
  | Some m => JSON_parse (matched m)
  | None => None
  end.

(** The chain as the specification words it: each failure falls through
    to the next tier, and only the failure of all three raises. *)
Definition threeTierChain (r : string) : Res JsError JsValue :=
  match directJson r with
  | Some v => Ok v
  | None =>
      match fencedJson jsonFenceRe r with
      | Some v => Ok v
      | None =>
          match braceSpanJson r with
          | Some v => Ok v
          | None => Throw (newError "Invalid JSON from LLM")
          end
      end
  end.

Definition quoted (s : string) : string := dq ++ s ++ dq.

(** A response in which the model wraps the object in prose: the JSON
    object with four empty groups after the words [Here is the form:]. *)
Definition proseResponse : string :=
  "Here is the form: {" ++ quoted "header" ++ ":{}," ++ quoted "careCoordinationType"
    ++ ":{}," ++ quoted "narrative" ++ ":{}," ++ quoted "signature" ++ ":{}}".

Definition proseWorld : World :=
  mkWorld (Ok true)
          (fun _ => Ok (Some proseResponse))
          (fun _ _ => Throw (newError "no vision"))
          (fun _ _ => Throw (newError "no categorizer")).

Definition plainEnv : Env := mkEnv None None.

(** ** Reading the categorizer's data by path *)

Definition headerFields : list (string * (PartialForm -> option string)) :=
  [ ("header.recipientName", fun d => optField (pHeader d) pRecipientName);
    ("header.date", fun d => optField (pHeader d) pDate);
    ("header.time", fun d => optField (pHeader d) pTime);
    ("header.recipientIdentifier", fun d => optField (pHeader d) pRecipientIdentifier);
    ("header.dob", fun d => optField (pHeader d) pDob);
    ("header.location", fun d => optField (pHeader d) pLocation) ].

Definition narrativeFields : list (string * (PartialForm -> option string)) :=
  [ ("narrative.recipientAndVisitObservations",
      fun d => optField (pNarrative d) pRecipientAndVisitObservations);
    ("narrative.healthEmotionalStatus",
      fun d => optField (pNarrative d) pHealthEmotionalStatus);
    ("narrative.reviewOfServices", fun d => optField (pNarrative d) pReviewOfServices);
    ("narrative.progressTowardGoals",
      fun d => optField (pNarrative d) pProgressTowardGoals);
    ("narrative.additionalNotes", fun d => optField (pNarrative d) pAdditionalNotes);
    ("narrative.followUpTasks", fun d => optField (pNarrative d) pFollowUpTasks) ].

Definition signatureFields : list (string * (PartialForm -> option string)) :=
  [ ("signature.careCoordinatorName",
      fun d => optField (pSignature d) pCareCoordinatorName);
    ("signature.signature", fun d => optField (pSignature d) pSignatureText);
    ("signature.dateSigned", fun d => optField (pSignature d) pDateSigned) ].

(** Every string field of the parsed object, by its path. *)
Definition stringFields : list (string * (PartialForm -> option string)) :=
  (headerFields ++ narrativeFields ++ signatureFields)%list.

Definition stringFieldAt (d : PartialForm) (p : string) : option string :=
  match find (fun kv => String.eqb (fst kv) p) stringFields with
  | Some kv => snd kv d
  | None => None
  end.

(** The issues recorded for one field. *)
Definition issuesFor (p : string) (v : Validation) : list ValidationIssue :=
  filter (fun i => String.eqb (vField i) p) (issues v).

Definition placeholderIssue (p v : string) : ValidationIssue :=
  mkIssue p ("Placeholder value found: " ++ dq ++ v ++ dq)
          (Some "Field not properly extracted from source text").

(** Categorized data with the placeholder in a narrative field and in a
    signature field. *)
Definition placeholderData : PartialForm :=
  mkPartialForm
    (Some (mkPartialHeader (Some "Bob Smith") (Some "03/15/2024") None None None None))
    (Some (mkPartialCare (Some true) (Some false)))
    (Some (mkPartialNarrative (Some "Client doing well after the last visit.") None None
                              None (Some "string") None))
    (Some (mkPartialSignature None (Some "string") None)).

(** Categorized data whose only content is a date. *)
Definition dataWithDate (d : string) : PartialForm :=
  mkPartialForm
    (Some (mkPartialHeader (Some "Bob Smith") (Some d) None None None None))
    None None None.

(** ** Patterns that match in one way *)

Definition capsBlind (k : Cont) : Prop :=
  forall p c c', isSome (k p c) = isSome (k p c').

(** A pattern that matches in at most one way: [f] gives the position
    after the match. *)
Definition oneWay (ic : bool) (r : regex) (f : pos -> option pos) : Prop :=
  forall p c k,
    capsBlind k ->
    isSome (run ic r p c k)
    = match f p with Some p' => isSome (k p' c) | None => false end.

Definition andThen (f g : pos -> option pos) : pos -> option pos :=
  fun p => match f p with Some p' => g p' | None => None end.

Definition orStep (f g : pos -> option pos) : pos -> option pos :=
  fun p => orElse (f p) (g p).

Fixpoint iterStep (f : pos -> option pos) (n : nat) : pos -> option pos :=
  match n with
  | 0 => fun p => Some p
  | S n' => andThen f (iterStep f n')
  end.

Definition atStart (p : pos) : option pos :=
  match before p with None => Some p | Some _ => None end.

Definition atEnd (p : pos) : option pos :=
  match rest p with EmptyString => Some p | _ => None end.

Definition classStep (ic : bool) (items : list cset) : pos -> option pos :=
  stepIf (fun ch => existsb (csetMatch ic ch) items).

Definition twoDigits (a b : ascii) : nat := (code a - 48) * 10 + (code b - 48).

(** The date pattern as a function on positions. *)
Definition dateStep : pos -> option pos :=
  andThen atStart
   (andThen (orStep (andThen (eatLit false "0") (classStep false [CRange "1" "9"]))
                    (andThen (eatLit false "1") (classStep false [CRange "0" "2"])))
   (andThen (eatLit false "/")
   (andThen (orStep (andThen (classStep false [CRange "0" "2"])
                             (classStep false [CRange "0" "9"]))
                    (andThen (eatLit false "3") (classStep false [ch "0"; ch "1"])))
   (andThen (eatLit false "/")
   (andThen (iterStep (classStep false [CDigit]) 4) atEnd))))).

(** Two digits, a slash, two digits, a slash, four digits, with the month
    in 01-12 and the day between [dayMin] and 31. *)
Definition datePattern (dayMin : nat) (s : string) : bool :=
  match s with
  | String m1 (String m2 (String s1 (String d1 (String d2 (String s2
      (String y1 (String y2 (String y3 (String y4 EmptyString))))))))) =>
      forallb isDigit [m1; m2; d1; d2; y1; y2; y3; y4]
      && (code s1 =? 47) && (code s2 =? 47)
      && (1 <=? twoDigits m1 m2) && (twoDigits m1 m2 <=? 12)
      && (dayMin <=? twoDigits d1 d2) && (twoDigits d1 d2 <=? 31)
  | _ => false
  end.

(** The same on the ten characters of a date. *)
Definition dateCharsOk (m1 m2 s1 d1 d2 s2 y1 y2 y3 y4 : ascii) : bool :=
  ((Ascii.eqb "0" m1 && inRange "1" "9" m2) || (Ascii.eqb "1" m1 && inRange "0" "2" m2))
  && Ascii.eqb "/" s1
  && ((inRange "0" "2" d1 && inRange "0" "9" d2)
      || (Ascii.eqb "3" d1 && (Ascii.eqb "0" d2 || Ascii.eqb "1" d2)))
  && Ascii.eqb "/" s2 && isDigit y1 && isDigit y2 && isDigit y3 && isDigit y4.


(** The date pattern as the specification words it: two-digit month
    01-12, two-digit day 01-31, four-digit year. *)
Definition strictDate (s : string) : bool := datePattern 1 s.

(** ** The orchestrator *)

(** What the liveness probe answers. *)
Definition reachable (env : Env) (w : World) (flag : bool) : bool :=
  negb (flag || llmDisabled env)
  && match fetchTags w with Ok ok => ok | Throw _ => false end.

(** A request served by the rule-based extractor alone: no call to the
    runtime, no LLM strategy. *)
Definition rulesOnly (o : Res JsError ParseResult * list Event) : Prop :=
  snd o = [CallRules]
  /\ exists r, fst o = Ok r /\ extractionMethod r = ocr_only.

Definition timeoutError : JsError :=
  mkError "TimeoutError" "The operation was aborted due to timeout".

(** A runtime that answers the probe and lets every generation time out. *)
Definition slowWorld : World :=
  mkWorld (Ok true)
          (fun _ => Throw timeoutError)
          (fun _ _ => Throw timeoutError)
          (fun _ _ => Throw timeoutError).

Definition visionEnv : Env := mkEnv None (Some "llava:7b").

(** ** Inputs of the scenarios *)

Definition disabledEnv : Env := mkEnv (Some "true") None.

Definition typedNote : string :=
  "Name: Bob Smith" ++ LF ++ "Date: 03/15/2024" ++ LF ++ "SIH checked".

Definition fiftyChars : string :=
  "The aide visits three times a week and helps well.".

Definition twoSections : string :=
  "Review of Services" ++ LF ++ fiftyChars ++ LF ++ "Progress toward Goals" ++ LF
    ++ "Walking every day, needs some improvement.".

Definition bothChecked : PartialForm :=
  mkPartialForm
    (Some (mkPartialHeader (Some "Bob Smith") (Some "03/15/2024") None None None None))
    (Some (mkPartialCare (Some true) (Some true)))
    None None.

(** A computation that never logs the event, from any flag. *)
Definition never {A} (ev : Event) (m : M A) : Prop :=
  forall st, ~ In ev (traceOf (m st)).


End Props.

(* ================================================================== *)
(** * ImportScreen.tsx: the empty-form check of handleAutoFill *)

Module ImportScreen.
Import JsString Schema.

(** [Object.values(o).filter(v => v).length] on the header and on the
    narrative of a form, added up. *)
Definition filledFields (f : MonthlyCareCoordinationForm) : nat :=
  let h := header f in
  let n := narrative f in
  List.length
    (filter truthy
       [recipientName h; date h; time h; recipientIdentifier h; dob h; location h])
  + List.length
      (filter truthy
         [recipientAndVisitObservations n; healthEmotionalStatus n; reviewOfServices n;
          progressTowardGoals n; additionalNotes n; followUpTasks n]).

(** The test [filledFields === 0], on which the screen reports that the
    AI returned an empty form. *)
Definition reportsEmptyForm (f : MonthlyCareCoordinationForm) : bool :=
  filledFields f =? 0.

End ImportScreen.

(* ================================================================== *)
(** * logger.ts: the level filter *)

Module Logger.
Import JsString.

Inductive LogLevel : Type := debug | info | warn | error.

Definition levelName (l : LogLevel) : string :=
  match l with
  | debug => "debug"
  | info => "info"
  | warn => "warn"
  | error => "error"
  end.

(** [levels[name]]: a number for the four level names; any other name
    reads as something that is no number. *)
Definition levels (name : string) : option nat :=
  if String.eqb name "debug" then Some 0
  else if String.eqb name "info" then Some 1
  else if String.eqb name "warn" then Some 2
  else if String.eqb name "error" then Some 3
  else None.

(** [process.env.LOG_LEVEL || 'info'] *)
Definition LOG_LEVEL (envLevel : option string) : string :=
  match envLevel with
  | Some s => if truthy s then s else "info"
  | None => "info"
  end.

(** [if (levels[level] < levels[LOG_LEVEL]) return;]: the comparison
    with something that is no number is false. *)
Definition dropped (envLevel : option string) (level : LogLevel) : bool :=
  match levels (levelName level), levels (LOG_LEVEL envLevel) with
  | Some a, Some b => a <? b
  | _, _ => false
  end.

(** Whether [log] reaches [console.log]. *)
Definition printed (envLevel : option string) (level : LogLevel) : bool :=
  negb (dropped envLevel level).

Definition severity (l : LogLevel) : nat :=
  match l with debug => 0 | info => 1 | warn => 2 | error => 3 end.

End Logger.

(* ================================================================== *)
(** * ReviewScreen.tsx: the tier shown for a field *)

Module ReviewScreen.
Import JsString Schema.

(** [map.set(key, value)]: a key that is present keeps its place and
    takes the new value. *)
Fixpoint mapSet (k : string) (v : FieldConfidence) (m : list (string * FieldConfidence))
  : list (string * FieldConfidence) :=
  match m with
  | [] => [(k, v)]
  | (k', v') :: rest =>
      if String.eqb k' k then (k, v) :: rest else (k', v') :: mapSet k v rest
  end.

Fixpoint mapGet (k : string) (m : list (string * FieldConfidence))
  : option FieldConfidence :=
  match m with
  | [] => None
  | (k', v) :: rest => if String.eqb k' k then Some v else mapGet k rest
  end.

(** [new Map(result.confidence.map(c => [c.field, c]))] *)
Definition confidenceMap (l : list FieldConfidence) : list (string * FieldConfidence) :=
  fold_left (fun m c => mapSet (field c) c m) l [].

(** [confidenceMap.get(field)?.confidence || 'low'] *)
Definition getConfidence (l : list FieldConfidence) (fieldPath : string)
  : ConfidenceLevel :=
  match mapGet fieldPath (confidenceMap l) with
  | Some c => confidence c
  | None => low
  end.

End ReviewScreen.

(* ================================================================== *)
(** * ocr.ts: from an uploaded file to text and a confidence

    The file system, pdf-parse, pdf2pic and tesseract are outside the
    program: an [Engine] says what they answer.  The mean of the page
    confidences is computed in floating point; [fmean] stands for
    [reduce((sum, r) => sum + r.confidence, 0) / results.length]. *)

Module Ocr.
Import JsString.

Inductive OcrMethod : Type := pdf_text | pdf_ocr | image_ocr.

Record OCROutput : Type := mkOCROutput {
  outText : string;
  outConfidence : Q;
  outPageCount : nat;
  outMethod : OcrMethod
}.

Record Engine : Type := mkEngine {
  (* fs.readFile and pdfParse: the text layer and the number of pages *)
  parsePdf : string -> Res JsError (string * nat);
  (* fs.mkdtemp *)
  makeTempDir : Res JsError string;
  (* convert.bulk: for each page the path of its image, if it has one *)
  convertPages : string -> nat -> Res JsError (list (option string));
  (* createWorker *)
  createWorker : Res JsError unit;
  (* worker.recognize: the text and the confidence *)
  recognize : string -> Res JsError (string * Q);
  fmean : list Q -> Q
}.

Section WithEngine.
Variable eng : Engine.

(** The loop over the page images: a page without image path is skipped,
    a failed recognition ends the loop with its error. *)
Fixpoint recognizePages (images : list (option string))
  : Res JsError (list (string * Q)) :=
  match images with
  | [] => Ok []
  | image :: others =>
      match image with
      | Some imagePath =>
          if truthy imagePath then
            let* result := recognize eng imagePath in
            let* results := recognizePages others in
            Ok (result :: results)
          else recognizePages others
      | None => recognizePages others
      end
  end.

Definition pageBreak : string := LF ++ LF ++ "--- Page Break ---" ++ LF ++ LF.

(** extractFromPDFWithOCR *)
Definition extractFromPDFWithOCR (filePath : string) (pages : nat)
  : Res JsError OCROutput :=
  let* tempDir := makeTempDir eng in
  let* images := convertPages eng filePath pages in
  let* worker := createWorker eng in
  let* results := recognizePages images in
  let fullText := String.concat pageBreak (map fst results) in
  let avgConfidence :=
    if 0 <? List.length results then fmean eng (map snd results) else 0 # 1 in
  Ok (mkOCROutput fullText avgConfidence pages pdf_ocr).

(** extractFromPDF *)
Definition extractFromPDF (filePath : string) : Res JsError OCROutput :=
  let* pdfData := parsePdf eng filePath in
  let '(txt, numpages) := pdfData in
  if 100 <? String.length (trim txt)
  then Ok (mkOCROutput txt (95 # 1) numpages pdf_text)
  else extractFromPDFWithOCR filePath numpages.

(** extractFromImage *)
Definition extractFromImage (filePath : string) : Res JsError OCROutput :=
  let* worker := createWorker eng in
  let* result := recognize eng filePath in
  Ok (mkOCROutput (fst result) (snd result) 1 image_ocr).

(** extractTextFromFile *)
Definition extractTextFromFile (filePath mimeType : string) : Res JsError OCROutput :=
  if String.eqb mimeType "application/pdf" then extractFromPDF filePath
  else if prefix "image/" mimeType then extractFromImage filePath
  else Throw (newError ("Unsupported file type: " ++ mimeType)).

End WithEngine.

End Ocr.

(* ================================================================== *)
(** * index.ts: the extraction and form-filling endpoints *)

Module Server.
Import JsString Json Schema Effects Runtime Ollama Parser Ocr.

(** [req.file] as multer leaves it. *)
Record UploadedFile : Type := mkUploadedFile {
  filePath : string;
  mimetype : string;
  originalname : string
}.

(** What a handler does besides answering: the calls of the pipeline and
    the removal of the uploaded file. *)
Inductive Action : Type :=
| Pipeline (ev : Event)
| Unlink (path : string).

(** [ExtractionResult] as the two endpoints build it. *)
Record ExtractionResult : Type := mkExtractionResult {
  resForm : MonthlyCareCoordinationForm;
  resConfidence : list FieldConfidence;
  rawText : string;
  resMethod : ExtractionMethod;
  resOllamaAvailable : bool
}.

Inductive Body : Type :=
| Extraction (r : ExtractionResult)
| Failure (error : string) (message : option string).

Record Response : Type := mkResponse {
  status : nat;
  body : Body
}.

(** The body of a fill request: [{ rawText, ocrConfidence }], each
    possibly absent. *)
Record FillRequest : Type := mkFillRequest {
  fillRawText : option string;
  fillOcrConfidence : option Q
}.

Definition toExtraction (r : ParseResult) (raw : string) : ExtractionResult :=
  mkExtractionResult (form r) (confidenceList r) raw (extractionMethod r)
                     (ollamaAvailable r).

Section Handlers.
Variable env : Env.
Variable eng : Engine.
Variable world : World.

(** POST /extract/pdf *)
Definition extractPdf (file : option UploadedFile) (flag : bool)
  : Response * bool * list Action :=
  match file with
  | None => (mkResponse 400 (Failure "No file provided" None), flag, [])
  | Some f =>
      match extractTextFromFile eng (filePath f) (mimetype f) with
      | Ok ocrResult =>
          let isImage := prefix "image/" (mimetype f) in
          let poorOcr := Qltb (outConfidence ocrResult) (50 # 1) in
          let useVision := isImage && poorOcr in
          let '(res, flag', tr) :=
            parseFormFromText env world (outText ocrResult) (outConfidence ocrResult)
              (if useVision then Some (filePath f) else None) flag in
          match res with
          | Ok parseResult =>
              (mkResponse 200 (Extraction (toExtraction parseResult (outText ocrResult))),
               flag', (map Pipeline tr ++ [Unlink (filePath f)])%list)
          | Throw e =>
              (mkResponse 500 (Failure "Extraction failed" (Some (errMessage e))),
               flag', (map Pipeline tr ++ [Unlink (filePath f)])%list)
          end
      | Throw e =>
          (mkResponse 500 (Failure "Extraction failed" (Some (errMessage e))),
           flag, [Unlink (filePath f)])
      end
  end.

Definition unavailable : Response :=
  mkResponse 503
    (Failure "AI filling not available"
             (Some "Ollama is not running. Please start Ollama or use manual fill.")).

(** POST /extract/fill, for a body as the desktop client posts it: a
    [rawText] that is a string, or absent.  The handler probes the
    runtime itself before it calls the parser, and the parser probes
    again: [atProbe] is the runtime when the handler asks, [world] the
    runtime during the run of the parser.  The [ocrConfidence] of the
    body is bound and not read; the parser is called with 40 and without
    an image. *)
Definition extractFill (atProbe : World) (req : FillRequest) (flag : bool)
  : Response * bool * list Action :=
  match fillRawText req with
  | Some txt =>
      if truthy txt then
        let '(avail, flag1, t1) := checkOllamaHealth env atProbe flag in
        match avail with
        | Ok true =>
            let '(res, flag2, t2) :=
              parseFormFromText env world txt (40 # 1) None flag1 in
            match res with
            | Ok parseResult =>
                (mkResponse 200 (Extraction (toExtraction parseResult txt)),
                 flag2, map Pipeline (t1 ++ t2)%list)
            | Throw e =>
                (mkResponse 500 (Failure "Form filling failed" (Some (errMessage e))),
                 flag2, map Pipeline (t1 ++ t2)%list)
            end
        | Ok false => (unavailable, flag1, map Pipeline t1)
        | Throw e =>
            (mkResponse 500 (Failure "Form filling failed" (Some (errMessage e))),
             flag1, map Pipeline t1)
        end
      else (mkResponse 400 (Failure "No raw text provided" None), flag, [])
  | None => (mkResponse 400 (Failure "No raw text provided" None), flag, [])
  end.

End Handlers.

End Server.

(* ================================================================== *)
(** * Vocabulary of the further properties *)

Module MoreProps.
Import JsString Regex Json Schema Effects Categorizer Runtime Ollama Parser PdfExport Props.

(** The tier of a populated field, by method and OCR confidence. *)
Definition populatedTier (m : ExtractionMethod) (c : Q) : ConfidenceLevel :=
  match m with
  | ocr_only => if Qgtb c (80 # 1) then medium else low
  | llm_categorized => if Qgtb c (50 # 1) then high else medium
  | _ => baseConfidence c
  end.

(** The fields of a merged form that the validation phase cleans: the
    header and the narrative without the additional notes, which carry
    the texts of the issues. *)
Definition cleanedFields (f : MonthlyCareCoordinationForm) : list string :=
  let h := header f in
  let n := narrative f in
  [recipientName h; date h; time h; recipientIdentifier h; dob h; location h;
   recipientAndVisitObservations n; healthEmotionalStatus n; reviewOfServices n;
   progressTowardGoals n; followUpTasks n].

Definition nameNotFoundIssue : ValidationIssue :=
  mkIssue "header.recipientName" "Recipient name not found in text"
          (Some "Check OCR quality or manually enter").

Definition bothCheckedIssue : ValidationIssue :=
  mkIssue "careCoordinationType" "Both SIH and HCBW are checked"
          (Some "Usually only one is selected").

(** An issue pushed by checkLiteralString. *)
Definition isPlaceholderIssue (i : ValidationIssue) : Prop :=
  exists p v, i = placeholderIssue p v /\ containsPlaceholder v = true.

(** The content of the first fenced block of the categorizer's pattern,
    trimmed, as JSON. *)
Definition fencedTrimmedJson (r : string) : option JsValue :=
  match exec false codeBlockRe r with
  | Some m =>
      match group 1 m with
      | Some inner => JSON_parse (trim inner)
      | None => None
      end
  | None => None
  end.

Definition hasFence (r : string) : bool := isSome (exec false codeBlockRe r).

(** An occurrence of [h] in [s] at index [i]. *)
Definition occursAt (h s : string) (i : nat) : Prop :=
  exists a b, s = a ++ h ++ b /\ String.length a = i.

Definition sectionOf (txt : string) (kp : NarrativeKey * list string)
  : list (NarrativeKey * string) :=
  match sectionContent txt (toLowerCase txt) (snd kp) with
  | Some content => [(fst kp, content)]
  | None => []
  end.

Definition trimmed (s : string) : Prop := trim s = s.

Definition headerValues (f : MonthlyCareCoordinationForm) : list string :=
  let h := header f in
  [recipientName h; date h; time h; recipientIdentifier h; dob h; location h].

(** What the loop over the lines keeps: trimmed header values and an
    untouched signature. *)
Definition rulesKeep (f : MonthlyCareCoordinationForm) : Prop :=
  Forall trimmed (headerValues f) /\ signature f = signature createEmptyForm.

(** The lines the loop of parseWithRules runs over. *)
Definition ruleInputLines (txt : string) : list string :=
  filter truthy (map trim (splitLines txt)).

(** The mark on the last line that names the word; unchecked when no
    line names it. *)
Definition lastMention (word : string) (lines : list string) : bool :=
  match find (fun l => includes (toLowerCase l) word) (rev lines) with
  | Some l => test true checkedPattern l
  | None => false
  end.

(** A call to the runtime that ends in a timeout error. *)
Definition timesOut {A} (r : Res JsError A) : bool :=
  match r with
  | Throw e => isTimeoutError e
  | Ok _ => false
  end.

(** The log of a request: the probe, then the strategies that were
    tried, in the order of their priority. *)
Definition traceFor (probe vision categorizer text rules : bool) : list Event :=
  ((if probe then [NetTags] else [])
   ++ (if vision then [CallVision; NetGenerateVision] else [])
   ++ (if categorizer then [CallCategorizer; NetCategorize] else [])
   ++ (if text then [CallText; NetGenerateText] else [])
   ++ (if rules then [CallRules] else []))%list.

(** The method of the last strategy among those tried. *)
Definition methodFor (vision categorizer text rules : bool) : ExtractionMethod :=
  if rules then ocr_only
  else if text then llm_structured
  else if categorizer then llm_categorized
  else vision_llm.

(** The probe is sent unless the flag is set or the LLM is disabled. *)
Definition probes (env : Env) (flag : bool) : bool := negb (flag || llmDisabled env).

(** The guard of the vision strategy. *)
Definition visionEligible (env : Env) (w : World) (c : Q) (img : option string)
           (flag : bool) : bool :=
  reachable env w flag && truthyPath img && isMultimodalModel env && Qltb c (50 # 1).

(** The default a leaf takes when its key is absent. *)
Definition leafDefault (k : FieldKind) : JsValue :=
  match k with
  | checkbox => JBool false
  | _ => JStr EmptyString
  end.

Definition sectionKeys : list string :=
  ["header"; "careCoordinationType"; "narrative"; "signature"].

(** A parse that fails with the issue among those it reports. *)
Definition reports {A} (i : ZodIssue) (r : Res ZodError A) : Prop :=
  exists errs, r = Throw errs /\ In i errs.

(** Data whose header has a date and nothing else. *)
Definition sparseData : JsValue :=
  JObj [("header", JObj [("date", JStr "03/15/2024")]);
        ("careCoordinationType", JObj []);
        ("narrative", JObj []);
        ("signature", JObj [])].

(** A computation all of whose results satisfy [P]. *)
Definition returnsOnly {A} (P : A -> Prop) (m : M A) : Prop :=
  forall st a st' t, m st = (Ok a, st', t) -> P a.

(** A result whose confidence list is the score of its own form, under
    its own method, at the OCR confidence [c]. *)
Definition scoredAt (c : Q) (r : ParseResult) : Prop :=
  confidenceList r = generateConfidenceScores (form r) c (extractionMethod r).

Definition scoredIfAny (c : Q) (o : option ParseResult) : Prop :=
  match o with Some r => scoredAt c r | None => True end.

End MoreProps.

(* ================================================================== *)
(** * Properties *)

Import JsString Regex Json Schema Effects Categorizer Runtime Ollama Parser PdfExport Props.

(** ** The confidence scorer *)


Lemma fieldLevel_empty (b : ConfidenceLevel) (m : ExtractionMethod) :
  fieldLevel b m false = low.
Proof. unfold fieldLevel. rewrite andb_false_r. reflexivity. Qed.

Lemma fieldLevel_ocr_le_categorized (b : ConfidenceLevel) :
  levelRank (fieldLevel b ocr_only true) <= levelRank (fieldLevel b llm_categorized true).
Proof. destruct b; simpl; lia. Qed.

(** C2.  Whatever the form, the base confidence and the method, the
    scorer's list names exactly the seventeen leaf paths of the schema, in
    the order of the field table: six header paths, the two checkboxes,
    six narrative paths and three signature paths, none twice. *)
Theorem confidence_enumerates_schema_paths :
  forall (f : MonthlyCareCoordinationForm) (c : Q) (m : ExtractionMethod),
    map field (generateConfidenceScores f c m) = map path FORM_FIELDS
    /\ List.length (generateConfidenceScores f c m) = 17
    /\ NoDup (map field (generateConfidenceScores f c m))
    /\ countPrefix "header." (map field (generateConfidenceScores f c m)) = 6
    /\ countPrefix "careCoordinationType." (map field (generateConfidenceScores f c m)) = 2
    /\ countPrefix "narrative." (map field (generateConfidenceScores f c m)) = 6
    /\ countPrefix "signature." (map field (generateConfidenceScores f c m)) = 3.
Proof.
  intros f c m.
  assert (E : map field (generateConfidenceScores f c m) = map path FORM_FIELDS)
    by reflexivity.
  rewrite E.
  split; [reflexivity|].
  split; [reflexivity|].
  split.
  - simpl. repeat (constructor; [simpl; intuition discriminate|]). constructor.
  - repeat split; reflexivity.
Qed.

(** C4.  An entry whose field holds the empty string is scored low,
    whatever the method and the base confidence.  The two checkbox entries
    are scored as populated fields: their tier is the adjusted base tier
    and does not depend on the value of the checkbox. *)
Theorem empty_field_floor_and_checkbox_exemption :
  forall (f : MonthlyCareCoordinationForm) (c : Q) (m : ExtractionMethod)
         (e : FieldConfidence),
    In e (generateConfidenceScores f c m) ->
    (getValueAtPath (formToJs f) (field e) = Some (JStr EmptyString) ->
     confidence e = low)
    /\ (In (field e) checkboxPaths ->
        confidence e = fieldLevel (baseConfidence c) m true).
Proof.
  intros f c m e H.
  destruct f as [[n d t i b l] [s1 s2] [o h r g a u] [k x y]].
  simpl in H.
  repeat (destruct H as [H | H];
          [ subst e; split;
            [ intro V; vm_compute in V;
              first [ discriminate V
                    | injection V as V; subst; apply fieldLevel_empty ]
            | intro C; vm_compute in C;
              first [ reflexivity
                    | exfalso; repeat (destruct C as [C | C]; [discriminate C|]);
                      exact C ] ]
          | ]).
  contradiction.
Qed.

Lemma empty_field_floor_witness :
  In (addField (95 # 1) llm_categorized "header.date" false)
     (generateConfidenceScores createEmptyForm (95 # 1) llm_categorized)
  /\ getValueAtPath (formToJs createEmptyForm) "header.date" = Some (JStr EmptyString)
  /\ confidence (addField (95 # 1) llm_categorized "header.date" false) = low.
Proof.
  assert (H : In (addField (95 # 1) llm_categorized "header.date" false)
                 (generateConfidenceScores createEmptyForm (95 # 1) llm_categorized)).
  { simpl. right. left. reflexivity. }
  split; [exact H|]. split; [reflexivity|].
  apply (empty_field_floor_and_checkbox_exemption createEmptyForm (95 # 1)
           llm_categorized _ H).
  reflexivity.
Defined.

(** C5.  For a populated field and one base confidence, the tier under
    ocr-only is never above the tier under llm-categorized. *)
Theorem ocr_only_tier_never_above_categorized :
  forall (f : MonthlyCareCoordinationForm) (c : Q) (p : string),
    In p fieldPaths ->
    isPopulated f p = true ->
    exists t1 t2,
      lookupConfidence p (generateConfidenceScores f c ocr_only) = Some t1
      /\ lookupConfidence p (generateConfidenceScores f c llm_categorized) = Some t2
      /\ levelRank t1 <= levelRank t2.
Proof.
  intros f c p H P.
  destruct f as [[n d t i b l] [s1 s2] [o h r g a u] [k x y]].
  unfold fieldPaths in H. simpl in H.
  repeat (destruct H as [H | H];
          [ subst p; vm_compute in P;
            eexists; eexists;
            split; [reflexivity|]; split; [reflexivity|];
            simpl; unfold truthy; try rewrite P; apply fieldLevel_ocr_le_categorized
          | ]).
  contradiction.
Qed.

Lemma ocr_only_tier_never_above_categorized_witness :
  exists t1 t2,
    lookupConfidence "header.date"
      (generateConfidenceScores (setDate "03/15/2024" createEmptyForm) (60 # 1) ocr_only)
    = Some t1
    /\ lookupConfidence "header.date"
         (generateConfidenceScores (setDate "03/15/2024" createEmptyForm) (60 # 1)
            llm_categorized)
       = Some t2
    /\ levelRank t1 <= levelRank t2.
Proof.
  apply (ocr_only_tier_never_above_categorized
           (setDate "03/15/2024" createEmptyForm) (60 # 1) "header.date").
  - unfold fieldPaths. simpl. right. left. reflexivity.
  - reflexivity.
Defined.

(** ** Capture groups of the matcher *)

Lemma repeatMatcher_keepsCap (n : nat) (sets : bool)
      (body : pos -> caps -> Cont -> option (pos * caps)) :
  keepsCap n sets body ->
  forall fuel greedy mn mx,
    keepsCap n ((0 <? mn) && sets) (fun p c k => repeatMatcher body greedy mn mx fuel p c k).
Proof.
  intros Hb fuel.
  induction fuel as [|fuel IH]; intros greedy mn mx p c k res H; simpl in H.
  - discriminate.
  - assert (More :
      forall x,
        (if maxAllows mx
         then body p c (fun p' c' =>
                if (mn =? 0) && (String.length (rest p) <=? String.length (rest p'))
                then None
                else repeatMatcher body greedy (pred mn) (decMax mx) fuel p' c' k)
         else None) = Some x ->
        exists p' c', k p' c' = Some x /\ (hasCap n c \/ sets = true -> hasCap n c')).
    { intros x Hx.
      destruct (maxAllows mx); [|discriminate].
      apply Hb in Hx. destruct Hx as (p1 & c1 & Hk & Hc).
      destruct ((mn =? 0) && (String.length (rest p) <=? String.length (rest p1)));
        [discriminate|].
      apply IH in Hk. destruct Hk as (p2 & c2 & Hk2 & Hc2).
      exists p2, c2. split; [assumption|].
      intro Hor. apply Hc2. left. apply Hc. assumption. }
    destruct (0 <? mn) eqn:Hmn.
    + apply More in H. destruct H as (p' & c' & Hk & Hc).
      exists p', c'. split; [assumption|].
      intros [Hh | Hs]; apply Hc; [left; assumption|right].
      simpl in Hs. assumption.
    + assert (Stop : k p c = Some res ->
                     exists p' c', k p' c' = Some res
                                   /\ (hasCap n c \/ false && sets = true -> hasCap n c')).
      { intro Hk. exists p, c. split; [assumption|].
        intros [Hh | Hs]; [assumption|discriminate]. }
      assert (Go :
                   (exists p' c', k p' c' = Some res
                                  /\ (hasCap n c \/ sets = true -> hasCap n c')) ->
                   exists p' c', k p' c' = Some res
                                 /\ (hasCap n c \/ false && sets = true -> hasCap n c')).
      { intros (p' & c' & Hk & Hc). exists p', c'. split; [assumption|].
        intros [Hh | Hs]; [apply Hc; left; assumption|discriminate]. }
      destruct greedy; unfold orElse in H.
      * match type of H with
        | match ?m with _ => _ end = _ => destruct m as [x|] eqn:Hm
        end.
        -- rewrite H in Hm. apply Go. apply More. assumption.
        -- apply Stop. assumption.
      * destruct (k p c) as [x|] eqn:Hk.
        -- apply Stop. assumption.
        -- apply Go. apply More. assumption.
Qed.

Lemma run_keepsCap (n : nat) (ic : bool) (r : regex) :
  keepsCap n (alwaysCaptures n r) (run ic r).
Proof.
  induction r as [| l | | items | a IHa b IHb | a IHa b IHb | a IHa mn mx g
                 | m a IHa | | | ];
    intros p c k res H; simpl in H.
  - exists p, c. split; [assumption|]. intros [Hh|Hs]; [assumption|discriminate].
  - destruct (eatLit ic l p) as [p'|]; [|discriminate].
    exists p', c. split; [assumption|]. intros [Hh|Hs]; [assumption|discriminate].
  - destruct (stepIf _ p) as [p'|]; [|discriminate].
    exists p', c. split; [assumption|]. intros [Hh|Hs]; [assumption|discriminate].
  - destruct (stepIf _ p) as [p'|]; [|discriminate].
    exists p', c. split; [assumption|]. intros [Hh|Hs]; [assumption|discriminate].
  - apply IHa in H. destruct H as (p1 & c1 & H1 & Hc1).
    apply IHb in H1. destruct H1 as (p2 & c2 & H2 & Hc2).
    exists p2, c2. split; [assumption|].
    simpl. intros [Hh|Hs].
    + apply Hc2. left. apply Hc1. left. assumption.
    + apply orb_true_iff in Hs. destruct Hs as [Hs|Hs].
      * apply Hc2. left. apply Hc1. right. assumption.
      * apply Hc2. right. assumption.
  - unfold orElse in H.
    destruct (run ic a p c k) as [x|] eqn:Ha.
    + rewrite <- H in *. apply IHa in Ha. destruct Ha as (p1 & c1 & H1 & Hc1).
      exists p1, c1. split; [congruence|].
      simpl. intros [Hh|Hs]; apply Hc1; [left; assumption|right].
      apply andb_true_iff in Hs. tauto.
    + apply IHb in H. destruct H as (p1 & c1 & H1 & Hc1).
      exists p1, c1. split; [assumption|].
      simpl. intros [Hh|Hs]; apply Hc1; [left; assumption|right].
      apply andb_true_iff in Hs. tauto.
  - exact (repeatMatcher_keepsCap n _ _ IHa _ g mn mx p c k res H).
  - apply IHa in H. destruct H as (p1 & c1 & H1 & Hc1).
    exists p1, ((m, consumed p p1) :: c1). split; [assumption|].
    unfold hasCap in *. simpl. intros [Hh|Hs].
    + destruct (m =? n); [discriminate|]. apply Hc1. left. assumption.
    + destruct (m =? n); [discriminate|]. apply Hc1. right. assumption.
  - destruct (before p); [discriminate|].
    exists p, c. split; [assumption|]. intros [Hh|Hs]; [assumption|discriminate].
  - destruct (rest p); [|discriminate].
    exists p, c. split; [assumption|]. intros [Hh|Hs]; [assumption|discriminate].
  - destruct (xorb _ _); [|discriminate].
    exists p, c. split; [assumption|]. intros [Hh|Hs]; [assumption|discriminate].
Qed.

Lemma exec_group_defined (n : nat) (ic : bool) (r : regex) (s : string) (m : MatchResult) :
  alwaysCaptures n r = true ->
  exec ic r s = Some m ->
  exists g, group n m = Some g.
Proof.
  intros Hr. unfold exec. generalize 0 as idx. generalize (@None ascii) as bef.
  induction s as [|ch0 s IH]; intros bef idx H; simpl in H.
  - destruct (run ic r (mkPos bef EmptyString) [] (fun p c => Some (p, c)))
      as [[p' c]|] eqn:R; [|discriminate].
    apply (run_keepsCap n) in R. destruct R as (p1 & c1 & Hk & Hc).
    injection Hk as -> ->. injection H as <-.
    unfold group. simpl.
    destruct (getCap n c) as [g|] eqn:G; [exists g; reflexivity|].
    exfalso. apply Hc; [right; assumption|assumption].
  - destruct (run ic r (mkPos bef (String ch0 s)) [] (fun p c => Some (p, c)))
      as [[p' c]|] eqn:R.
    + apply (run_keepsCap n) in R. destruct R as (p1 & c1 & Hk & Hc).
      injection Hk as -> ->. injection H as <-.
      unfold group. simpl.
      destruct (getCap n c) as [g|] eqn:G; [exists g; reflexivity|].
      exfalso. apply Hc; [right; assumption|assumption].
    + apply IH in H. exact H.
Qed.

(** ** The repetition never runs out of fuel *)

Lemma stepIf_shorter (f : ascii -> bool) (p p' : pos) :
  stepIf f p = Some p' -> String.length (rest p') < String.length (rest p).
Proof.
  unfold stepIf. destruct (rest p) as [|ch r] eqn:E; [discriminate|].
  destruct (f ch); [|discriminate]. intro H. injection H as <-. simpl. lia.
Qed.

Lemma eatLit_shorter (ic : bool) (l : string) :
  forall p p', eatLit ic l p = Some p' ->
               String.length (rest p') <= String.length (rest p).
Proof.
  induction l as [|ch l IH]; intros p p' H; simpl in H.
  - injection H as <-. lia.
  - destruct (stepIf (ceq ic ch) p) as [q|] eqn:E; [|discriminate].
    apply stepIf_shorter in E. apply IH in H. lia.
Qed.

Lemma repeatMatcher_forward (body : pos -> caps -> Cont -> option (pos * caps)) :
  forwardOnly body ->
  forall fuel g mn mx, forwardOnly (repeatMatcher body g mn mx fuel).
Proof.
  intros Hb fuel. induction fuel as [|fuel IH]; intros g mn mx p c k1 k2 Hk.
  - reflexivity.
  - simpl. rewrite (Hk p c) by lia.
    assert (E : (if maxAllows mx
                 then body p c (fun p' c' =>
                        if (mn =? 0) && (String.length (rest p) <=? String.length (rest p'))
                        then None
                        else repeatMatcher body g (pred mn) (decMax mx) fuel p' c' k1)
                 else None)
                = (if maxAllows mx
                   then body p c (fun p' c' =>
                          if (mn =? 0) && (String.length (rest p) <=? String.length (rest p'))
                          then None
                          else repeatMatcher body g (pred mn) (decMax mx) fuel p' c' k2)
                   else None)).
    { destruct (maxAllows mx); [|reflexivity].
      apply Hb. intros q d Hq.
      destruct ((mn =? 0) && (String.length (rest p) <=? String.length (rest q)));
        [reflexivity|].
      apply IH. intros q' d' Hq'. apply Hk. lia. }
    rewrite E. reflexivity.
Qed.

Lemma run_forward (ic : bool) (r : regex) : forwardOnly (run ic r).
Proof.
  induction r as [| l | | items | a IHa b IHb | a IHa b IHb | a IHa mn mx g
                 | m a IHa | | | ];
    intros p c k1 k2 Hk; simpl.
  - apply Hk. lia.
  - destruct (eatLit ic l p) as [p'|] eqn:E; [|reflexivity].
    apply Hk. apply eatLit_shorter in E. exact E.
  - destruct (stepIf _ p) as [p'|] eqn:E; [|reflexivity].
    apply Hk. apply stepIf_shorter in E. lia.
  - destruct (stepIf _ p) as [p'|] eqn:E; [|reflexivity].
    apply Hk. apply stepIf_shorter in E. lia.
  - apply IHa. intros q d Hq. apply IHb. intros q' d' Hq'. apply Hk. lia.
  - rewrite (IHa p c k1 k2 Hk), (IHb p c k1 k2 Hk). reflexivity.
  - apply (repeatMatcher_forward _ IHa). exact Hk.
  - apply IHa. intros q d Hq. apply Hk. exact Hq.
  - destruct (before p); [reflexivity|]. apply Hk. lia.
  - destruct (rest p) eqn:E; [|reflexivity]. apply Hk. rewrite E. simpl. lia.
  - destruct (xorb _ _); [|reflexivity]. apply Hk. lia.
Qed.

(** The fuel of the repetition never runs out: any two amounts above
    [min + length] give the same result. *)
Lemma repeatMatcher_fuel (body : pos -> caps -> Cont -> option (pos * caps)) :
  forwardOnly body ->
  forall f1 f2 g mn mx p c k,
    mn + String.length (rest p) < f1 ->
    mn + String.length (rest p) < f2 ->
    repeatMatcher body g mn mx f1 p c k = repeatMatcher body g mn mx f2 p c k.
Proof.
  intros Hb f1. induction f1 as [|f1 IH]; intros f2 g mn mx p c k H1 H2; [lia|].
  destruct f2 as [|f2]; [lia|]. simpl.
  assert (E : (if maxAllows mx
               then body p c (fun p' c' =>
                      if (mn =? 0) && (String.length (rest p) <=? String.length (rest p'))
                      then None
                      else repeatMatcher body g (pred mn) (decMax mx) f1 p' c' k)
               else None)
              = (if maxAllows mx
                 then body p c (fun p' c' =>
                        if (mn =? 0) && (String.length (rest p) <=? String.length (rest p'))
                        then None
                        else repeatMatcher body g (pred mn) (decMax mx) f2 p' c' k)
                 else None)).
  { destruct (maxAllows mx); [|reflexivity].
    apply Hb. intros q d Hq.
    destruct (mn =? 0) eqn:Z; simpl.
    - destruct (String.length (rest p) <=? String.length (rest q)) eqn:L; [reflexivity|].
      apply Nat.leb_gt in L. apply Nat.eqb_eq in Z. subst mn. apply IH; simpl; lia.
    - apply Nat.eqb_neq in Z. apply IH; lia. }
  rewrite E. reflexivity.
Qed.

Corollary quant_fuel_irrelevant (ic : bool) (a : regex) (mn : nat) (mx : option nat)
          (g : bool) (p : pos) (c : caps) (k : Cont) (extra : nat) :
  run ic (Quant a mn mx g) p c k
  = repeatMatcher (run ic a) g mn mx (mn + String.length (rest p) + 1 + extra) p c k.
Proof. simpl. apply repeatMatcher_fuel; [apply run_forward|lia|lia]. Qed.

(** ** The rule-based extractor *)

Lemma validateForm_formToJs (f : MonthlyCareCoordinationForm) :
  validateForm (formToJs f) = Ok f.
Proof.
  destruct f as [[n d t i b l] [s1 s2] [o h r g a u] [k x y]]. reflexivity.
Qed.

Lemma extractInto_returns (cond : bool) (re : regex) (line : string)
      (setter : string -> MonthlyCareCoordinationForm -> MonthlyCareCoordinationForm)
      (f : MonthlyCareCoordinationForm) :
  alwaysCaptures 1 re = true ->
  exists v, extractInto cond re line setter f
            = Ok (match v with Some x => setter x f | None => f end).
Proof.
  intro Hre. unfold extractInto.
  destruct cond; [|exists None; reflexivity].
  destruct (exec true re line) as [m|] eqn:E; [|exists None; reflexivity].
  destruct (exec_group_defined 1 true re line m Hre E) as [g G].
  unfold group1Trim. rewrite G. exists (Some (trim g)). reflexivity.
Qed.

Ltac stepExtract :=
  match goal with
  | |- context [extractInto ?c ?re ?l ?st ?f] =>
      let v := fresh "v" in
      destruct (extractInto_returns c re l st f eq_refl) as [v ->]; cbn [bindRes]
  end.

Lemma ruleLine_returns (f : MonthlyCareCoordinationForm) (line : string) :
  exists f', ruleLine f line = Ok f' /\ narrative f' = narrative f.
Proof.
  unfold ruleLine.
  do 6 stepExtract.
  eexists. split; [reflexivity|].
  repeat match goal with
         | |- context [match ?v with Some _ => _ | None => _ end] => destruct v
         end;
    repeat match goal with
           | |- context [if ?b then _ else _] => destruct b
           end;
    reflexivity.
Qed.

Lemma ruleLines_returns (lines : list string) :
  forall f, exists f', ruleLines f lines = Ok f' /\ narrative f' = narrative f.
Proof.
  induction lines as [|line lines IH]; intro f; simpl.
  - exists f. split; reflexivity.
  - destruct (ruleLine_returns f line) as (f1 & E1 & N1).
    rewrite E1. cbn [bindRes].
    destruct (IH f1) as (f2 & E2 & N2).
    exists f2. split; [assumption|congruence].
Qed.

(** C1.  The rule-based extractor returns on every text, every base
    confidence (in particular every one between 0 and 100) and every
    availability flag; it never throws, and the form it returns passes
    schema validation unchanged. *)
Theorem rule_based_extractor_total_and_valid :
  forall (s : string) (c : Q) (avail : bool),
    exists r,
      parseWithRules s c avail = Ok r
      /\ validateForm (formToJs (form r)) = Ok (form r)
      /\ extractionMethod r = ocr_only
      /\ ollamaAvailable r = avail.
Proof.
  intros s c avail. unfold parseWithRules.
  destruct (ruleLines_returns (filter truthy (map trim (splitLines s))) createEmptyForm)
    as (f1 & E & _).
  rewrite E. cbn [bindRes].
  eexists. split; [reflexivity|].
  split; [apply validateForm_formToJs|]. split; reflexivity.
Qed.


(** C10.  The additional notes of every rule-based result are non-empty:
    they start with the OCR-only note when the LLM is unavailable, then
    the review advice, then, after an empty line, the additional notes
    extracted from the text when there are any.  The confidence entry of
    the field is therefore the one of a populated field. *)
Theorem rule_based_notes_never_empty :
  forall (s : string) (c : Q) (avail : bool),
    exists r,
      parseWithRules s c avail = Ok r
      /\ additionalNotes (narrative (form r)) <> EmptyString
      /\ (let extracted :=
            additionalNotes
              (spreadSections (narrative createEmptyForm) (extractNarrativeSections s)) in
          additionalNotes (narrative (form r))
          = (if avail then EmptyString else ocrOnlyNote ++ LF)
              ++ reviewNote
              ++ (if truthy extracted then LF ++ LF ++ extracted else EmptyString))
      /\ In (mkFieldConfidence "narrative.additionalNotes"
               (fieldLevel (baseConfidence c) ocr_only true) c ocr_only)
            (confidenceList r).
Proof.
  intros s c avail. unfold parseWithRules.
  destruct (ruleLines_returns (filter truthy (map trim (splitLines s))) createEmptyForm)
    as (f1 & E & N).
  rewrite E. cbn [bindRes].
  eexists. split; [reflexivity|].
  cbn [form narrative setNarrativeOf]. rewrite N.
  set (sec := spreadSections (narrative createEmptyForm) (extractNarrativeSections s)).
  destruct (truthy (additionalNotes sec)) eqn:T; destruct avail;
    (split; [simpl; discriminate|]);
    (split; [reflexivity|]);
    simpl; do 12 right; left; reflexivity.
Qed.

(** ** The JSON recovery chain of the text extractor *)

Lemma recoverJson_cases (msg r : string) :
  recoverJson msg r
  = match directJson r with
    | Some v => Ok v
    | None =>
        match exec false jsonFenceRe r with
        | Some m =>
            match fencedJson jsonFenceRe r with
            | Some v => Ok v
            | None =>
                match group 1 m with
                | Some _ => Throw (syntaxError "Unexpected token in JSON")
                | None => Throw (syntaxError "undefined is not valid JSON")
                end
            end
        | None => Throw (newError msg)
        end
    end.
Proof.
  unfold recoverJson, directJson, fencedJson, parseJsonText.
  destruct (JSON_parse r); [reflexivity|].
  destruct (exec false jsonFenceRe r) as [m|]; [|reflexivity].
  destruct (group 1 m) as [inner|]; [|reflexivity].
  destruct (JSON_parse inner); reflexivity.
Qed.

(** C3, as the code has it.  The text extractor recovers the JSON in two
    tiers: the response itself, then the content of the first fenced json
    block.  It returns the value of the first tier that parses, and it
    raises exactly when both fail; a brace span plays no part. *)
Theorem text_extractor_two_tier_fallback :
  forall (msg r : string),
    isOk (recoverJson msg r)
    = isSome (directJson r) || isSome (fencedJson jsonFenceRe r)
    /\ (forall v,
          recoverJson msg r = Ok v
          <-> directJson r = Some v
              \/ (directJson r = None /\ fencedJson jsonFenceRe r = Some v))
    /\ ((exists e, recoverJson msg r = Throw e)
        <-> directJson r = None /\ fencedJson jsonFenceRe r = None).
Proof.
  intros msg r. rewrite recoverJson_cases. unfold fencedJson.
  assert (Raise : forall (x : Res JsError JsValue) (e0 : JsError),
            x = Throw e0 ->
            isOk x = false || false
            /\ (forall v, x = Ok v
                           <-> @None JsValue = Some v
                               \/ (@None JsValue = None /\ @None JsValue = Some v))
            /\ ((exists e, x = Throw e)
                <-> @None JsValue = None /\ @None JsValue = None)).
  { intros x e0 ->. split; [reflexivity|]. split.
    - intro v. split; [discriminate | intros [H | [_ H]]; discriminate].
    - split; [intros _; split; reflexivity | intros _; eexists; reflexivity]. }
  destruct (directJson r) as [v0|].
  - split; [reflexivity|]. split.
    + intro v. split.
      * intro H. injection H as ->. left. reflexivity.
      * intros [H | [H _]]; [injection H as ->; reflexivity | discriminate].
    + split; [intros [e H]; discriminate | intros [H _]; discriminate].
  - destruct (exec false jsonFenceRe r) as [m|];
      [|eapply Raise; reflexivity].
    destruct (group 1 m) as [inner|]; [|eapply Raise; reflexivity].
    destruct (JSON_parse inner) as [v1|]; [|eapply Raise; reflexivity].
    split; [reflexivity|]. split.
    + intro v. split.
      * intro H. injection H as ->. right. split; reflexivity.
      * intros [H | [_ H]]; [discriminate | injection H as ->; reflexivity].
    + split; [intros [e H]; discriminate | intros [_ H]; discriminate].
Qed.

(** C3, counterexample to the three-tier reading.  On a response that
    wraps a valid object in prose, the direct parse fails and there is no
    fenced block; the brace span parses to an object that validates, so
    the chain of the specification returns it, while the text extractor
    raises. *)
Lemma text_extractor_ignores_brace_span :
  directJson proseResponse = None
  /\ fencedJson jsonFenceRe proseResponse = None
  /\ (exists v, braceSpanJson proseResponse = Some v /\ validateForm v = Ok createEmptyForm)
  /\ isOk (threeTierChain proseResponse) = true
  /\ recoverJson "Invalid JSON from LLM" proseResponse
     = Throw (newError "Invalid JSON from LLM")
  /\ resultOf (parseWithLLM plainEnv proseWorld "notes" (90 # 1) false)
     = Throw (newError "Invalid JSON from LLM")
  /\ ~ (forall r e,
          recoverJson "Invalid JSON from LLM" r = Throw e ->
          directJson r = None /\ fencedJson jsonFenceRe r = None
          /\ braceSpanJson r = None).
Proof.
  split; [vm_compute; reflexivity|].
  split; [vm_compute; reflexivity|].
  split; [eexists; split; vm_compute; reflexivity|].
  split; [vm_compute; reflexivity|].
  split; [vm_compute; reflexivity|].
  split; [vm_compute; reflexivity|].
  intro H.
  destruct (H proseResponse (newError "Invalid JSON from LLM")) as (_ & _ & B).
  - vm_compute. reflexivity.
  - vm_compute in B. discriminate B.
Qed.

(** The text extractor on a response of the runtime: the recovered value
    is validated, and whatever [recoverJson] throws is thrown. *)
Lemma parseWithLLM_result (env : Env) (w : World) (txt r : string) (c : Q) (st : bool) :
  generateWithText w txt = Ok (Some r) ->
  resultOf (parseWithLLM env w txt c st)
  = match recoverJson "Invalid JSON from LLM" r with
    | Ok v =>
        match safeValidateForm v with
        | inl data =>
            Ok (mkParseResult data (generateConfidenceScores data c llm_structured)
                              llm_structured true None)
        | inr _ => Throw (newError "LLM output validation failed")
        end
    | Throw e => Throw e
    end.
Proof.
  intro H. unfold parseWithLLM, generateFormWithLLM, bind, emit, liftRes.
  rewrite H. cbn [responseText].
  destruct (recoverJson "Invalid JSON from LLM" r) as [v|e]; [|reflexivity].
  unfold finish. destruct (safeValidateForm v); reflexivity.
Qed.

(** The chain of the categorizer has the brace span as a third step, taken
    when there is no fenced block at all; a fenced block that does not
    parse raises at once. *)
Lemma categorizer_chain_cases (raw : string) :
  parseRawOutput raw
  = match directJson raw with
    | Some v => Ok v
    | None =>
        match exec false codeBlockRe raw with
        | Some m =>
            match group 1 m with
            | Some inner =>
                match JSON_parse (trim inner) with
                | Some v => Ok v
                | None => Throw (newError "Could not parse JSON from code block")
                end
            | None => Throw (newError "Could not parse JSON from code block")
            end
        | None =>
            match exec false braceSpanRe raw with
            | Some _ =>
                match braceSpanJson raw with
                | Some v => Ok v
                | None => Throw (newError "Could not parse JSON from matched brackets")
                end
            | None => Throw (newError "No JSON object found in LLM output")
            end
        end
    end.
Proof.
  unfold parseRawOutput, directJson, braceSpanJson.
  destruct (JSON_parse raw); [reflexivity|].
  destruct (exec false codeBlockRe raw); [reflexivity|].
  destruct (exec false braceSpanRe raw); reflexivity.
Qed.

Example categorizer_recovers_prose_response :
  parseRawOutput proseResponse
  = Ok (JObj [("header", JObj []); ("careCoordinationType", JObj []);
              ("narrative", JObj []); ("signature", JObj [])]).
Proof. vm_compute. reflexivity. Qed.

(** ** The date pattern of the categorizer, character by character *)

Lemma isSome_orElse {A} (x y : option A) : isSome (orElse x y) = isSome x || isSome y.
Proof. destruct x; reflexivity. Qed.

Lemma oneWay_Lit (ic : bool) (l : string) : oneWay ic (Lit l) (eatLit ic l).
Proof. intros p c k _. simpl. destruct (eatLit ic l p); reflexivity. Qed.

Lemma oneWay_Class (ic : bool) (items : list cset) :
  oneWay ic (Class items) (classStep ic items).
Proof. intros p c k _. simpl. unfold classStep. destruct (stepIf _ p); reflexivity. Qed.

Lemma oneWay_Bol (ic : bool) : oneWay ic Bol atStart.
Proof. intros p c k _. simpl. unfold atStart. destruct (before p); reflexivity. Qed.

Lemma oneWay_Eol (ic : bool) : oneWay ic Eol atEnd.
Proof. intros p c k _. simpl. unfold atEnd. destruct (rest p); reflexivity. Qed.

Lemma oneWay_blind {ic : bool} {r : regex} {f : pos -> option pos} {k : Cont} :
  oneWay ic r f -> capsBlind k -> capsBlind (fun p c => run ic r p c k).
Proof.
  intros Hr Hk p c c'. rewrite (Hr p c k Hk), (Hr p c' k Hk).
  destruct (f p); [apply Hk|reflexivity].
Qed.

Lemma oneWay_Seq (ic : bool) (a b : regex) (fa fb : pos -> option pos) :
  oneWay ic a fa -> oneWay ic b fb -> oneWay ic (Seq a b) (andThen fa fb).
Proof.
  intros Ha Hb p c k Hk. simpl.
  rewrite (Ha p c _ (oneWay_blind Hb Hk)). unfold andThen.
  destruct (fa p) as [p'|]; [apply Hb; assumption|reflexivity].
Qed.

Lemma oneWay_Alt (ic : bool) (a b : regex) (fa fb : pos -> option pos) :
  oneWay ic a fa -> oneWay ic b fb ->
  (forall p, isSome (fa p) = true -> fb p = None) ->
  oneWay ic (Alt a b) (orStep fa fb).
Proof.
  intros Ha Hb Hx p c k Hk. simpl. rewrite isSome_orElse.
  rewrite (Ha p c k Hk), (Hb p c k Hk). unfold orStep, orElse.
  specialize (Hx p). destruct (fa p) as [p'|].
  - rewrite (Hx eq_refl). apply orb_false_r.
  - reflexivity.
Qed.

Lemma oneWay_Group (ic : bool) (n : nat) (a : regex) (fa : pos -> option pos) :
  oneWay ic a fa -> oneWay ic (Group n a) fa.
Proof.
  intros Ha p c k Hk. simpl.
  rewrite (Ha p c (fun p' c' => k p' ((n, consumed p p') :: c'))).
  - destruct (fa p) as [p'|]; [apply Hk|reflexivity].
  - intros q d d'. apply Hk.
Qed.

Lemma repeatMatcher_exactly {ic : bool} {a : regex} {fa : pos -> option pos} (g : bool) :
  oneWay ic a fa ->
  forall n fuel p c k,
    n < fuel -> capsBlind k ->
    isSome (repeatMatcher (run ic a) g n (Some n) fuel p c k)
    = match iterStep fa n p with Some p' => isSome (k p' c) | None => false end.
Proof.
  intros Ha. induction n as [|n IH]; intros fuel p c k Hf Hk.
  - destruct fuel as [|fuel]; [lia|]. simpl.
    destruct g; unfold orElse; simpl; destruct (k p c); reflexivity.
  - destruct fuel as [|fuel]; [lia|]. simpl.
    rewrite (Ha p c).
    + unfold andThen. destruct (fa p) as [p'|]; [|reflexivity].
      apply IH; [lia|assumption].
    + intros q d d'. rewrite !IH by (lia || assumption).
      destruct (iterStep fa n q); [apply Hk|reflexivity].
Qed.

Lemma oneWay_exactly (ic : bool) (a : regex) (fa : pos -> option pos) (n : nat) (g : bool) :
  oneWay ic a fa -> oneWay ic (Quant a n (Some n) g) (iterStep fa n).
Proof.
  intros Ha p c k Hk. simpl. apply (repeatMatcher_exactly g Ha); [lia|assumption].
Qed.

Lemma dateRegex_oneWay : oneWay false dateRegex dateStep.
Proof.
  unfold dateRegex, dateStep. cbn [seqs alts times digit].
  repeat first
    [ apply oneWay_Seq | apply oneWay_Group | apply oneWay_Bol | apply oneWay_Eol
    | apply oneWay_Lit | apply oneWay_Class | apply oneWay_exactly
    | apply oneWay_Alt ].
  - intros [bef [|c0 r]]; [discriminate|].
    unfold andThen, eatLit, stepIf, ceq. cbn -[Ascii.eqb classStep].
    destruct (Ascii.eqb_spec "0" c0) as [<-|]; [|discriminate]. intros _. reflexivity.
  - intros [bef [|c0 r]]; [discriminate|].
    unfold andThen, eatLit, stepIf, ceq. cbn -[Ascii.eqb classStep inRange].
    destruct (Ascii.eqb_spec "3" c0) as [<-|]; [|intros _; reflexivity].
    cbn. discriminate.
Qed.

Lemma execFrom_off_start {ic : bool} {r : regex} {f : pos -> option pos} :
  oneWay ic r f ->
  (forall ch s, f (mkPos (Some ch) s) = None) ->
  forall s ch idx, execFrom ic r (Some ch) s idx = None.
Proof.
  intros Hr Hf.
  assert (N : forall ch s, run ic r (mkPos (Some ch) s) [] (fun p c => Some (p, c)) = None).
  { intros ch s.
    pose proof (Hr (mkPos (Some ch) s) [] (fun p c => Some (p, c))
                   (fun _ _ _ => eq_refl)) as H.
    rewrite Hf in H. destruct (run ic r _ _ _); [discriminate H|reflexivity]. }
  induction s as [|c0 s IH]; intros ch idx; simpl; rewrite N; [reflexivity|apply IH].
Qed.

Lemma test_at_start (ic : bool) (r : regex) (f : pos -> option pos) (s : string) :
  oneWay ic r f ->
  (forall ch s', f (mkPos (Some ch) s') = None) ->
  test ic r s = isSome (f (mkPos None s)).
Proof.
  intros Hr Hf. unfold test, exec.
  pose proof (Hr (mkPos None s) [] (fun p c => Some (p, c)) (fun _ _ _ => eq_refl)) as H.
  destruct s as [|c0 s]; simpl.
  - destruct (run ic r (mkPos None EmptyString) [] (fun p c => Some (p, c)))
      as [[p' c]|]; simpl in H.
    + destruct (f (mkPos None EmptyString)); [reflexivity|discriminate H].
    + destruct (f (mkPos None EmptyString)); [discriminate H|reflexivity].
  - destruct (run ic r (mkPos None (String c0 s)) [] (fun p c => Some (p, c)))
      as [[p' c]|]; simpl in H.
    + destruct (f (mkPos None (String c0 s))); [reflexivity|discriminate H].
    + rewrite (execFrom_off_start Hr Hf).
      destruct (f (mkPos None (String c0 s))); [discriminate H|reflexivity].
Qed.

Lemma dateRegex_test (s : string) :
  test false dateRegex s = isSome (dateStep (mkPos None s)).
Proof. apply test_at_start; [apply dateRegex_oneWay|reflexivity]. Qed.

Ltac splitAtom b :=
  match b with
  | Ascii.eqb _ ?x => is_var x; destruct b eqn:?
  | inRange _ _ ?x => is_var x; destruct b eqn:?
  | isDigit ?x => is_var x; destruct b eqn:?
  | orb ?l _ => splitAtom l
  | andb ?l _ => splitAtom l
  end.

Ltac crunch :=
  repeat (cbv beta iota zeta
              delta [dateStep andThen orStep classStep atStart atEnd iterStep eatLit
                     stepIf ceq orElse existsb csetMatch before rest isSome ch
                     andb orb dateCharsOk];
          rewrite ?orb_false_r;
          match goal with
          | |- context [if ?b then _ else _] => splitAtom b
          end).

Lemma dateStep_short (s : string) :
  String.length s < 10 -> isSome (dateStep (mkPos None s)) = false.
Proof.
  intro L.
  do 10 (destruct s as [|? s]; [crunch; reflexivity|]).
  simpl in L. lia.
Qed.

Lemma dateStep_chars (c1 c2 c3 c4 c5 c6 c7 c8 c9 c10 : ascii) (s : string) :
  isSome (dateStep (mkPos None
    (String c1 (String c2 (String c3 (String c4 (String c5 (String c6 (String c7
      (String c8 (String c9 (String c10 s))))))))))))
  = dateCharsOk c1 c2 c3 c4 c5 c6 c7 c8 c9 c10
    && match s with EmptyString => true | _ => false end.
Proof.
  unfold dateCharsOk.
  crunch.
  all: try reflexivity.
  all: try (destruct s; reflexivity).
Qed.

Lemma eqb_code (a b : ascii) : Ascii.eqb a b = (code a =? code b).
Proof.
  destruct (Ascii.eqb_spec a b) as [->|N].
  - symmetry. apply Nat.eqb_refl.
  - symmetry. apply Nat.eqb_neq. intro H. apply N.
    unfold code in H.
    rewrite <- (ascii_nat_embedding a), <- (ascii_nat_embedding b), H. reflexivity.
Qed.

Ltac boolProps :=
  repeat first
    [ rewrite andb_true_iff | rewrite orb_true_iff
    | rewrite Nat.leb_le | rewrite Nat.eqb_eq ].

Lemma dateCharsOk_pattern (m1 m2 s1 d1 d2 s2 y1 y2 y3 y4 : ascii) :
  dateCharsOk m1 m2 s1 d1 d2 s2 y1 y2 y3 y4
  = datePattern 0
      (String m1 (String m2 (String s1 (String d1 (String d2 (String s2
        (String y1 (String y2 (String y3 (String y4 EmptyString)))))))))).
Proof.
  unfold dateCharsOk, datePattern, twoDigits, forallb, isDigit, inRange, between.
  rewrite !eqb_code.
  change (code "0") with 48. change (code "1") with 49. change (code "2") with 50.
  change (code "3") with 51. change (code "9") with 57. change (code "/") with 47.
  apply Bool.eq_iff_eq_true. boolProps. lia.
Qed.

Lemma dateRegex_accepts (s : string) : test false dateRegex s = datePattern 0 s.
Proof.
  rewrite dateRegex_test.
  destruct (Nat.lt_ge_cases (String.length s) 10) as [L|L].
  - rewrite (dateStep_short s L).
    do 10 (destruct s as [|? s]; [reflexivity|]). simpl in L. lia.
  - do 10 (destruct s as [|? s]; [simpl in L; lia|]).
    rewrite dateStep_chars, dateCharsOk_pattern.
    destruct s; [apply andb_true_r|]. rewrite andb_false_r. reflexivity.
Qed.


(** ** The date check of the validation phase *)

Lemma checkLiteralString_clean (v name : string) :
  containsPlaceholder v = false -> checkLiteralString (Some v) name = (Some v, []).
Proof. intro H. unfold checkLiteralString. rewrite H. reflexivity. Qed.

Lemma checkLiteralString_other (p name : string) (v : option string) :
  String.eqb name p = false ->
  filter (fun i => String.eqb (vField i) p) (snd (checkLiteralString v name)) = [].
Proof.
  intro H. destruct v as [s|]; [|reflexivity].
  unfold checkLiteralString. destruct (containsPlaceholder s); [|reflexivity].
  simpl. rewrite H. reflexivity.
Qed.

Lemma cleanHeader_eq (h : PartialHeader) :
  cleanHeader h
  = (mkPartialHeader
       (fst (checkLiteralString (pRecipientName h) "header.recipientName"))
       (fst (checkLiteralString (pDate h) "header.date"))
       (fst (checkLiteralString (pTime h) "header.time"))
       (fst (checkLiteralString (pRecipientIdentifier h) "header.recipientIdentifier"))
       (fst (checkLiteralString (pDob h) "header.dob"))
       (fst (checkLiteralString (pLocation h) "header.location")),
     (snd (checkLiteralString (pRecipientName h) "header.recipientName")
      ++ snd (checkLiteralString (pDate h) "header.date")
      ++ snd (checkLiteralString (pTime h) "header.time")
      ++ snd (checkLiteralString (pRecipientIdentifier h) "header.recipientIdentifier")
      ++ snd (checkLiteralString (pDob h) "header.dob")
      ++ snd (checkLiteralString (pLocation h) "header.location"))%list).
Proof.
  unfold cleanHeader.
  destruct (checkLiteralString (pRecipientName h) _),
           (checkLiteralString (pDate h) _),
           (checkLiteralString (pTime h) _),
           (checkLiteralString (pRecipientIdentifier h) _),
           (checkLiteralString (pDob h) _),
           (checkLiteralString (pLocation h) _).
  reflexivity.
Qed.

Lemma dateFormatIssue_other (p name what : string) (v : option string) :
  String.eqb name p = false ->
  filter (fun i => String.eqb (vField i) p) (dateFormatIssue name what v) = [].
Proof.
  intro H. destruct v as [s|]; [|reflexivity]. unfold dateFormatIssue.
  destruct (truthy s && negb (test false dateRegex s) && negb (String.eqb s EmptyString));
    [|reflexivity].
  simpl. rewrite H. reflexivity.
Qed.

Lemma if_issue_other (p name what : string) (sug : option string) (b : bool) :
  String.eqb name p = false ->
  filter (fun i => String.eqb (vField i) p) (if b then [mkIssue name what sug] else []) = [].
Proof. intro H. destruct b; [|reflexivity]. simpl. rewrite H. reflexivity. Qed.

Lemma truthy_not_empty (s : string) : negb (String.eqb s EmptyString) = truthy s.
Proof. destruct s; reflexivity. Qed.

(** The date check in general: a date that holds no placeholder is left
    as it is, and it is flagged exactly when it is non-empty and not of
    the form month 01-12, day 00-31, four-digit year. *)
Lemma date_check_characterised (data : PartialForm) (txt v : string) :
  stringFieldAt data "header.date" = Some v ->
  containsPlaceholder v = false ->
  issuesFor "header.date" (validateCategorizedData data txt)
  = (if truthy v && negb (datePattern 0 v)
     then [mkIssue "header.date" ("Invalid date format: " ++ v) (Some "Should be MM/DD/YYYY")]
     else [])
  /\ stringFieldAt (corrected (validateCategorizedData data txt)) "header.date" = Some v.
Proof.
  intros Hv Hc. destruct data as [[h|] care nar sig]; [|discriminate Hv].
  change (pDate h = Some v) in Hv.
  unfold validateCategorizedData, issuesFor. cbn [pHeader pCare pNarrative pSignature].
  rewrite cleanHeader_eq. rewrite Hv, (checkLiteralString_clean v "header.date" Hc).
  cbn [issues corrected optField pDate pDob pRecipientName fst snd].
  split; [|reflexivity].
  rewrite !filter_app.
  rewrite !checkLiteralString_other by reflexivity.
  rewrite (dateFormatIssue_other "header.date" "header.dob") by reflexivity.
  rewrite !if_issue_other by reflexivity.
  cbn [filter app]. rewrite !app_nil_r.
  unfold dateFormatIssue. rewrite dateRegex_accepts, truthy_not_empty, <- andb_assoc.
  rewrite (andb_comm (negb _) (truthy v)), andb_assoc, andb_diag.
  destruct (truthy v && negb (datePattern 0 v)); reflexivity.
Qed.

(** The same for the date of birth. *)
Lemma dob_check_characterised (data : PartialForm) (txt v : string) :
  stringFieldAt data "header.dob" = Some v ->
  containsPlaceholder v = false ->
  issuesFor "header.dob" (validateCategorizedData data txt)
  = (if truthy v && negb (datePattern 0 v)
     then [mkIssue "header.dob" ("Invalid DOB format: " ++ v) (Some "Should be MM/DD/YYYY")]
     else [])
  /\ stringFieldAt (corrected (validateCategorizedData data txt)) "header.dob" = Some v.
Proof.
  intros Hv Hc. destruct data as [[h|] care nar sig]; [|discriminate Hv].
  change (pDob h = Some v) in Hv.
  unfold validateCategorizedData, issuesFor. cbn [pHeader pCare pNarrative pSignature].
  rewrite cleanHeader_eq. rewrite Hv, (checkLiteralString_clean v "header.dob" Hc).
  cbn [issues corrected optField pDate pDob pRecipientName fst snd].
  split; [|reflexivity].
  rewrite !filter_app.
  rewrite !checkLiteralString_other by reflexivity.
  rewrite (dateFormatIssue_other "header.dob" "header.date") by reflexivity.
  rewrite !if_issue_other by reflexivity.
  cbn [filter app]. rewrite !app_nil_r.
  unfold dateFormatIssue. rewrite dateRegex_accepts, truthy_not_empty, <- andb_assoc.
  rewrite (andb_comm (negb _) (truthy v)), andb_assoc, andb_diag.
  destruct (truthy v && negb (datePattern 0 v)); reflexivity.
Qed.

(** Where the pattern of the code and the strict pattern part: exactly on
    the dates whose day is 00. *)
Lemma patterns_differ_on_day_zero (s : string) :
  datePattern 0 s = strictDate s
                    || (datePattern 0 s
                        && match s with
                           | String _ (String _ (String _ (String d1 (String d2 _)))) =>
                               twoDigits d1 d2 =? 0
                           | _ => false
                           end).
Proof.
  unfold strictDate, datePattern.
  do 10 (destruct s as [|? s]; [reflexivity|]).
  destruct s; [|reflexivity].
  destruct (twoDigits a2 a3) as [|n]; simpl.
  - rewrite !andb_true_r, !andb_false_r. simpl.
    destruct (_ && _); reflexivity.
  - rewrite !andb_false_r, orb_false_r. reflexivity.
Qed.

(** ** The categorizer's validation phase *)

(** The scenario of the specification: a date that is no date is flagged
    with the suggestion and left as it is. *)
Example invalid_date_is_flagged_not_corrected :
  issuesFor "header.date" (validateCategorizedData (dataWithDate "13/45/2024") EmptyString)
  = [mkIssue "header.date" "Invalid date format: 13/45/2024" (Some "Should be MM/DD/YYYY")]
  /\ stringFieldAt (corrected (validateCategorizedData (dataWithDate "13/45/2024")
                                 EmptyString)) "header.date"
     = Some "13/45/2024".
Proof. split; vm_compute; reflexivity. Qed.

(** C6, at the failing input.  The date 01/00/2024 has day 00 and so
    fails the strict pattern month 01-12, day 01-31; the pattern of the
    code accepts it, and the validation phase records no issue for it,
    neither as date nor as date of birth. *)
Theorem day_zero_date_is_not_flagged :
  strictDate "01/00/2024" = false
  /\ test false dateRegex "01/00/2024" = true
  /\ issuesFor "header.date"
       (validateCategorizedData (dataWithDate "01/00/2024") EmptyString) = []
  /\ stringFieldAt (corrected (validateCategorizedData (dataWithDate "01/00/2024")
                                 EmptyString)) "header.date"
     = Some "01/00/2024"
  /\ dateFormatIssue "header.dob" "Invalid DOB format: " (Some "01/00/2024") = [].
Proof. repeat split; vm_compute; reflexivity. Qed.

Lemma checkLiteralString_placeholder (v name : string) :
  containsPlaceholder v = true ->
  checkLiteralString (Some v) name = (Some EmptyString, [placeholderIssue name v]).
Proof. intro H. unfold checkLiteralString. rewrite H. reflexivity. Qed.


Lemma checkLiteralString_field (v : option string) (name : string) (i : ValidationIssue) :
  In i (snd (checkLiteralString v name)) -> vField i = name.
Proof.
  unfold checkLiteralString. destruct v as [s|]; [|intros []].
  destruct (containsPlaceholder s); [|intros []].
  intros [<- | []]. reflexivity.
Qed.

Lemma cleanHeader_fields (h : PartialHeader) (i : ValidationIssue) :
  In i (snd (cleanHeader h)) -> In (vField i) (map fst headerFields).
Proof.
  unfold cleanHeader.
  repeat match goal with
         | |- context [checkLiteralString ?x ?nm] =>
             let E := fresh "E" in
             pose proof (checkLiteralString_field x nm i) as E;
             destruct (checkLiteralString x nm)
         end.
  cbn [snd] in *. rewrite !in_app_iff. simpl.
  intuition (match goal with H : vField i = _ |- _ => rewrite H end; tauto).
Qed.

Lemma dateFormatIssue_field (nm what : string) (v : option string) (i : ValidationIssue) :
  In i (dateFormatIssue nm what v) -> vField i = nm.
Proof.
  destruct v as [s|]; [|intros []]. unfold dateFormatIssue.
  destruct (_ && _); [|intros []]. intros [<- | []]. reflexivity.
Qed.

(** The fields that the issues of the validation phase name: a header
    field, the checkbox section or the narrative section as a whole. *)
Lemma issue_fields (data : PartialForm) (txt : string) (i : ValidationIssue) :
  In i (issues (validateCategorizedData data txt)) ->
  In (vField i) (map fst headerFields) \/ vField i = "careCoordinationType"
  \/ vField i = "narrative".
Proof.
  destruct data as [hdr care nar sig].
  unfold validateCategorizedData. cbn [pHeader pNarrative pCare pSignature].
  pose proof (fun h => cleanHeader_fields h i) as CH.
  destruct hdr as [h|].
  - specialize (CH h). destruct (cleanHeader h) as [h' ph]. cbn [snd] in CH.
    cbn [issues]. rewrite !in_app_iff.
    intros [H | [H | [H | [H | [H | H]]]]].
    + left. apply CH, H.
    + left. apply dateFormatIssue_field in H. rewrite H. simpl. tauto.
    + left. apply dateFormatIssue_field in H. rewrite H. simpl. tauto.
    + destruct (_ && _); [|destruct H]. destruct H as [<- | []]. right. left. reflexivity.
    + destruct (_ || _); [|destruct H]. destruct H as [<- | []]. left. simpl. tauto.
    + destruct (negb _); [|destruct H]. destruct H as [<- | []]. right. right. reflexivity.
  - cbn [issues]. rewrite !in_app_iff.
    intros [H | [H | [H | [H | [H | H]]]]].
    + destruct H.
    + destruct H.
    + destruct H.
    + destruct (_ && _); [|destruct H]. destruct H as [<- | []]. right. left. reflexivity.
    + destruct (_ || _); [|destruct H]. destruct H as [<- | []]. left. simpl. tauto.
    + destruct (negb _); [|destruct H]. destruct H as [<- | []]. right. right. reflexivity.
Qed.

Lemma no_issue_for_narrative_field (data : PartialForm) (txt p : string) :
  In p (map fst narrativeFields) ->
  issuesFor p (validateCategorizedData data txt) = [].
Proof.
  intro Hp. unfold issuesFor.
  assert (F : forall i, In i (issues (validateCategorizedData data txt)) ->
                        String.eqb (vField i) p = false).
  { intros i Hi. apply issue_fields in Hi. apply String.eqb_neq. intro E.
    rewrite E in Hi. simpl in Hp, Hi.
    repeat (destruct Hp as [<- | Hp]; [intuition discriminate|]). contradiction. }
  induction (issues (validateCategorizedData data txt)) as [|i l IH]; [reflexivity|].
  cbn [filter]. rewrite (F i (or_introl eq_refl)). apply IH.
  intros j Hj. apply F. right. exact Hj.
Qed.

(** C7, as the code has it.  A header field whose value contains the
    word string, in any case, is cleared and an issue naming the field is
    recorded; a narrative field whose value contains it is cleared, and
    no issue is recorded for that field. *)
Theorem placeholder_cleared_in_header_and_narrative :
  forall (data : PartialForm) (txt p v : string),
    stringFieldAt data p = Some v ->
    containsPlaceholder v = true ->
    (In p (map fst headerFields) ->
     stringFieldAt (corrected (validateCategorizedData data txt)) p = Some EmptyString
     /\ In (placeholderIssue p v) (issues (validateCategorizedData data txt)))
    /\ (In p (map fst narrativeFields) ->
        stringFieldAt (corrected (validateCategorizedData data txt)) p = Some EmptyString
        /\ issuesFor p (validateCategorizedData data txt) = []).
Proof.
  intros data txt p v Hv Hc.
  split; intro Hin; [|split; [|apply no_issue_for_narrative_field, Hin]];
    destruct data as [hdr care nar sig]; simpl in Hin.
  - repeat (destruct Hin as [Hin | Hin];
            [ subst p; vm_compute in Hv;
              destruct hdr as [[n d t i b l]|]; [|discriminate Hv];
              subst;
              unfold validateCategorizedData, cleanHeader, pHeader,
                pRecipientName, pDate, pTime, pRecipientIdentifier, pDob, pLocation;
              rewrite (checkLiteralString_placeholder _ _ Hc);
              repeat match goal with
                     | |- context [checkLiteralString ?x ?nm] =>
                         destruct (checkLiteralString x nm)
                     end;
              split; [reflexivity|];
              cbn [issues]; repeat rewrite in_app_iff; simpl; intuition
            | ]).
    contradiction.
  - repeat (destruct Hin as [Hin | Hin];
            [ subst p; vm_compute in Hv;
              destruct nar as [[o h r g a u]|]; [|discriminate Hv];
              subst;
              destruct (match hdr with
                        | Some h0 => let '(h', i) := cleanHeader h0 in (Some h', i)
                        | None => (None, [])
                        end) as [hdr' iss] eqn:E;
              unfold validateCategorizedData; cbn [pHeader pNarrative pCare pSignature];
              rewrite E; unfold stringFieldAt; simpl;
              rewrite Hc; reflexivity
            | ]).
    contradiction.
Qed.

Lemma placeholder_cleared_in_header_and_narrative_witness :
  (stringFieldAt
     (corrected
        (validateCategorizedData
           (mkPartialForm
              (Some (mkPartialHeader None None None None None (Some "a String")))
              None
              (Some (mkPartialNarrative None None None None (Some "STRING (none)") None))
              None) EmptyString)) "header.location" = Some EmptyString
   /\ In (placeholderIssue "header.location" "a String")
         (issues
            (validateCategorizedData
               (mkPartialForm
                  (Some (mkPartialHeader None None None None None (Some "a String")))
                  None
                  (Some (mkPartialNarrative None None None None (Some "STRING (none)")
                                            None))
                  None) EmptyString)))
  /\ (stringFieldAt
        (corrected
           (validateCategorizedData
              (mkPartialForm
                 (Some (mkPartialHeader None None None None None (Some "a String")))
                 None
                 (Some (mkPartialNarrative None None None None (Some "STRING (none)")
                                           None))
                 None) EmptyString)) "narrative.additionalNotes" = Some EmptyString
      /\ issuesFor "narrative.additionalNotes"
           (validateCategorizedData
              (mkPartialForm
                 (Some (mkPartialHeader None None None None None (Some "a String")))
                 None
                 (Some (mkPartialNarrative None None None None (Some "STRING (none)")
                                           None))
                 None) EmptyString) = []).
Proof.
  split.
  - apply (placeholder_cleared_in_header_and_narrative
             (mkPartialForm
                (Some (mkPartialHeader None None None None None (Some "a String")))
                None
                (Some (mkPartialNarrative None None None None (Some "STRING (none)") None))
                None)
             EmptyString "header.location" "a String").
    + reflexivity.
    + reflexivity.
    + simpl. tauto.
  - apply (placeholder_cleared_in_header_and_narrative
             (mkPartialForm
                (Some (mkPartialHeader None None None None None (Some "a String")))
                None
                (Some (mkPartialNarrative None None None None (Some "STRING (none)") None))
                None)
             EmptyString "narrative.additionalNotes" "STRING (none)").
    + reflexivity.
    + reflexivity.
    + simpl. tauto.
Defined.

(** C7, counterexample to the reading over every string field.  With the
    placeholder in the additional notes and in the signature, the notes
    are cleared and the signature is kept, and no issue at all is
    recorded. *)
Lemma placeholder_outside_header_not_reported :
  stringFieldAt placeholderData "narrative.additionalNotes" = Some "string"
  /\ stringFieldAt placeholderData "signature.signature" = Some "string"
  /\ containsPlaceholder "string" = true
  /\ stringFieldAt (corrected (validateCategorizedData placeholderData EmptyString))
       "narrative.additionalNotes" = Some EmptyString
  /\ stringFieldAt (corrected (validateCategorizedData placeholderData EmptyString))
       "signature.signature" = Some "string"
  /\ issues (validateCategorizedData placeholderData EmptyString) = []
  /\ ~ (forall data txt p v,
          In p (map fst stringFields) ->
          stringFieldAt data p = Some v ->
          containsPlaceholder v = true ->
          stringFieldAt (corrected (validateCategorizedData data txt)) p = Some EmptyString
          /\ issuesFor p (validateCategorizedData data txt) <> []).
Proof.
  do 6 (split; [vm_compute; reflexivity|]).
  intro H.
  destruct (H placeholderData EmptyString "narrative.additionalNotes" "string")
    as [_ N].
  - simpl. do 10 right. left. reflexivity.
  - reflexivity.
  - reflexivity.
  - apply N. vm_compute. reflexivity.
Qed.

(** ** Computations: results, flags and logs *)


Lemma bind_ok {A B} {m : M A} (f : A -> M B) {st st1 : bool} {a : A} {t : list Event} :
  m st = (Ok a, st1, t) ->
  bind m f st = (resultOf (f a st1), flagOf (f a st1), (t ++ traceOf (f a st1))%list).
Proof.
  intro E. unfold bind. rewrite E.
  destruct (f a st1) as [[r b] t']. reflexivity.
Qed.

Lemma bind_throw {A B} {m : M A} (f : A -> M B) {st st1 : bool} {e : JsError}
      {t : list Event} :
  m st = (Throw e, st1, t) -> bind m f st = (Throw e, st1, t).
Proof. intro E. unfold bind. rewrite E. reflexivity. Qed.

Lemma attempt_ok {strategy : M ParseResult} (h : JsError -> M unit) {st st1 : bool}
      {x : ParseResult} {t : list Event} :
  strategy st = (Ok x, st1, t) -> attempt strategy h st = (Ok (Some x), st1, t).
Proof.
  intro E. unfold attempt, tryCatch.
  rewrite (bind_ok _ E). unfold ret. simpl. rewrite app_nil_r. reflexivity.
Qed.


Lemma attempt_mark {strategy : M ParseResult} {st st1 : bool} {e : JsError}
      {t : list Event} :
  strategy st = (Throw e, st1, t) ->
  attempt strategy markIfTimeout st = (Ok None, isTimeoutError e || st1, t).
Proof.
  intro E. unfold attempt, tryCatch.
  rewrite (bind_throw _ E).
  unfold markIfTimeout, markLLMFailed, writeLlmFailed, bind, ret.
  destruct (isTimeoutError e); simpl; rewrite app_nil_r; reflexivity.
Qed.

Lemma checkOllamaHealth_run (env : Env) (w : World) (flag : bool) :
  checkOllamaHealth env w flag
  = (Ok (reachable env w flag), flag, if flag || llmDisabled env then [] else [NetTags]).
Proof.
  unfold checkOllamaHealth, reachable, bind, readLlmFailed, ret, emit.
  destruct flag; [reflexivity|].
  destruct (llmDisabled env); [reflexivity|].
  destruct (fetchTags w); reflexivity.
Qed.

Lemma parseWithLLMCategorizer_run (w : World) (txt : string) (c : Q) (st : bool) :
  exists r,
    parseWithLLMCategorizer w txt c st = (r, st, [CallCategorizer; NetCategorize])
    /\ (forall e, categorizeAndValidateWithLLM w txt c = Throw e -> r = Throw e).
Proof.
  unfold parseWithLLMCategorizer, bind, emit, liftRes.
  destruct (categorizeAndValidateWithLLM w txt c) as [cat|e0].
  - unfold finish. destruct (safeValidateForm (catForm cat)); unfold ret, throw;
      eexists; (split; [reflexivity|intros e H; discriminate H]).
  - eexists. split; [reflexivity|]. intros e H. injection H as ->. reflexivity.
Qed.

Lemma finish_run (failure : string) (parsed : JsValue) (c : Q) (m : ExtractionMethod)
      (notes : option (list string)) (st : bool) :
  exists r, finish failure parsed c m notes st = (r, st, []).
Proof.
  unfold finish. destruct (safeValidateForm parsed); unfold ret, throw; eexists; reflexivity.
Qed.

Lemma parseWithLLM_run (env : Env) (w : World) (txt : string) (c : Q) (st : bool) :
  exists r, parseWithLLM env w txt c st = (r, st, [CallText; NetGenerateText]).
Proof.
  unfold parseWithLLM, generateFormWithLLM, bind, emit, liftRes.
  destruct (generateWithText w txt) as [resp|e]; [|eexists; reflexivity].
  destruct (responseText resp) as [llmResponse|e]; [|eexists; reflexivity].
  destruct (recoverJson "Invalid JSON from LLM" llmResponse) as [parsed|e];
    [|eexists; reflexivity].
  destruct (finish_run "LLM output validation failed" parsed c llm_structured None st)
    as [r ->].
  eexists; reflexivity.
Qed.

Lemma parseWithRules_returns (s : string) (c : Q) (avail : bool) :
  exists r, parseWithRules s c avail = Ok r
            /\ extractionMethod r = ocr_only /\ ollamaAvailable r = avail.
Proof.
  unfold parseWithRules.
  destruct (ruleLines_returns (filter truthy (map trim (splitLines s))) createEmptyForm)
    as (f1 & E & _).
  rewrite E. cbn [bindRes]. eexists. split; [reflexivity|]. split; reflexivity.
Qed.

(** With the flag set, a request is served by the rules alone and the
    flag stays set. *)
Lemma parseFormFromText_when_failed (env : Env) (w : World) (txt : string) (c : Q)
      (img : option string) :
  exists r,
    parseFormFromText env w txt c img true = (Ok r, true, [CallRules])
    /\ extractionMethod r = ocr_only /\ ollamaAvailable r = false.
Proof.
  destruct (parseWithRules_returns txt c false) as (r & E & Hm & Ha).
  exists r. split; [|split; assumption].
  unfold parseFormFromText.
  rewrite (bind_ok _ (checkOllamaHealth_run env w true)).
  change (reachable env w true) with false.
  assert (R1 : (match img with
                | Some p =>
                    if false && (truthyPath img && isMultimodalModel env) && truthy p
                       && Qltb c (50 # 1)
                    then attempt (parseWithVisionLLM env w p txt c) (fun _ => ret tt)
                    else ret None
                | None => ret None
                end) true = (Ok None, true, [])).
  { destruct img; reflexivity. }
  rewrite (bind_ok _ R1).
  cbn [andb].
  unfold bind, ret, emit, liftRes. rewrite E. reflexivity.
Qed.

Lemma serve_after_failure (env : Env) (reqs : list (World * Request)) :
  exists outs, serve env reqs true = (outs, true) /\ Forall rulesOnly outs.
Proof.
  induction reqs as [|[w r] reqs IH]; simpl.
  - exists []. split; [reflexivity|constructor].
  - destruct (parseFormFromText_when_failed env w (reqText r) (reqConfidence r)
                (reqImagePath r)) as (res & E & Hm & _).
    rewrite E. destruct IH as (outs & Es & Ho). rewrite Es.
    eexists. split; [reflexivity|].
    constructor; [|assumption].
    split; [reflexivity|]. exists res. split; [reflexivity|assumption].
Qed.

(** ** The orchestrator *)

Lemma first_run (env : Env) (w : World) (txt : string) :
  llmDisabled env = false ->
  fetchTags w = Ok true ->
  exists res fl rest,
    parseFormFromText env w txt (60 # 1) None false
    = (res, fl, ([NetTags; CallCategorizer; NetCategorize] ++ rest)%list)
    /\ ~ In CallCategorizer rest /\ ~ In CallVision rest
    /\ (forall e, categorizeAndValidateWithLLM w txt (60 # 1) = Throw e ->
                  isTimeoutError e = true -> fl = true).
Proof.
  intros Hd Hf.
  assert (R : reachable env w false = true).
  { unfold reachable. rewrite Hd, Hf. reflexivity. }
  destruct (parseWithLLMCategorizer_run w txt (60 # 1) false) as (rc & Ec & Hc).
  unfold parseFormFromText.
  rewrite (bind_ok _ (checkOllamaHealth_run env w false)). rewrite R, Hd.
  cbn [orb].
  rewrite (bind_ok _ (eq_refl : ret None false = (Ok (@None ParseResult), false, []))).
  change (Qltb (60 # 1) (80 # 1)) with true. cbn [andb].
  destruct rc as [x|e].
  - rewrite (bind_ok _ (attempt_ok _ Ec)).
    unfold ret. cbn [resultOf flagOf traceOf fst snd].
    eexists; eexists; exists []. split; [reflexivity|].
    split; [intros []|]. split; [intros []|].
    intros e He. specialize (Hc e He). discriminate Hc.
  - rewrite (bind_ok _ (attempt_mark Ec)).
    assert (Fl : forall e0, categorizeAndValidateWithLLM w txt (60 # 1) = Throw e0 ->
                 isTimeoutError e0 = true -> isTimeoutError e || false = true).
    { intros e0 He0 Ht. specialize (Hc e0 He0). injection Hc as ->. rewrite Ht. reflexivity. }
    set (f1 := isTimeoutError e || false) in *.
    destruct (parseWithLLM_run env w txt (60 # 1) f1) as (rt & Et).
    destruct rt as [y|e'].
    + rewrite (bind_ok _ (attempt_ok _ Et)).
      unfold ret. cbn [resultOf flagOf traceOf fst snd].
      eexists; eexists; eexists. split; [reflexivity|].
      split; [simpl; intuition discriminate|]. split; [simpl; intuition discriminate|].
      exact Fl.
    + rewrite (bind_ok _ (attempt_mark Et)).
      destruct (parseWithRules_returns txt (60 # 1) true) as (r & Er & _).
      unfold bind, emit, liftRes. rewrite Er.
      cbn [resultOf flagOf traceOf fst snd].
      eexists; eexists; eexists. split; [reflexivity|].
      split; [simpl; intuition discriminate|]. split; [simpl; intuition discriminate|].
      intros e0 He0 Ht. rewrite (Fl e0 He0 Ht). apply orb_true_r.
Qed.

(** C8.  With the runtime reachable, no image and an OCR confidence of
    60, the first call the orchestrator makes after the probe is the
    categorizer, before any text extraction.  If the categorizer throws a
    timeout error the session flag is set when the request ends; from
    then on the probe answers false without a network call, and every
    later request of the process is served by the rules alone, with no
    call to the runtime, the flag staying set. *)
Theorem categorizer_first_then_latch :
  forall (env : Env) (w : World) (txt : string) (later : list (World * Request)),
    llmDisabled env = false ->
    fetchTags w = Ok true ->
    (exists rest,
        traceOf (parseFormFromText env w txt (60 # 1) None false)
        = ([NetTags; CallCategorizer; NetCategorize] ++ rest)%list
        /\ ~ In CallCategorizer rest /\ ~ In CallVision rest)
    /\ (forall e,
          categorizeAndValidateWithLLM w txt (60 # 1) = Throw e ->
          isTimeoutError e = true ->
          flagOf (parseFormFromText env w txt (60 # 1) None false) = true
          /\ (forall w', checkOllamaHealth env w' true = (Ok false, true, []))
          /\ exists outs,
               serve env later (flagOf (parseFormFromText env w txt (60 # 1) None false))
               = (outs, true)
               /\ Forall rulesOnly outs).
Proof.
  intros env w txt later Hd Hf.
  destruct (first_run env w txt Hd Hf) as (res & fl & rest & E & Hc & Hv & Hfl).
  rewrite E. cbn [traceOf flagOf fst snd].
  split.
  - exists rest. split; [reflexivity|]. split; assumption.
  - intros e He Ht. rewrite (Hfl e He Ht).
    split; [reflexivity|].
    split; [intro w'; rewrite checkOllamaHealth_run; reflexivity|].
    apply serve_after_failure.
Qed.

Lemma categorizer_first_then_latch_witness :
  llmDisabled plainEnv = false
  /\ fetchTags slowWorld = Ok true
  /\ categorizeAndValidateWithLLM slowWorld "Name: Bob Smith" (60 # 1) = Throw timeoutError
  /\ flagOf (parseFormFromText plainEnv slowWorld "Name: Bob Smith" (60 # 1) None false)
     = true.
Proof.
  split; [reflexivity|]. split; [reflexivity|]. split; [reflexivity|].
  destruct (categorizer_first_then_latch plainEnv slowWorld "Name: Bob Smith"
              [(slowWorld, mkRequest "Date: 03/15/2024" (40 # 1) None)]
              eq_refl eq_refl) as [_ H].
  destruct (H timeoutError eq_refl eq_refl) as [F _].
  exact F.
Defined.

Lemma in_trace_bind {A B} (ev : Event) (m : M A) (f : A -> M B) (st : bool) :
  In ev (traceOf (bind m f st)) ->
  In ev (traceOf (m st))
  \/ exists a, resultOf (m st) = Ok a /\ In ev (traceOf (f a (flagOf (m st)))).
Proof.
  unfold bind. destruct (m st) as [[r st1] t]. destruct r as [a|e].
  - destruct (f a st1) as [[r' st2] t'] eqn:E. cbn [traceOf flagOf resultOf fst snd].
    rewrite in_app_iff. intros [H|H]; [left; assumption|right].
    exists a. split; [reflexivity|]. rewrite E. exact H.
  - cbn [traceOf snd]. intro H. left. exact H.
Qed.

Lemma never_ret {A} (ev : Event) (a : A) : never ev (ret a).
Proof. intros st H. exact H. Qed.

Lemma never_throw {A} (ev : Event) (e : JsError) : never ev (@throw A e).
Proof. intros st H. exact H. Qed.

Lemma never_liftRes {A} (ev : Event) (r : Res JsError A) : never ev (liftRes r).
Proof. intros st H. exact H. Qed.

Lemma never_read (ev : Event) : never ev readLlmFailed.
Proof. intros st H. exact H. Qed.

Lemma never_write (ev : Event) (b : bool) : never ev (writeLlmFailed b).
Proof. intros st H. exact H. Qed.

Lemma never_emit (ev ev' : Event) : ev <> ev' -> never ev (emit ev').
Proof. intros Hne st [H|[]]. apply Hne. symmetry. exact H. Qed.

Lemma never_bind {A B} (ev : Event) (m : M A) (f : A -> M B) :
  never ev m -> (forall a, never ev (f a)) -> never ev (bind m f).
Proof.
  intros Hm Hf st H. apply in_trace_bind in H. destruct H as [H | (a & _ & H)].
  - exact (Hm st H).
  - exact (Hf a _ H).
Qed.

Lemma never_tryCatch {A} (ev : Event) (m : M A) (h : JsError -> M A) :
  never ev m -> (forall e, never ev (h e)) -> never ev (tryCatch m h).
Proof.
  intros Hm Hh st. unfold tryCatch.
  specialize (Hm st). destruct (m st) as [[r st1] t]. destruct r as [a|e].
  - exact Hm.
  - specialize (Hh e st1). destruct (h e st1) as [[r' st2] t'].
    cbn [traceOf snd] in *. rewrite in_app_iff. tauto.
Qed.

Ltac neverStep :=
  first
    [ apply never_ret | apply never_throw | apply never_liftRes
    | apply never_read | apply never_write
    | apply never_emit; discriminate
    | apply never_bind; [|intro]
    | apply never_tryCatch; [|intro]
    | match goal with
      | |- never _ (match ?x with _ => _ end) => destruct x
      end
    | progress unfold attempt, markIfTimeout, markLLMFailed, finish, parseWithLLM,
        parseWithLLMCategorizer, generateFormWithLLM, checkOllamaHealth
    | progress cbn beta iota ].

Ltac neverTac := repeat neverStep.

(** The vision request of generateFormWithLLM needs an image path and a
    multimodal model. *)
Lemma vision_request_needs_image (env : Env) (w : World) (txt : string)
      (img : option string) (st : bool) :
  In NetGenerateVision (traceOf (generateFormWithLLM env w txt img st))
  <-> exists p, img = Some p /\ truthy p = true /\ isMultimodalModel env = true.
Proof.
  unfold generateFormWithLLM. split.
  - destruct img as [p|].
    + destruct (truthy p && isMultimodalModel env) eqn:C.
      * intros _. apply andb_true_iff in C. exists p. tauto.
      * intro H. exfalso. revert H. generalize st. fold (never NetGenerateVision
          (emit NetGenerateText ;;; liftRes (generateWithText w txt))). neverTac.
    + intro H. exfalso. revert H. generalize st. fold (never NetGenerateVision
          (emit NetGenerateText ;;; liftRes (generateWithText w txt))). neverTac.
  - intros (p & -> & Ht & Hm). rewrite Ht, Hm. cbn [andb].
    unfold bind, emit, liftRes. destruct (generateWithVision w p txt); left; reflexivity.
Qed.

Lemma Qltb_lt (a b : Q) : Qltb a b = true -> (a < b)%Q.
Proof.
  unfold Qltb. intro H. apply negb_true_iff in H.
  apply Qnot_le_lt. intro L. apply Qle_bool_iff in L. congruence.
Qed.

Lemma vision_guard (ev : Event) (env : Env) (w : World) (txt : string) (c : Q)
      (img : option string) (flag : bool) :
  ev = CallVision \/ ev = NetGenerateVision ->
  In ev (traceOf (parseFormFromText env w txt c img flag)) ->
  (exists p, img = Some p /\ truthy p = true)
  /\ isMultimodalModel env = true
  /\ resultOf (checkOllamaHealth env w flag) = Ok true
  /\ (c < 50 # 1)%Q.
Proof.
  intros Hev H.
  unfold parseFormFromText in H.
  apply in_trace_bind in H. destruct H as [H | (a & Ha & H)].
  { exfalso.
    assert (N : never ev (checkOllamaHealth env w))
      by (destruct Hev as [-> | ->]; neverTac).
    exact (N _ H). }
  rewrite checkOllamaHealth_run in Ha, H |- *. cbn [resultOf flagOf fst snd] in Ha, H |- *.
  injection Ha as <-.
  apply in_trace_bind in H. destruct H as [H | (r1 & _ & H)].
  - destruct img as [p|].
    + destruct (reachable env w flag && (truthyPath (Some p) && isMultimodalModel env)
                && truthy p && Qltb c (50 # 1)) eqn:C.
      * apply andb_true_iff in C. destruct C as [C Hq].
        apply andb_true_iff in C. destruct C as [C Hp].
        apply andb_true_iff in C. destruct C as [C Hm].
        apply andb_true_iff in Hm. destruct Hm as [_ Hm].
        split; [exists p; split; [reflexivity|assumption]|].
        split; [assumption|]. split; [rewrite C; reflexivity|].
        apply Qltb_lt. assumption.
      * exfalso. exact H.
    + exfalso. exact H.
  - exfalso.
    match type of H with
    | In _ (traceOf (?m ?st)) =>
        assert (N : never ev m) by (destruct Hev as [-> | ->]; neverTac);
        exact (N st H)
    end.
Qed.

(** C9.  Whenever a request enters the vision extractor, or sends an
    image to the runtime, an image path was supplied, the model is
    multimodal, the liveness probe answered true and the OCR confidence
    is below 50. *)
Theorem vision_only_when_eligible :
  forall (env : Env) (w : World) (txt : string) (c : Q) (img : option string)
         (flag : bool),
    In CallVision (traceOf (parseFormFromText env w txt c img flag))
    \/ In NetGenerateVision (traceOf (parseFormFromText env w txt c img flag)) ->
    (exists p, img = Some p /\ truthy p = true)
    /\ isMultimodalModel env = true
    /\ resultOf (checkOllamaHealth env w flag) = Ok true
    /\ (c < 50 # 1)%Q.
Proof.
  intros env w txt c img flag [H | H].
  - exact (vision_guard CallVision env w txt c img flag (or_introl eq_refl) H).
  - exact (vision_guard NetGenerateVision env w txt c img flag (or_intror eq_refl) H).
Qed.

Lemma vision_only_when_eligible_witness :
  In CallVision
     (traceOf (parseFormFromText visionEnv slowWorld "Name: Bob Smith" (40 # 1)
                 (Some "/uploads/scan.png") false))
  /\ (exists p, Some "/uploads/scan.png" = Some p /\ truthy p = true)
  /\ isMultimodalModel visionEnv = true
  /\ resultOf (checkOllamaHealth visionEnv slowWorld false) = Ok true
  /\ (40 # 1 < 50 # 1)%Q.
Proof.
  assert (H : In CallVision
                 (traceOf (parseFormFromText visionEnv slowWorld "Name: Bob Smith" (40 # 1)
                             (Some "/uploads/scan.png") false))).
  { vm_compute. right. left. reflexivity. }
  split; [exact H|].
  exact (vision_only_when_eligible visionEnv slowWorld "Name: Bob Smith" (40 # 1)
           (Some "/uploads/scan.png") false (or_introl H)).
Defined.

(** Without an image path the vision extractor is never entered and no
    image is sent, however low the OCR confidence. *)
Corollary no_image_no_vision (env : Env) (w : World) (txt : string) (c : Q) (flag : bool) :
  ~ In CallVision (traceOf (parseFormFromText env w txt c None flag))
  /\ ~ In NetGenerateVision (traceOf (parseFormFromText env w txt c None flag)).
Proof.
  split; intro H.
  - destruct (vision_guard CallVision env w txt c None flag (or_introl eq_refl) H)
      as [(p & E & _) _]. discriminate E.
  - destruct (vision_guard NetGenerateVision env w txt c None flag (or_intror eq_refl) H)
      as [(p & E & _) _]. discriminate E.
Qed.

(** ** Scenarios of the specification *)

(** Typed text with the LLM disabled: name, date and the SIH checkbox are
    found by the rules. *)
Example scenario_typed_note :
  exists r,
    parseFormFromText disabledEnv slowWorld typedNote (95 # 1) None false
    = (Ok r, false, [CallRules])
    /\ recipientName (header (form r)) = "Bob Smith"
    /\ date (header (form r)) = "03/15/2024"
    /\ sih (careCoordinationType (form r)) = true
    /\ hcbw (careCoordinationType (form r)) = false
    /\ extractionMethod r = ocr_only.
Proof. eexists. split; [vm_compute; reflexivity|]. repeat split. Qed.

(** A section ends where the next header starts. *)
Example scenario_sections_do_not_bleed :
  String.length fiftyChars = 50
  /\ extractNarrativeSections twoSections
     = [(kReviewOfServices, fiftyChars);
        (kProgressTowardGoals, "Walking every day, needs some improvement.")].
Proof. split; vm_compute; reflexivity. Qed.

(** Both checkboxes true: one issue, on careCoordinationType, and both
    stay true in the merged form. *)
Example scenario_both_checkboxes :
  issuesFor "careCoordinationType" (validateCategorizedData bothChecked EmptyString)
  = [mkIssue "careCoordinationType" "Both SIH and HCBW are checked"
             (Some "Usually only one is selected")]
  /\ careCoordinationType
       (mergeWithDefaults (validateCategorizedData bothChecked EmptyString))
     = mkCareCoordinationType true true.
Proof. split; vm_compute; reflexivity. Qed.

(** The issue lines handed back as validation notes. *)
Example scenario_issue_lines :
  snd (validateAndMerge (dataWithDate "13/45/2024") EmptyString)
  = ["header.date: Invalid date format: 13/45/2024 (Should be MM/DD/YYYY)";
     "narrative: No narrative content extracted (OCR may have failed to capture text)"].
Proof. vm_compute. reflexivity. Qed.

(* ================================================================== *)
(** * Further properties of the code *)

Import ImportScreen Logger ReviewScreen Ocr Server MoreProps.

(** ** The confidence scorer, tier by tier *)


Lemma fieldLevel_never_high_ocr (b : ConfidenceLevel) (hv : bool) :
  fieldLevel b ocr_only hv <> high.
Proof. destruct b, hv; discriminate. Qed.

(** X1.  Under ocr-only no entry is ever scored high, whatever the form
    and the OCR confidence; every entry carries the method and the OCR
    confidence it was scored with. *)
Theorem ocr_only_never_scores_high :
  forall (f : MonthlyCareCoordinationForm) (c : Q),
    Forall (fun e => confidence e <> high /\ source e = ocr_only /\ ocrConfidence e = c)
           (generateConfidenceScores f c ocr_only).
Proof.
  intros f c. unfold generateConfidenceScores.
  repeat (constructor; [split; [apply fieldLevel_never_high_ocr|split; reflexivity]|]).
  constructor.
Qed.

Lemma fieldLevel_populated (m : ExtractionMethod) (c : Q) :
  fieldLevel (baseConfidence c) m true = populatedTier m c.
Proof.
  unfold populatedTier, baseConfidence.
  destruct (Qgtb c (80 # 1)) eqn:H80.
  - assert (H50 : Qgtb c (50 # 1) = true).
    { unfold Qgtb in *. apply negb_true_iff in H80. apply negb_true_iff.
      destruct (Qle_bool c (50 # 1)) eqn:L; [|reflexivity].
      apply Qle_bool_iff in L.
      assert (L' : (c <= 80 # 1)%Q).
      { eapply Qle_trans; [exact L|]. unfold Qle. simpl. lia. }
      apply Qle_bool_iff in L'. congruence. }
    rewrite H50. destruct m; reflexivity.
  - destruct (Qgtb c (50 # 1)); destruct m; reflexivity.
Qed.

(** X2.  The tier of a populated field is decided by the method and the
    OCR confidence alone: under ocr-only medium above 80 and low
    otherwise, under llm-categorized high above 50 and medium otherwise,
    under the other methods the base tier. *)
Theorem populated_field_tier_table :
  forall (f : MonthlyCareCoordinationForm) (c : Q) (m : ExtractionMethod) (p : string),
    In p fieldPaths ->
    isPopulated f p = true ->
    lookupConfidence p (generateConfidenceScores f c m) = Some (populatedTier m c).
Proof.
  intros f c m p H P.
  destruct f as [[n d t i b l] [s1 s2] [o h r g a u] [k x y]].
  unfold fieldPaths in H. simpl in H.
  repeat (destruct H as [H | H];
          [ subst p; vm_compute in P;
            cbn [lookupConfidence generateConfidenceScores find field String.eqb Ascii.eqb
                 Bool.eqb addField confidence header narrative signature recipientName
                 date time recipientIdentifier dob location recipientAndVisitObservations
                 healthEmotionalStatus reviewOfServices progressTowardGoals additionalNotes
                 followUpTasks careCoordinatorName signatureText dateSigned];
            unfold truthy; try rewrite P; rewrite fieldLevel_populated; reflexivity
          | ]).
  contradiction.
Qed.

Lemma Qgtb_mono (a b t : Q) : (a <= b)%Q -> Qgtb a t = true -> Qgtb b t = true.
Proof.
  unfold Qgtb. intros L H. apply negb_true_iff in H. apply negb_true_iff.
  destruct (Qle_bool b t) eqn:E; [|reflexivity].
  apply Qle_bool_iff in E.
  assert (L' : (a <= t)%Q) by (eapply Qle_trans; eassumption).
  apply Qle_bool_iff in L'. congruence.
Qed.

Lemma baseConfidence_mono (a b : Q) :
  (a <= b)%Q -> levelRank (baseConfidence a) <= levelRank (baseConfidence b).
Proof.
  intro L. unfold baseConfidence.
  destruct (Qgtb a (80 # 1)) eqn:A80.
  - rewrite (Qgtb_mono a b _ L A80). simpl. lia.
  - destruct (Qgtb a (50 # 1)) eqn:A50.
    + rewrite (Qgtb_mono a b _ L A50). destruct (Qgtb b (80 # 1)); simpl; lia.
    + simpl. lia.
Qed.

Lemma fieldLevel_mono (b1 b2 : ConfidenceLevel) (m : ExtractionMethod) (hv : bool) :
  levelRank b1 <= levelRank b2 ->
  levelRank (fieldLevel b1 m hv) <= levelRank (fieldLevel b2 m hv).
Proof. destruct b1, b2, m, hv; simpl; lia. Qed.

(** X3.  For one form and one method, a higher OCR confidence never
    lowers the tier of any field. *)
Theorem tier_monotone_in_ocr_confidence :
  forall (f : MonthlyCareCoordinationForm) (m : ExtractionMethod) (c1 c2 : Q),
    (c1 <= c2)%Q ->
    Forall2 (fun e1 e2 =>
               field e1 = field e2
               /\ levelRank (confidence e1) <= levelRank (confidence e2))
            (generateConfidenceScores f c1 m) (generateConfidenceScores f c2 m).
Proof.
  intros f m c1 c2 L. unfold generateConfidenceScores.
  repeat (constructor;
          [split; [reflexivity|apply fieldLevel_mono, baseConfidence_mono, L]|]).
  constructor.
Qed.

Lemma tier_monotone_in_ocr_confidence_witness :
  (45 # 1 <= 85 # 1)%Q
  /\ Forall2 (fun e1 e2 =>
               field e1 = field e2
               /\ levelRank (confidence e1) <= levelRank (confidence e2))
            (generateConfidenceScores createEmptyForm (45 # 1) llm_structured)
            (generateConfidenceScores createEmptyForm (85 # 1) llm_structured).
Proof.
  assert (L : (45 # 1 <= 85 # 1)%Q) by (unfold Qle; simpl; lia).
  split; [exact L|].
  exact (tier_monotone_in_ocr_confidence createEmptyForm llm_structured _ _ L).
Defined.

Lemma populated_field_tier_table_witness :
  In "header.date" fieldPaths
  /\ isPopulated (setDate "03/15/2024" createEmptyForm) "header.date" = true
  /\ lookupConfidence "header.date"
       (generateConfidenceScores (setDate "03/15/2024" createEmptyForm) (10 # 1)
          llm_categorized)
     = Some medium.
Proof.
  assert (H : In "header.date" fieldPaths) by (unfold fieldPaths; simpl; tauto).
  split; [exact H|]. split; [reflexivity|].
  exact (populated_field_tier_table (setDate "03/15/2024" createEmptyForm) (10 # 1)
           llm_categorized "header.date" H eq_refl).
Defined.




Lemma createEmptyForm_eq : createEmptyForm = defaultForm.
Proof. reflexivity. Qed.

Lemma placeholder_empty : containsPlaceholder EmptyString = false.
Proof. reflexivity. Qed.

Lemma checked_holds_no_placeholder (v : option string) (nm : string) :
  containsPlaceholder (orDefault (fst (checkLiteralString v nm)) EmptyString) = false.
Proof.
  destruct v as [s|]; [|reflexivity]. unfold checkLiteralString.
  destruct (containsPlaceholder s) eqn:E; [reflexivity|].
  cbn [fst orDefault]. destruct (truthy s); [exact E|reflexivity].
Qed.

Lemma cleaned_holds_no_placeholder (v : option string) :
  containsPlaceholder (orDefault (cleanNarrativeField v) EmptyString) = false.
Proof.
  destruct v as [s|]; [|reflexivity]. unfold cleanNarrativeField.
  destruct (containsPlaceholder s) eqn:E; [reflexivity|].
  cbn [orDefault]. destruct (truthy s); [exact E|reflexivity].
Qed.

(** X4.  In the form the categorizer hands back, no header field and no
    narrative field other than the additional notes contains the
    placeholder word, whatever the model returned. *)
Theorem merged_fields_hold_no_placeholder :
  forall (data : PartialForm) (txt : string),
    Forall (fun s => containsPlaceholder s = false)
           (cleanedFields (mergeWithDefaults (validateCategorizedData data txt))).
Proof.
  intros [hdr care nar sig] txt.
  unfold validateCategorizedData. cbn [pHeader pCare pNarrative pSignature].
  destruct hdr as [h|]; [rewrite cleanHeader_eq|];
    (destruct nar as [n|];
     unfold cleanedFields, mergeWithDefaults, cleanNarrative;
     rewrite createEmptyForm_eq;
     cbn [corrected issues pHeader pNarrative pCare pSignature optField header narrative
          pRecipientName pDate pTime pRecipientIdentifier pDob pLocation
          pRecipientAndVisitObservations pHealthEmotionalStatus pReviewOfServices
          pProgressTowardGoals pAdditionalNotes pFollowUpTasks
          defaultForm recipientName date time recipientIdentifier dob location
          recipientAndVisitObservations healthEmotionalStatus reviewOfServices
          progressTowardGoals followUpTasks fst snd];
     repeat (constructor;
             [first [ apply checked_holds_no_placeholder
                    | apply cleaned_holds_no_placeholder
                    | reflexivity ]|]);
     constructor).
Qed.

Lemma validate_unfold (data : PartialForm) (txt : string) :
  validateCategorizedData data txt
  = let hdr := option_map (fun h => fst (cleanHeader h)) (pHeader data) in
    let ph := match pHeader data with Some h => snd (cleanHeader h) | None => [] end in
    mkValidation
      (ph
       ++ dateFormatIssue "header.date" "Invalid date format: " (optField hdr pDate)
       ++ dateFormatIssue "header.dob" "Invalid DOB format: " (optField hdr pDob)
       ++ (if isTrue (optField (pCare data) pSih) && isTrue (optField (pCare data) pHcbw)
           then [bothCheckedIssue] else [])
       ++ (if negb (truthyOpt (optField hdr pRecipientName))
              || match optField hdr pRecipientName with
                 | Some s => String.eqb (trim s) EmptyString
                 | None => false
                 end
           then [nameNotFoundIssue] else [])
       ++ (if negb (hasNarrativeContent (pNarrative data))
           then [mkIssue "narrative" "No narrative content extracted"
                         (Some "OCR may have failed to capture text")]
           else []))%list
      (mkPartialForm hdr (pCare data) (option_map cleanNarrative (pNarrative data))
                     (pSignature data)).
Proof.
  destruct data as [hdr care nar sig].
  unfold validateCategorizedData. cbn [pHeader pNarrative pCare pSignature].
  destruct hdr as [h|]; cbn [option_map]; [destruct (cleanHeader h)|];
    destruct nar; reflexivity.
Qed.

Lemma filled_count (l : list string) (x : string) :
  In x l -> truthy x = true -> 0 < List.length (filter truthy l).
Proof.
  intros H T. induction l as [|y l IH]; [contradiction|].
  simpl. destruct H as [-> | H].
  - rewrite T. simpl. lia.
  - destruct (truthy y); simpl; [lia|]. apply IH, H.
Qed.

Lemma filled_by_name (f : MonthlyCareCoordinationForm) :
  truthy (recipientName (header f)) = true -> reportsEmptyForm f = false.
Proof.
  intro T. unfold reportsEmptyForm, filledFields. apply Nat.eqb_neq.
  match goal with
  | |- List.length (filter truthy ?l) + _ <> 0 =>
      pose proof (filled_count l (recipientName (header f)) (or_introl eq_refl) T)
  end.
  lia.
Qed.

Lemma filled_by_notes (f : MonthlyCareCoordinationForm) :
  truthy (additionalNotes (narrative f)) = true -> reportsEmptyForm f = false.
Proof.
  intro T. unfold reportsEmptyForm, filledFields. apply Nat.eqb_neq.
  match goal with
  | |- _ + List.length (filter truthy ?l) <> 0 =>
      assert (I : In (additionalNotes (narrative f)) l) by (simpl; tauto);
      pose proof (filled_count l _ I T)
  end.
  lia.
Qed.

Lemma merged_notes_with_issues (v : Validation) :
  issues v <> [] ->
  prefix "EXTRACTION NOTES:" (additionalNotes (narrative (mergeWithDefaults v))) = true.
Proof.
  intro H. unfold mergeWithDefaults.
  destruct (issues v) as [|i rest]; [contradiction|].
  reflexivity.
Qed.

Lemma prefix_truthy (p s : string) : truthy p = true -> prefix p s = true -> truthy s = true.
Proof. destruct p; [discriminate|]. destruct s; [discriminate|reflexivity]. Qed.

Lemma merged_name_without_issues (data : PartialForm) (txt : string) :
  issues (validateCategorizedData data txt) = [] ->
  truthy (recipientName (header (mergeWithDefaults (validateCategorizedData data txt))))
  = true.
Proof.
  rewrite validate_unfold. cbn zeta. cbn [issues]. intro H.
  apply app_eq_nil in H. destruct H as [_ H].
  apply app_eq_nil in H. destruct H as [_ H].
  apply app_eq_nil in H. destruct H as [_ H].
  apply app_eq_nil in H. destruct H as [_ H].
  apply app_eq_nil in H. destruct H as [H _].
  unfold mergeWithDefaults. cbn [corrected pHeader header recipientName].
  set (nm := optField _ pRecipientName) in *.
  destruct nm as [s|]; [|discriminate H].
  cbn [truthyOpt orDefault] in *.
  destruct (truthy s) eqn:T; [exact T|discriminate H].
Qed.

Lemma ruleBased_notes_truthy (txt : string) (c : Q) (avail : bool) :
  exists r, parseWithRules txt c avail = Ok r
            /\ truthy (additionalNotes (narrative (form r))) = true.
Proof.
  unfold parseWithRules.
  destruct (ruleLines_returns (filter truthy (map trim (splitLines txt))) createEmptyForm)
    as (f1 & E & _).
  rewrite E. cbn [bindRes]. eexists. split; [reflexivity|].
  cbn [form].
  match goal with
  | |- context [if truthy ?x then _ else _] => destruct (truthy x)
  end; destruct avail; reflexivity.
Qed.

(** X5.  The auto-fill screen never takes a categorized form or a
    rule-based form for an empty one: in both, a header or narrative
    field is populated. *)
Theorem autofill_never_reports_empty_form :
  (forall (data : PartialForm) (txt : string),
      reportsEmptyForm (mergeWithDefaults (validateCategorizedData data txt)) = false)
  /\ (forall (txt : string) (c : Q) (avail : bool),
        exists r, parseWithRules txt c avail = Ok r
                  /\ reportsEmptyForm (form r) = false).
Proof.
  split.
  - intros data txt.
    destruct (issues (validateCategorizedData data txt)) eqn:I.
    + apply filled_by_name, merged_name_without_issues, I.
    + apply filled_by_notes.
      apply (prefix_truthy "EXTRACTION NOTES:"); [reflexivity|].
      apply merged_notes_with_issues. rewrite I. discriminate.
  - intros txt c avail.
    destruct (ruleBased_notes_truthy txt c avail) as (r & E & T).
    exists r. split; [exact E|]. apply filled_by_notes, T.
Qed.

Lemma checkLiteralString_issues (v : option string) (nm : string) :
  Forall isPlaceholderIssue (snd (checkLiteralString v nm)).
Proof.
  destruct v as [s|]; [|constructor]. unfold checkLiteralString.
  destruct (containsPlaceholder s) eqn:E; [|constructor].
  constructor; [|constructor]. exists nm, s. split; [reflexivity|exact E].
Qed.

Lemma cleanHeader_issues (h : PartialHeader) : Forall isPlaceholderIssue (snd (cleanHeader h)).
Proof.
  rewrite cleanHeader_eq. cbn [snd].
  repeat (apply Forall_app; split); apply checkLiteralString_issues.
Qed.

Lemma placeholder_issue_text (i : ValidationIssue) :
  isPlaceholderIssue i -> prefix "Placeholder value found: " (issue i) = true.
Proof. intros (p & v & -> & _). reflexivity. Qed.

Lemma dateFormatIssue_text (nm what : string) (v : option string) (i : ValidationIssue) :
  In i (dateFormatIssue nm what v) -> prefix what (issue i) = true.
Proof.
  destruct v as [s|]; [|intros []]. unfold dateFormatIssue.
  destruct (_ && _); [|intros []]. intros [<- | []]. cbn [issue].
  induction what as [|c w IH]; [destruct s; reflexivity|].
  simpl. destruct (ascii_dec c c) as [_|N]; [exact IH|exfalso; apply N; reflexivity].
Qed.

Lemma in_issues (data : PartialForm) (txt : string) (i : ValidationIssue) :
  In i (issues (validateCategorizedData data txt)) ->
  prefix "Placeholder value found: " (issue i) = true
  \/ prefix "Invalid date format: " (issue i) = true
  \/ prefix "Invalid DOB format: " (issue i) = true
  \/ (i = bothCheckedIssue
      /\ isTrue (optField (pCare data) pSih) && isTrue (optField (pCare data) pHcbw) = true)
  \/ (i = nameNotFoundIssue
      /\ trim (recipientName (header (mergeWithDefaults (validateCategorizedData data txt))))
         = EmptyString)
  \/ (i = mkIssue "narrative" "No narrative content extracted"
                  (Some "OCR may have failed to capture text")
      /\ hasNarrativeContent (pNarrative data) = false).
Proof.
  unfold mergeWithDefaults. rewrite validate_unfold. cbn zeta. cbn [issues corrected pHeader].
  rewrite !in_app_iff. intros [H | [H | [H | [H | [H | H]]]]].
  - left. apply placeholder_issue_text.
    destruct (pHeader data) as [h|]; [|destruct H].
    pose proof (cleanHeader_issues h) as F. rewrite Forall_forall in F. apply F, H.
  - right. left. eapply dateFormatIssue_text, H.
  - right. right. left. eapply dateFormatIssue_text, H.
  - right. right. right. left.
    destruct (_ && _); [|destruct H]. destruct H as [<- | []]. split; reflexivity.
  - right. right. right. right. left.
    cbn [header recipientName].
    set (nm := optField _ pRecipientName) in *.
    destruct nm as [s|]; cbn [truthyOpt orDefault negb orb] in *.
    + destruct (truthy s) eqn:T; cbn [negb orb] in H.
      * destruct (String.eqb (trim s) EmptyString) eqn:E; [|destruct H].
        destruct H as [<- | []]. split; [reflexivity|]. apply String.eqb_eq, E.
      * destruct H as [<- | []]. split; reflexivity.
    + destruct H as [<- | []]. split; reflexivity.
  - right. right. right. right. right.
    destruct (hasNarrativeContent (pNarrative data)); [destruct H|].
    destruct H as [<- | []]. split; reflexivity.
Qed.

(** X6.  The issue that the recipient name was not found is recorded
    exactly when the name of the merged form is blank. *)
Theorem name_issue_iff_merged_name_blank :
  forall (data : PartialForm) (txt : string),
    In nameNotFoundIssue (issues (validateCategorizedData data txt))
    <-> trim (recipientName (header (mergeWithDefaults (validateCategorizedData data txt))))
        = EmptyString.
Proof.
  intros data txt. split.
  - intro H. apply in_issues in H.
    destruct H as [H | [H | [H | [[H _] | [[_ H] | [H _]]]]]];
      try discriminate H. exact H.
  - unfold mergeWithDefaults. rewrite validate_unfold. cbn zeta.
    cbn [issues corrected pHeader header recipientName].
    set (nm := optField _ pRecipientName).
    intro H. rewrite !in_app_iff. do 4 right. left.
    destruct nm as [s|]; cbn [truthyOpt orDefault negb orb] in *.
    + destruct (truthy s) eqn:T; cbn [negb orb].
      * rewrite H. left. reflexivity.
      * left. reflexivity.
    + left. reflexivity.
Qed.

(** X7.  The merge keeps both checkboxes as the model gave them, absent
    ones reading false, and the issue that both are checked is recorded
    exactly when both are true in the merged form. *)
Theorem both_checked_is_flagged_and_kept :
  forall (data : PartialForm) (txt : string),
    careCoordinationType (mergeWithDefaults (validateCategorizedData data txt))
    = mkCareCoordinationType (isTrue (optField (pCare data) pSih))
                             (isTrue (optField (pCare data) pHcbw))
    /\ (In bothCheckedIssue (issues (validateCategorizedData data txt))
        <-> careCoordinationType (mergeWithDefaults (validateCategorizedData data txt))
            = mkCareCoordinationType true true).
Proof.
  intros data txt.
  assert (E : careCoordinationType (mergeWithDefaults (validateCategorizedData data txt))
              = mkCareCoordinationType (isTrue (optField (pCare data) pSih))
                                       (isTrue (optField (pCare data) pHcbw))).
  { unfold mergeWithDefaults. rewrite validate_unfold. cbn zeta.
    cbn [corrected pCare careCoordinationType]. rewrite createEmptyForm_eq.
    destruct (pCare data) as [[[|] [|]]|]; reflexivity. }
  split; [exact E|]. rewrite E. split.
  - intro H. apply in_issues in H.
    destruct H as [H | [H | [H | [[_ H] | [[H _] | [H _]]]]]];
      try discriminate H.
    apply andb_true_iff in H. destruct H as [-> ->]. reflexivity.
  - intro H. injection H as H1 H2.
    rewrite validate_unfold. cbn zeta. cbn [issues].
    rewrite !in_app_iff. do 3 right. left. rewrite H1, H2. left. reflexivity.
Qed.

Lemma checkLiteralString_again (v : option string) (nm : string) :
  checkLiteralString (fst (checkLiteralString v nm)) nm = (fst (checkLiteralString v nm), []).
Proof.
  destruct v as [s|]; [|reflexivity]. unfold checkLiteralString.
  destruct (containsPlaceholder s) eqn:E; cbn [fst]; [reflexivity|].
  rewrite E. reflexivity.
Qed.

Lemma cleanHeader_again (h : PartialHeader) :
  cleanHeader (fst (cleanHeader h)) = (fst (cleanHeader h), []).
Proof.
  rewrite (cleanHeader_eq h). cbn [fst]. rewrite cleanHeader_eq.
  cbn [pRecipientName pDate pTime pRecipientIdentifier pDob pLocation].
  rewrite !checkLiteralString_again. reflexivity.
Qed.

Lemma cleanNarrativeField_again (v : option string) :
  cleanNarrativeField (cleanNarrativeField v) = cleanNarrativeField v.
Proof.
  destruct v as [s|]; [|reflexivity]. unfold cleanNarrativeField.
  destruct (containsPlaceholder s) eqn:E; [reflexivity|].
  rewrite E. reflexivity.
Qed.

Lemma cleanNarrative_again (n : PartialNarrative) :
  cleanNarrative (cleanNarrative n) = cleanNarrative n.
Proof.
  unfold cleanNarrative.
  cbn [pRecipientAndVisitObservations pHealthEmotionalStatus pReviewOfServices
       pProgressTowardGoals pAdditionalNotes pFollowUpTasks].
  rewrite !cleanNarrativeField_again. reflexivity.
Qed.

Lemma content_of_cleaned (k : string) (v : option string) :
  existsb (fun kv => (20 <? String.length (snd kv)) && negb (containsPlaceholder (snd kv)))
          (filter (fun kv => negb (String.eqb (fst kv) "followUpTasks"))
                  (match cleanNarrativeField v with Some s => [(k, s)] | None => [] end))
  = existsb (fun kv => (20 <? String.length (snd kv)) && negb (containsPlaceholder (snd kv)))
            (filter (fun kv => negb (String.eqb (fst kv) "followUpTasks"))
                    (match v with Some s => [(k, s)] | None => [] end)).
Proof.
  destruct v as [s|]; [|reflexivity]. unfold cleanNarrativeField.
  destruct (containsPlaceholder s) eqn:E; [|reflexivity].
  cbn [filter fst]. destruct (negb (String.eqb k "followUpTasks")); [|reflexivity].
  cbn [existsb snd]. rewrite E. cbn [String.length]. rewrite andb_false_r. reflexivity.
Qed.

Lemma hasNarrativeContent_cleaned (n : PartialNarrative) :
  hasNarrativeContent (Some (cleanNarrative n)) = hasNarrativeContent (Some n).
Proof.
  unfold hasNarrativeContent, narrativeEntries, cleanNarrative.
  cbn [pRecipientAndVisitObservations pHealthEmotionalStatus pReviewOfServices
       pProgressTowardGoals pAdditionalNotes pFollowUpTasks].
  rewrite !filter_app, !existsb_app, !content_of_cleaned. reflexivity.
Qed.

Lemma dateFormatIssue_plain (nm what : string) (v : option string) (i : ValidationIssue) :
  In i (dateFormatIssue nm what v) -> ~ isPlaceholderIssue i.
Proof.
  destruct v as [s|]; [|intros []]. unfold dateFormatIssue.
  destruct (_ && _); [|intros []]. intros [<- | []] (p & w & E & _).
  discriminate E.
Qed.

(** X8.  Validating corrected data again corrects nothing further.  The
    issues of the first pass are its placeholder issues followed by the
    issues of the second pass, and the second pass records no
    placeholder issue. *)
Theorem validation_is_idempotent :
  forall (data : PartialForm) (txt txt' : string),
    corrected (validateCategorizedData (corrected (validateCategorizedData data txt)) txt')
    = corrected (validateCategorizedData data txt)
    /\ (exists ph,
          issues (validateCategorizedData data txt)
          = (ph ++ issues (validateCategorizedData
                             (corrected (validateCategorizedData data txt)) txt'))%list
          /\ Forall isPlaceholderIssue ph)
    /\ Forall (fun i => ~ isPlaceholderIssue i)
              (issues (validateCategorizedData
                         (corrected (validateCategorizedData data txt)) txt')).
Proof.
  intros [hdr care nar sig] txt txt'.
  rewrite (validate_unfold (mkPartialForm hdr care nar sig) txt).
  cbn zeta. cbn [corrected issues pHeader pCare pNarrative pSignature].
  rewrite validate_unfold.
  cbn zeta. cbn [corrected issues pHeader pCare pNarrative pSignature].
  assert (N : option_map cleanNarrative (option_map cleanNarrative nar)
              = option_map cleanNarrative nar).
  { destruct nar; [|reflexivity]. cbn [option_map]. rewrite cleanNarrative_again.
    reflexivity. }
  assert (C : hasNarrativeContent (option_map cleanNarrative nar) = hasNarrativeContent nar).
  { destruct nar; [|reflexivity]. apply hasNarrativeContent_cleaned. }
  rewrite N, C.
  assert (P : forall (d b : option string),
             Forall (fun i => ~ isPlaceholderIssue i)
               (dateFormatIssue "header.date" "Invalid date format: " d
                ++ dateFormatIssue "header.dob" "Invalid DOB format: " b
                ++ (if isTrue (optField care pSih) && isTrue (optField care pHcbw)
                    then [bothCheckedIssue] else [])
                ++ (if negb (truthyOpt (optField
                                          (option_map (fun h => fst (cleanHeader h)) hdr)
                                          pRecipientName))
                       || match optField (option_map (fun h => fst (cleanHeader h)) hdr)
                                         pRecipientName with
                          | Some s => String.eqb (trim s) EmptyString
                          | None => false
                          end
                    then [nameNotFoundIssue] else [])
                ++ (if negb (hasNarrativeContent nar)
                    then [mkIssue "narrative" "No narrative content extracted"
                                  (Some "OCR may have failed to capture text")]
                    else []))%list).
  { intros d b. rewrite !Forall_app. repeat split.
    - apply Forall_forall. intros i H. exact (dateFormatIssue_plain _ _ _ _ H).
    - apply Forall_forall. intros i H. exact (dateFormatIssue_plain _ _ _ _ H).
    - destruct (_ && _); repeat constructor. intros (p & w & E & _). discriminate E.
    - destruct (_ || _); repeat constructor. intros (p & w & E & _). discriminate E.
    - destruct (negb _); repeat constructor. intros (p & w & E & _). discriminate E. }
  destruct hdr as [h|]; cbn [option_map] in *.
  - rewrite cleanHeader_again. cbn [fst snd app].
    split; [reflexivity|]. split.
    + exists (snd (cleanHeader h)). split; [reflexivity|apply cleanHeader_issues].
    + apply P.
  - split; [reflexivity|]. split.
    + exists []. split; [reflexivity|constructor].
    + apply P.
Qed.


(** X9.  The categorizer recovers the JSON from the raw output itself,
    else from the trimmed content of the first fenced block, else, only
    when there is no fenced block, from the brace span; a fenced block
    that does not parse raises at once, and the message of the error
    tells which step failed. *)
Theorem categorizer_recovery_order :
  forall (raw : string),
    (forall v,
        parseRawOutput raw = Ok v
        <-> directJson raw = Some v
            \/ (directJson raw = None /\ fencedTrimmedJson raw = Some v)
            \/ (directJson raw = None /\ hasFence raw = false
                /\ braceSpanJson raw = Some v))
    /\ (forall e,
          parseRawOutput raw = Throw e ->
          (hasFence raw = true
           /\ e = newError "Could not parse JSON from code block")
          \/ (hasFence raw = false
              /\ (e = newError "Could not parse JSON from matched brackets"
                  \/ e = newError "No JSON object found in LLM output"))).
Proof.
  intro raw. unfold parseRawOutput, directJson, fencedTrimmedJson, hasFence, braceSpanJson.
  destruct (JSON_parse raw) as [v0|].
  { split.
    - intro v. split.
      + intro H. injection H as ->. left. reflexivity.
      + intros [H | [[H _] | [H _]]]; [injection H as ->; reflexivity | discriminate H ..].
    - intros e H. discriminate H. }
  destruct (exec false codeBlockRe raw) as [m|]; cbn [isSome].
  - destruct (group 1 m) as [inner|].
    + destruct (JSON_parse (trim inner)) as [v1|].
      * split.
        -- intro v. split.
           ++ intro H. injection H as ->. right. left. split; reflexivity.
           ++ intros [H | [[_ H] | (_ & H & _)]];
                [discriminate H | injection H as ->; reflexivity | discriminate H].
        -- intros e H. discriminate H.
      * split.
        -- intro v. split; [intro H; discriminate H|].
           intros [H | [[_ H] | (_ & H & _)]]; discriminate H.
        -- intros e H. injection H as <-. left. split; reflexivity.
    + split.
      * intro v. split; [intro H; discriminate H|].
        intros [H | [[_ H] | (_ & H & _)]]; discriminate H.
      * intros e H. injection H as <-. left. split; reflexivity.
  - destruct (exec false braceSpanRe raw) as [m|].
    + destruct (JSON_parse (matched m)) as [v2|].
      * split.
        -- intro v. split.
           ++ intro H. injection H as ->. right. right. repeat split; reflexivity.
           ++ intros [H | [[_ H] | (_ & _ & H)]];
                [discriminate H | discriminate H | injection H as ->; reflexivity].
        -- intros e H. discriminate H.
      * split.
        -- intro v. split; [intro H; discriminate H|].
           intros [H | [[_ H] | (_ & _ & H)]]; discriminate H.
        -- intros e H. injection H as <-. right. split; [reflexivity|]. left. reflexivity.
    + split.
      * intro v. split; [intro H; discriminate H|].
        intros [H | [[_ H] | (_ & _ & H)]]; discriminate H.
      * intros e H. injection H as <-. right. split; [reflexivity|]. right. reflexivity.
Qed.

(** ** Strings: occurrences, factors and trimming *)

Lemma prefix_append (p s : string) : prefix p s = true <-> exists q, s = p ++ q.
Proof.
  revert s. induction p as [|c p IH]; intro s.
  - split; [intros _; exists s; reflexivity|intros _; destruct s; reflexivity].
  - destruct s as [|d s]; simpl.
    + split; [discriminate|intros [q H]; discriminate H].
    + destruct (ascii_dec c d) as [<-|N].
      * rewrite IH. split; intros [q H]; exists q; [rewrite H; reflexivity|].
        injection H as H. exact H.
      * split; [discriminate|]. intros [q H]. injection H as H1 H2. congruence.
Qed.

Lemma length_append (a b : string) :
  String.length (a ++ b) = String.length a + String.length b.
Proof. induction a as [|c a IH]; simpl; [reflexivity|rewrite IH; reflexivity]. Qed.

Lemma append_assoc (a b c : string) : (a ++ b) ++ c = a ++ (b ++ c).
Proof. induction a as [|x a IH]; simpl; [reflexivity|rewrite IH; reflexivity]. Qed.

Lemma append_nil_r (a : string) : a ++ EmptyString = a.
Proof. induction a as [|x a IH]; simpl; [reflexivity|rewrite IH; reflexivity]. Qed.

Lemma drop_append (a b : string) : drop (String.length a) (a ++ b) = b.
Proof. induction a as [|c a IH]; simpl; [destruct b; reflexivity|exact IH]. Qed.

Lemma drop_split (n : nat) (s : string) :
  n <= String.length s -> exists a, s = a ++ drop n s /\ String.length a = n.
Proof.
  revert s. induction n as [|n IH]; intros s L.
  - exists EmptyString. split; [destruct s; reflexivity|reflexivity].
  - destruct s as [|c s]; [simpl in L; lia|].
    simpl in L. destruct (IH s) as (a & E & La); [lia|].
    exists (String c a). simpl. split; [rewrite <- E; reflexivity|rewrite La; reflexivity].
Qed.

Lemma drop_nil (n : nat) : drop n EmptyString = EmptyString.
Proof. destruct n; reflexivity. Qed.

Lemma drop_drop (a b : nat) (s : string) : drop a (drop b s) = drop (b + a) s.
Proof.
  revert s. induction b as [|b IH]; intro s; [reflexivity|].
  destruct s as [|c s]; simpl; [apply drop_nil|apply IH].
Qed.

Lemma drop_length (n : nat) (s : string) :
  String.length (drop n s) = String.length s - n.
Proof.
  revert s. induction n as [|n IH]; intro s; [simpl; lia|].
  destruct s as [|c s]; simpl; [reflexivity|apply IH].
Qed.

Lemma occursAt_prefix (h s : string) (i : nat) :
  occursAt h s i -> prefix h (drop i s) = true.
Proof.
  intros (a & b & -> & <-). rewrite drop_append. apply prefix_append. exists b. reflexivity.
Qed.

Lemma prefix_occursAt (h s : string) (i : nat) :
  i <= String.length s -> prefix h (drop i s) = true -> occursAt h s i.
Proof.
  intros L H. apply prefix_append in H. destruct H as [q H].
  destruct (drop_split i s L) as (a & E & La).
  exists a, q. split; [rewrite E at 1; rewrite H; reflexivity|exact La].
Qed.

Lemma indexOfFrom_none (p s : string) (pos : nat) :
  indexOfFrom p s pos = None -> forall j, prefix p (drop j s) = false.
Proof.
  revert pos. induction s as [|c s IH]; intros pos H j.
  - cbn [indexOfFrom] in H. rewrite drop_nil. destruct (prefix p EmptyString); [discriminate H|reflexivity].
  - cbn [indexOfFrom] in H. destruct (prefix p (String c s)) eqn:E; [discriminate H|].
    destruct j as [|j]; [exact E|]. simpl. eapply IH, H.
Qed.

Lemma indexOfFrom_some (p s : string) (pos i : nat) :
  indexOfFrom p s pos = Some i ->
  exists k, i = pos + k /\ k <= String.length s
            /\ prefix p (drop k s) = true
            /\ forall j, j < k -> prefix p (drop j s) = false.
Proof.
  revert pos. induction s as [|c s IH]; intros pos H.
  - cbn [indexOfFrom] in H. destruct (prefix p EmptyString) eqn:E; [|discriminate H].
    injection H as <-. exists 0. rewrite Nat.add_0_r.
    repeat split; [lia|exact E|intros j Hj; lia].
  - cbn [indexOfFrom] in H. destruct (prefix p (String c s)) eqn:E.
    + injection H as <-. exists 0. rewrite Nat.add_0_r.
      repeat split; [lia|exact E|intros j Hj; lia].
    + destruct (IH _ H) as (k & -> & Lk & Hk & Hmin).
      exists (S k). repeat split; [lia|simpl; lia|exact Hk|].
      intros [|j] Hj; [exact E|]. simpl. apply Hmin. lia.
Qed.

Lemma indexOf_some (s p : string) (start i : nat) :
  indexOf s p start = Some i ->
  Nat.min start (String.length s) <= i <= String.length s
  /\ prefix p (drop i s) = true
  /\ forall j, Nat.min start (String.length s) <= j < i -> prefix p (drop j s) = false.
Proof.
  unfold indexOf. set (st := Nat.min start (String.length s)). intro H.
  apply indexOfFrom_some in H. destruct H as (k & -> & Lk & Hk & Hmin).
  rewrite drop_length in Lk. rewrite drop_drop in Hk.
  assert (st <= String.length s) by apply Nat.le_min_r.
  repeat split; [lia|lia|exact Hk|].
  intros j [J1 J2]. specialize (Hmin (j - st)). rewrite drop_drop in Hmin.
  replace (st + (j - st)) with j in Hmin by lia. apply Hmin. lia.
Qed.

Lemma indexOf_none (s p : string) (start : nat) :
  indexOf s p start = None ->
  forall j, Nat.min start (String.length s) <= j -> prefix p (drop j s) = false.
Proof.
  unfold indexOf. set (st := Nat.min start (String.length s)). intros H j J.
  pose proof (indexOfFrom_none _ _ _ H (j - st)) as N. rewrite drop_drop in N.
  replace (st + (j - st)) with j in N by lia. exact N.
Qed.

Lemma substring_factor (n m : nat) (s : string) :
  exists a b, s = a ++ substring n m s ++ b
              /\ String.length a = Nat.min n (String.length s)
              /\ String.length (substring n m s) <= m.
Proof.
  revert n m. induction s as [|c s IH]; intros n m.
  - exists EmptyString, EmptyString. destruct n, m; simpl; repeat split; lia.
  - destruct n as [|n].
    + destruct m as [|m].
      * exists EmptyString, (String c s). simpl. repeat split; lia.
      * destruct (IH 0 m) as (a & b & E & La & Lm).
        simpl in La. destruct a; [|discriminate La].
        exists EmptyString, b. simpl in *. rewrite <- E. repeat split; lia.
    + destruct (IH n m) as (a & b & E & La & Lm).
      exists (String c a), b. simpl. rewrite <- E, La. repeat split; lia.
Qed.

Lemma substring_0_length (m : nat) (s : string) :
  String.length (substring 0 m s) = Nat.min m (String.length s).
Proof.
  revert m. induction s as [|c s IH]; intro m; destruct m; simpl; try reflexivity.
  rewrite IH. reflexivity.
Qed.

Lemma trimStart_factor (s : string) : exists a, s = a ++ trimStart s.
Proof.
  induction s as [|c s [a IH]]; [exists EmptyString; reflexivity|].
  simpl. destruct (isWhiteSpace c).
  - exists (String c a). simpl. rewrite <- IH. reflexivity.
  - exists EmptyString. reflexivity.
Qed.

Lemma trimEnd_factor (s : string) : exists b, s = trimEnd s ++ b.
Proof.
  induction s as [|c s [b IH]]; [exists EmptyString; reflexivity|].
  simpl. destruct (trimEnd s) as [|d r] eqn:E.
  - destruct (isWhiteSpace c).
    + exists (String c s). reflexivity.
    + exists s. reflexivity.
  - exists b. simpl. rewrite IH at 1. reflexivity.
Qed.

Lemma trim_factor (s : string) : exists a b, s = a ++ trim s ++ b.
Proof.
  unfold trim. destruct (trimStart_factor s) as [a Ea].
  destruct (trimEnd_factor (trimStart s)) as [b Eb].
  exists a, b. rewrite <- Eb. exact Ea.
Qed.

Lemma toLowerCase_append (a b : string) :
  toLowerCase (a ++ b) = toLowerCase a ++ toLowerCase b.
Proof. induction a as [|c a IH]; simpl; [reflexivity|rewrite IH; reflexivity]. Qed.

Lemma toLowerCase_length (s : string) : String.length (toLowerCase s) = String.length s.
Proof. induction s as [|c s IH]; simpl; [reflexivity|rewrite IH; reflexivity]. Qed.

Lemma includes_occurs (s p : string) :
  includes s p = true -> exists i, occursAt p s i.
Proof.
  unfold includes. destruct (indexOf s p 0) as [i|] eqn:E; [|discriminate].
  intros _. apply indexOf_some in E. destruct E as ([_ L] & H & _).
  exists i. apply prefix_occursAt; assumption.
Qed.

(** ** findNextSectionIndex *)

Lemma nextIndex_fold (txt : string) (startPos : nat) (hs : list string) (n0 : nat) :
  let step := fun nextIndex hdr =>
                match indexOf txt hdr startPos with
                | Some idx => if idx <? nextIndex then idx else nextIndex
                | None => nextIndex
                end in
  fold_left step hs n0 <= n0
  /\ (forall h idx, In h hs -> indexOf txt h startPos = Some idx ->
                    fold_left step hs n0 <= idx)
  /\ (fold_left step hs n0 = n0
      \/ exists h, In h hs /\ indexOf txt h startPos = Some (fold_left step hs n0)).
Proof.
  cbn zeta. revert n0. induction hs as [|h hs IH]; intro n0.
  - simpl. split; [lia|]. split; [intros ? ? []|left; reflexivity].
  - cbn [fold_left].
    set (n1 := match indexOf txt h startPos with
               | Some idx => if idx <? n0 then idx else n0
               | None => n0
               end).
    destruct (IH n1) as (L & M & W).
    assert (N1 : n1 <= n0
                 /\ (forall idx, indexOf txt h startPos = Some idx -> n1 <= idx)
                 /\ (n1 = n0 \/ indexOf txt h startPos = Some n1)).
    { unfold n1. destruct (indexOf txt h startPos) as [idx|].
      - destruct (idx <? n0) eqn:C.
        + apply Nat.ltb_lt in C. split; [lia|].
          split; [intros i H; injection H as <-; lia|right; reflexivity].
        + apply Nat.ltb_ge in C. split; [lia|].
          split; [intros i H; injection H as <-; lia|left; reflexivity].
      - split; [lia|]. split; [intros i H; discriminate H|left; reflexivity]. }
    destruct N1 as (A & B & C).
    split; [lia|]. split.
    + intros h' idx [<- | Hin] E.
      * specialize (B idx E). lia.
      * apply (M h' idx Hin E).
    + destruct W as [W | (h' & Hin & E)].
      * rewrite W. destruct C as [C | C]; [left; exact C|].
        right. exists h. split; [left; reflexivity|exact C].
      * right. exists h'. split; [right; exact Hin|exact E].
Qed.

Lemma no_header_before_next (txt : string) (startPos : nat) (h : string) (j : nat) :
  In h sectionHeaders ->
  Nat.min startPos (String.length txt) <= j < findNextSectionIndex txt startPos ->
  prefix h (drop j txt) = false.
Proof.
  intros Hin [J1 J2]. unfold findNextSectionIndex in J2.
  destruct (nextIndex_fold txt startPos sectionHeaders (String.length txt)) as (_ & M & _).
  cbn zeta in M.
  destruct (indexOf txt h startPos) as [idx|] eqn:E.
  - specialize (M h idx Hin E).
    apply indexOf_some in E. destruct E as (_ & _ & Hmin). apply Hmin. lia.
  - eapply indexOf_none; eassumption.
Qed.

(** X10.  findNextSectionIndex returns the least index, from the start
    position on, at which one of the ten section headers begins, and the
    length of the text when there is none: it lies between the start
    position (capped at the length) and the length, and no header begins
    at an index in between. *)
Theorem next_section_index_is_first_header :
  forall (txt : string) (startPos : nat),
    Nat.min startPos (String.length txt) <= findNextSectionIndex txt startPos
    /\ findNextSectionIndex txt startPos <= String.length txt
    /\ (findNextSectionIndex txt startPos = String.length txt
        \/ exists h, In h sectionHeaders
                     /\ prefix h (drop (findNextSectionIndex txt startPos) txt) = true)
    /\ (forall h j,
           In h sectionHeaders ->
           Nat.min startPos (String.length txt) <= j < findNextSectionIndex txt startPos ->
           prefix h (drop j txt) = false).
Proof.
  intros txt startPos.
  destruct (nextIndex_fold txt startPos sectionHeaders (String.length txt)) as (L & _ & W).
  cbn zeta in L, W. fold (findNextSectionIndex txt startPos) in L, W.
  assert (Lo : Nat.min startPos (String.length txt) <= findNextSectionIndex txt startPos).
  { destruct W as [-> | (h & _ & E)]; [apply Nat.le_min_r|].
    apply indexOf_some in E. tauto. }
  split; [exact Lo|]. split; [exact L|]. split.
  - destruct W as [W | (h & Hin & E)]; [left; exact W|right].
    exists h. split; [exact Hin|]. apply indexOf_some in E. tauto.
  - intros h j. apply no_header_before_next.
Qed.

(** ** extractNarrativeSections *)

Lemma extract_fold (txt : string) (ps : list (NarrativeKey * list string))
      (acc : list (NarrativeKey * string)) :
  fold_left
    (fun sections kp =>
       match sectionContent txt (toLowerCase txt) (snd kp) with
       | Some content => (sections ++ [(fst kp, content)])%list
       | None => sections
       end) ps acc
  = (acc ++ flat_map (sectionOf txt) ps)%list.
Proof.
  revert acc. induction ps as [|kp ps IH]; intro acc; simpl.
  - rewrite app_nil_r. reflexivity.
  - rewrite IH. unfold sectionOf at 2.
    destruct (sectionContent txt (toLowerCase txt) (snd kp)).
    + rewrite <- app_assoc. reflexivity.
    + reflexivity.
Qed.

Lemma extract_flat (txt : string) :
  extractNarrativeSections txt = flat_map (sectionOf txt) sectionPatterns.
Proof. unfold extractNarrativeSections. cbn zeta. rewrite extract_fold. reflexivity. Qed.

Lemma sectionContent_some (txt lt : string) (pats : list string) (content : string) :
  sectionContent txt lt pats = Some content ->
  exists pattern idx,
    In pattern pats
    /\ indexOf lt pattern 0 = Some idx
    /\ content
       = substring 0 1000
           (trim (slice txt (idx + String.length pattern)
                        (findNextSectionIndex lt (idx + String.length pattern))))
    /\ 10 < String.length
              (trim (slice txt (idx + String.length pattern)
                           (findNextSectionIndex lt (idx + String.length pattern)))).
Proof.
  induction pats as [|pattern others IH]; [discriminate|].
  cbn [sectionContent].
  destruct (indexOf lt pattern 0) as [idx|] eqn:E.
  - cbn zeta.
    destruct (10 <? String.length
                      (trim (slice txt (idx + String.length pattern)
                                   (findNextSectionIndex lt (idx + String.length pattern)))))
      eqn:C.
    + intro H. injection H as <-. exists pattern, idx.
      split; [left; reflexivity|]. split; [exact E|]. split; [reflexivity|].
      apply Nat.ltb_lt, C.
    + intro H. destruct (IH H) as (p & i & Hin & R). exists p, i.
      split; [right; exact Hin|exact R].
  - intro H. destruct (IH H) as (p & i & Hin & R). exists p, i.
    split; [right; exact Hin|exact R].
Qed.

Lemma in_extract (txt : string) (k : NarrativeKey) (content : string) :
  In (k, content) (extractNarrativeSections txt) ->
  exists pats, In (k, pats) sectionPatterns
               /\ sectionContent txt (toLowerCase txt) pats = Some content.
Proof.
  rewrite extract_flat, in_flat_map. intros ([k' pats] & Hin & H).
  unfold sectionOf in H. cbn [fst snd] in H.
  destruct (sectionContent txt (toLowerCase txt) pats) as [c|] eqn:E; [|destruct H].
  destruct H as [H | []]. injection H as -> ->. exists pats. split; assumption.
Qed.

Lemma keys_of_flat (txt : string) (ps : list (NarrativeKey * list string)) :
  NoDup (map fst ps) ->
  NoDup (map fst (flat_map (sectionOf txt) ps))
  /\ forall k, In k (map fst (flat_map (sectionOf txt) ps)) -> In k (map fst ps).
Proof.
  induction ps as [|kp ps IH]; intro N; simpl.
  - split; [constructor|intros k []].
  - inversion N as [|x l Hx Hl]; subst. destruct (IH Hl) as [ND Sub].
    unfold sectionOf at 1 3.
    destruct (sectionContent txt (toLowerCase txt) (snd kp)); simpl.
    + split.
      * constructor; [|exact ND]. intro H. apply Hx, Sub, H.
      * intros k [<- | H]; [left; reflexivity|right; apply Sub, H].
    + split; [exact ND|]. intros k H. right. apply Sub, H.
Qed.

(** X11.  Every narrative section the rules extract has more than ten and
    at most a thousand characters, and no section is given twice. *)
Theorem narrative_sections_are_bounded :
  forall (txt : string),
    NoDup (map fst (extractNarrativeSections txt))
    /\ Forall (fun kv => 10 < String.length (snd kv) /\ String.length (snd kv) <= 1000)
              (extractNarrativeSections txt).
Proof.
  intro txt. split.
  - rewrite extract_flat. apply keys_of_flat.
    simpl. repeat (constructor; [simpl; intuition discriminate|]). constructor.
  - apply Forall_forall. intros [k content] Hin. cbn [snd].
    apply in_extract in Hin. destruct Hin as (pats & _ & H).
    apply sectionContent_some in H. destruct H as (p & i & _ & _ & -> & L).
    rewrite substring_0_length. lia.
Qed.

Lemma content_factor (txt : string) (start stop : nat) :
  exists P Q,
    txt = P ++ substring 0 1000 (trim (slice txt start stop)) ++ Q
    /\ Nat.min start (String.length txt) <= String.length P
    /\ String.length P + String.length (substring 0 1000 (trim (slice txt start stop)))
       <= Nat.min start (String.length txt) + (stop - start).
Proof.
  unfold slice.
  destruct (substring_factor start (stop - start) txt) as (a & b & E & La & Ls).
  set (sl := substring start (stop - start) txt) in *.
  destruct (trim_factor sl) as (a2 & b2 & E2).
  destruct (substring_factor 0 1000 (trim sl)) as (a3 & b3 & E3 & La3 & _).
  simpl in La3. destruct a3; [|discriminate La3]. cbn [append] in E3.
  set (content := substring 0 1000 (trim sl)) in *.
  exists (a ++ a2), (b3 ++ b2 ++ b).
  split.
  - rewrite E at 1. rewrite E2 at 1. rewrite E3 at 1.
    rewrite !append_assoc. reflexivity.
  - assert (L2 : String.length sl
                 = String.length a2 + (String.length content + String.length b3)
                   + String.length b2).
    { rewrite E2 at 1. rewrite E3 at 1. rewrite !length_append. lia. }
    rewrite length_append. lia.
Qed.

(** X12.  The offsets of a section are found in the lowered text and
    applied to the text itself, so the text and its lowered form must
    agree in length.  They do for every text of the alphabet, code units
    below 256, where toLowerCase maps unit by unit; a character that
    toLowerCase lengthens, such as U+0130, is outside the alphabet and
    outside this property.  For such a text a narrative section
    extracted by the rules never runs into the next one: it contains
    none of the ten section headers, in any case. *)
Theorem narrative_sections_hold_no_header :
  forall (txt : string) (k : NarrativeKey) (content h : string),
    String.length (toLowerCase txt) = String.length txt ->
    In (k, content) (extractNarrativeSections txt) ->
    In h sectionHeaders ->
    includes (toLowerCase content) h = false.
Proof.
  intros txt k content h Hlow Hin Hh.
  apply in_extract in Hin. destruct Hin as (pats & _ & H).
  apply sectionContent_some in H. destruct H as (p & idx & _ & _ & -> & L).
  set (start := idx + String.length p) in *.
  set (stop := findNextSectionIndex (toLowerCase txt) start) in *.
  destruct (includes _ h) eqn:I; [exfalso|reflexivity].
  apply includes_occurs in I. destruct I as (i & a' & b' & E & _).
  destruct (content_factor txt start stop) as (P & Q & Et & LP & LC).
  set (content := substring 0 1000 (trim (slice txt start stop))) in *.
  assert (Hlen : 0 < String.length h).
  { simpl in Hh. repeat (destruct Hh as [<- | Hh]; [simpl; lia|]). contradiction. }
  assert (Lc : String.length content
               = String.length a' + (String.length h + String.length b')).
  { rewrite <- (toLowerCase_length content), E, !length_append. reflexivity. }
  assert (C10 : 10 < String.length content).
  { unfold content. rewrite substring_0_length. lia. }
  assert (O : prefix h (drop (String.length P + String.length a') (toLowerCase txt)) = true).
  { apply occursAt_prefix. exists (toLowerCase P ++ a'), (b' ++ toLowerCase Q).
    split.
    - rewrite Et at 1. rewrite !toLowerCase_append, E, !append_assoc. reflexivity.
    - rewrite length_append, toLowerCase_length. reflexivity. }
  assert (N : prefix h (drop (String.length P + String.length a') (toLowerCase txt)) = false).
  { apply (no_header_before_next (toLowerCase txt) start h); [exact Hh|].
    rewrite Hlow. fold stop. lia. }
  congruence.
Qed.

Lemma narrative_sections_hold_no_header_witness :
  String.length (toLowerCase twoSections) = String.length twoSections
  /\ In (kReviewOfServices, fiftyChars) (extractNarrativeSections twoSections)
  /\ In "progress toward goals" sectionHeaders
  /\ includes (toLowerCase fiftyChars) "progress toward goals" = false.
Proof.
  assert (H0 : String.length (toLowerCase twoSections) = String.length twoSections)
    by reflexivity.
  assert (H1 : In (kReviewOfServices, fiftyChars) (extractNarrativeSections twoSections))
    by (vm_compute; left; reflexivity).
  assert (H2 : In "progress toward goals" sectionHeaders) by (simpl; tauto).
  split; [exact H0|]. split; [exact H1|]. split; [exact H2|].
  exact (narrative_sections_hold_no_header twoSections kReviewOfServices fiftyChars
           "progress toward goals" H0 H1 H2).
Defined.

(** ** parseWithRules: what the loop keeps *)

Lemma trimEnd_again (s : string) : trimEnd (trimEnd s) = trimEnd s.
Proof.
  induction s as [|c s IH]; [reflexivity|].
  cbn [trimEnd]. destruct (trimEnd s) as [|d r] eqn:E.
  - destruct (isWhiteSpace c) eqn:W; [reflexivity|].
    cbn [trimEnd]. rewrite W. reflexivity.
  - remember (String d r) as t eqn:Et. cbn [trimEnd]. rewrite IH.
    subst t. reflexivity.
Qed.

Lemma trimStart_of_trimEnd (s : string) :
  trimStart (trimEnd (trimStart s)) = trimEnd (trimStart s).
Proof.
  assert (H : forall t, trimStart t = t -> trimStart (trimEnd t) = trimEnd t).
  { intros [|c r] H; [reflexivity|].
    cbn [trimStart] in H. destruct (isWhiteSpace c) eqn:W.
    - exfalso.
      destruct (trimStart_factor r) as [a E].
      assert (L : String.length r = String.length a + String.length (trimStart r))
        by (rewrite E at 1; apply length_append).
      rewrite H in L. simpl in L. lia.
    - cbn [trimEnd]. destruct (trimEnd r); rewrite ?W; cbn [trimStart]; rewrite W;
        reflexivity. }
  apply H. induction s as [|c s IH]; [reflexivity|].
  cbn [trimStart]. destruct (isWhiteSpace c) eqn:W; [exact IH|].
  cbn [trimStart]. rewrite W. reflexivity.
Qed.

Lemma trim_again (s : string) : trim (trim s) = trim s.
Proof. unfold trim. rewrite trimStart_of_trimEnd. apply trimEnd_again. Qed.

Lemma extractInto_keeps (P : MonthlyCareCoordinationForm -> Prop) (cond : bool)
      (re : regex) (line : string)
      (setter : string -> MonthlyCareCoordinationForm -> MonthlyCareCoordinationForm)
      (f r : MonthlyCareCoordinationForm) :
  (forall v g, P g -> P (setter (trim v) g)) ->
  P f -> extractInto cond re line setter f = Ok r -> P r.
Proof.
  intros S Pf. unfold extractInto.
  destruct cond; [|intro H; injection H as <-; exact Pf].
  destruct (exec true re line) as [m|]; [|intro H; injection H as <-; exact Pf].
  unfold group1Trim. destruct (group 1 m) as [g|]; [|discriminate].
  cbn [bindRes]. intro H. injection H as <-. apply S, Pf.
Qed.

Lemma rulesKeep_setters :
  (forall v g, rulesKeep g -> rulesKeep (setRecipientName (trim v) g))
  /\ (forall v g, rulesKeep g -> rulesKeep (setDate (trim v) g))
  /\ (forall v g, rulesKeep g -> rulesKeep (setTime (trim v) g))
  /\ (forall v g, rulesKeep g -> rulesKeep (setDob (trim v) g))
  /\ (forall v g, rulesKeep g -> rulesKeep (setLocation (trim v) g))
  /\ (forall v g, rulesKeep g -> rulesKeep (setRecipientIdentifier (trim v) g))
  /\ (forall b g, rulesKeep g -> rulesKeep (setSih b g))
  /\ (forall b g, rulesKeep g -> rulesKeep (setHcbw b g))
  /\ (forall n g, rulesKeep g -> rulesKeep (setNarrativeOf n g)).
Proof.
  unfold rulesKeep, headerValues.
  repeat split;
    try (destruct H as [H _]; cbn in *;
         repeat match goal with
                | H : Forall _ (_ :: _) |- _ => inversion H; clear H; subst
                end;
         repeat (constructor; [first [assumption | apply trim_again]|]);
         constructor);
    try (destruct H as [_ H]; exact H).
Qed.

Lemma ruleLine_keeps (f f' : MonthlyCareCoordinationForm) (line : string) :
  rulesKeep f -> ruleLine f line = Ok f' -> rulesKeep f'.
Proof.
  destruct rulesKeep_setters as (S1 & S2 & S3 & S4 & S5 & S6 & S7 & S8 & _).
  intros K. unfold ruleLine.
  repeat match goal with
         | |- bindRes (extractInto ?c ?re ?l ?st ?g) _ = _ -> _ =>
             let x := fresh "f" in
             let E := fresh "E" in
             destruct (extractInto c re l st g) as [x|] eqn:E; [|discriminate];
             cbn [bindRes];
             apply (extractInto_keeps rulesKeep) in E; [|assumption|assumption]
         end.
  intro H. injection H as <-.
  repeat match goal with
         | |- context [if ?b then _ else _] => destruct b
         end; auto.
Qed.

Lemma ruleLines_keeps (lines : list string) :
  forall f f', rulesKeep f -> ruleLines f lines = Ok f' -> rulesKeep f'.
Proof.
  induction lines as [|line lines IH]; intros f f' K; simpl.
  - intro H. injection H as <-. exact K.
  - destruct (ruleLine f line) as [f1|] eqn:E; [|discriminate].
    cbn [bindRes]. apply IH. eapply ruleLine_keeps; eassumption.
Qed.

(** X13.  Every header value of a rule-based result is trimmed, the
    signature section is left empty, and no validation issues are
    attached. *)
Theorem rule_based_header_is_trimmed :
  forall (txt : string) (c : Q) (avail : bool),
    exists r,
      parseWithRules txt c avail = Ok r
      /\ Forall trimmed (headerValues (form r))
      /\ signature (form r) = mkSignature EmptyString EmptyString EmptyString
      /\ validationIssues r = None.
Proof.
  intros txt c avail. unfold parseWithRules.
  destruct (ruleLines_returns (filter truthy (map trim (splitLines txt))) createEmptyForm)
    as (f1 & E & _).
  assert (K : rulesKeep f1).
  { apply (ruleLines_keeps (filter truthy (map trim (splitLines txt))) createEmptyForm f1);
      [|exact E].
    split; [|reflexivity]. repeat constructor. }
  rewrite E. cbn [bindRes]. eexists. split; [reflexivity|].
  cbn [form validationIssues].
  destruct rulesKeep_setters as (_ & _ & _ & _ & _ & _ & _ & _ & S9).
  match goal with
  | |- Forall trimmed (headerValues ?g) /\ signature ?g = _ /\ _ =>
      assert (K' : rulesKeep g)
  end.
  { destruct (truthy _); apply S9, S9, K. }
  destruct K' as [K1 K2]. split; [exact K1|]. split; [exact K2|reflexivity].
Qed.

Lemma ruleLine_care (f f' : MonthlyCareCoordinationForm) (line : string) :
  ruleLine f line = Ok f' ->
  sih (careCoordinationType f')
  = (if includes (toLowerCase line) "sih" then test true checkedPattern line
     else sih (careCoordinationType f))
  /\ hcbw (careCoordinationType f')
     = (if includes (toLowerCase line) "hcbw" then test true checkedPattern line
        else hcbw (careCoordinationType f)).
Proof.
  unfold ruleLine. do 6 stepExtract. intro H. injection H as <-.
  repeat match goal with
         | |- context [match ?v with Some _ => _ | None => _ end] => destruct v
         end;
    destruct (includes (toLowerCase line) "sih"), (includes (toLowerCase line) "hcbw");
    split; reflexivity.
Qed.

Lemma find_snoc {A} (p : A -> bool) (xs : list A) (l : A) :
  find p (xs ++ [l])
  = match find p xs with
    | Some x => Some x
    | None => if p l then Some l else None
    end.
Proof.
  induction xs as [|x xs IHx]; simpl; [reflexivity|].
  destruct (p x); [reflexivity|exact IHx].
Qed.

Lemma last_wins (p t : string -> bool) (lines : list string) (init : bool) :
  fold_left (fun acc l => if p l then t l else acc) lines init
  = match find p (rev lines) with Some l => t l | None => init end.
Proof.
  revert init. induction lines as [|l ls IH]; intro init; [reflexivity|].
  cbn [fold_left rev]. rewrite IH.
  rewrite find_snoc. destruct (find p (rev ls)); [reflexivity|]. destruct (p l); reflexivity.
Qed.

Lemma ruleLines_care (lines : list string) :
  forall f f',
    ruleLines f lines = Ok f' ->
    sih (careCoordinationType f')
    = fold_left (fun acc l => if includes (toLowerCase l) "sih"
                              then test true checkedPattern l else acc)
                lines (sih (careCoordinationType f))
    /\ hcbw (careCoordinationType f')
       = fold_left (fun acc l => if includes (toLowerCase l) "hcbw"
                                 then test true checkedPattern l else acc)
                   lines (hcbw (careCoordinationType f)).
Proof.
  induction lines as [|line lines IH]; intros f f'; simpl.
  - intro H. injection H as <-. split; reflexivity.
  - destruct (ruleLine f line) as [f1|] eqn:E; [|discriminate].
    cbn [bindRes]. intro H. destruct (IH _ _ H) as [A B].
    destruct (ruleLine_care _ _ _ E) as [C D].
    rewrite A, B, C, D. split; reflexivity.
Qed.

(** X14.  In a rule-based result each checkbox follows the last line
    that names it: it is ticked exactly when that line carries a mark,
    and it stays unticked when no line names it. *)
Theorem checkbox_follows_last_mention :
  forall (txt : string) (c : Q) (avail : bool),
    exists r,
      parseWithRules txt c avail = Ok r
      /\ sih (careCoordinationType (form r)) = lastMention "sih" (ruleInputLines txt)
      /\ hcbw (careCoordinationType (form r)) = lastMention "hcbw" (ruleInputLines txt).
Proof.
  intros txt c avail. unfold parseWithRules.
  destruct (ruleLines_returns (filter truthy (map trim (splitLines txt))) createEmptyForm)
    as (f1 & E & _).
  destruct (ruleLines_care _ _ _ E) as [A B].
  rewrite E. cbn [bindRes]. eexists. split; [reflexivity|].
  cbn [form]. unfold lastMention, ruleInputLines.
  rewrite <- (last_wins (fun l => includes (toLowerCase l) "sih")
                        (test true checkedPattern) _ false).
  rewrite <- (last_wins (fun l => includes (toLowerCase l) "hcbw")
                        (test true checkedPattern) _ false).
  destruct (truthy _); cbn [setNarrativeOf careCoordinationType]; split; assumption.
Qed.

(** ** The orchestrator: results, order and the session flag *)


Lemma finish_cases (msg : string) (parsed : JsValue) (c : Q) (m : ExtractionMethod)
      (notes : option (list string)) (st : bool) :
  (exists x, finish msg parsed c m notes st = (Ok x, st, [])
             /\ extractionMethod x = m /\ ollamaAvailable x = true)
  \/ finish msg parsed c m notes st = (Throw (newError msg), st, []).
Proof.
  unfold finish. destruct (safeValidateForm parsed); [left|right; reflexivity].
  eexists. split; [reflexivity|]. split; reflexivity.
Qed.

Lemma recoverJson_error (msg r : string) (e : JsError) :
  recoverJson msg r = Throw e -> isTimeoutError e = false.
Proof.
  unfold recoverJson, parseJsonText.
  destruct (JSON_parse r); [discriminate|].
  destruct (exec false jsonFenceRe r) as [m|].
  - destruct (group 1 m) as [inner|].
    + destruct (JSON_parse inner); [discriminate|]. intro H. injection H as <-. reflexivity.
    + intro H. injection H as <-. reflexivity.
  - intro H. injection H as <-. reflexivity.
Qed.

Lemma vision_cases (env : Env) (w : World) (p txt : string) (c : Q) (st : bool) :
  truthy p && isMultimodalModel env = true ->
  (exists x, parseWithVisionLLM env w p txt c st = (Ok x, st, [CallVision; NetGenerateVision])
             /\ extractionMethod x = vision_llm /\ ollamaAvailable x = true)
  \/ (exists e, parseWithVisionLLM env w p txt c st
                = (Throw e, st, [CallVision; NetGenerateVision])).
Proof.
  intro G. unfold parseWithVisionLLM, generateFormWithLLM. rewrite G.
  unfold bind, emit, liftRes.
  destruct (generateWithVision w p txt) as [resp|e]; [|right; eexists; reflexivity].
  destruct (responseText resp) as [llmResponse|e]; [|right; eexists; reflexivity].
  destruct (recoverJson "Invalid JSON from vision LLM" llmResponse) as [parsed|e];
    [|right; eexists; reflexivity].
  destruct (finish_cases "Vision LLM output validation failed" parsed c vision_llm None st)
    as [(x & -> & Hm & Ha) | ->].
  - left. exists x. split; [reflexivity|]. split; assumption.
  - right. eexists. reflexivity.
Qed.

Lemma categorizer_cases (w : World) (txt : string) (c : Q) (st : bool) :
  (exists x, parseWithLLMCategorizer w txt c st
             = (Ok x, st, [CallCategorizer; NetCategorize])
             /\ extractionMethod x = llm_categorized /\ ollamaAvailable x = true
             /\ timesOut (categorizeAndValidateWithLLM w txt c) = false)
  \/ (exists e, parseWithLLMCategorizer w txt c st
                = (Throw e, st, [CallCategorizer; NetCategorize])
                /\ isTimeoutError e = timesOut (categorizeAndValidateWithLLM w txt c)).
Proof.
  unfold parseWithLLMCategorizer, bind, emit, liftRes.
  destruct (categorizeAndValidateWithLLM w txt c) as [cat|e].
  - match goal with
    | |- context [finish ?msg ?parsed c llm_categorized ?notes st] =>
        destruct (finish_cases msg parsed c llm_categorized notes st)
          as [(x & -> & Hm & Ha) | ->]
    end.
    + left. exists x. split; [reflexivity|]. repeat split; assumption.
    + right. eexists. split; reflexivity.
  - right. exists e. split; reflexivity.
Qed.

Lemma text_cases (env : Env) (w : World) (txt : string) (c : Q) (st : bool) :
  (exists x, parseWithLLM env w txt c st = (Ok x, st, [CallText; NetGenerateText])
             /\ extractionMethod x = llm_structured /\ ollamaAvailable x = true
             /\ timesOut (generateWithText w txt) = false)
  \/ (exists e, parseWithLLM env w txt c st = (Throw e, st, [CallText; NetGenerateText])
                /\ isTimeoutError e = timesOut (generateWithText w txt)).
Proof.
  unfold parseWithLLM, generateFormWithLLM, bind, emit, liftRes.
  destruct (generateWithText w txt) as [resp|e];
    [|right; exists e; split; reflexivity].
  destruct resp as [llmResponse|]; cbn [responseText];
    [|right; eexists; split; reflexivity].
  destruct (recoverJson "Invalid JSON from LLM" llmResponse) as [parsed|e] eqn:R.
  - destruct (finish_cases "LLM output validation failed" parsed c llm_structured None st)
      as [(x & -> & Hm & Ha) | ->].
    + left. exists x. split; [reflexivity|]. repeat split; assumption.
    + right. eexists. split; reflexivity.
  - right. exists e. split; [reflexivity|]. apply (recoverJson_error _ _ _ R).
Qed.

Lemma attempt_ignore {strategy : M ParseResult} {st st1 : bool} {e : JsError}
      {t : list Event} :
  strategy st = (Throw e, st1, t) ->
  attempt strategy (fun _ => ret tt) st = (Ok None, st1, t).
Proof.
  intro E. unfold attempt, tryCatch. rewrite (bind_throw _ E).
  unfold bind, ret. simpl. rewrite app_nil_r. reflexivity.
Qed.

Lemma rules_stage (txt : string) (c : Q) (avail st : bool) :
  exists r,
    (emit CallRules ;;; liftRes (parseWithRules txt c avail)) st = (Ok r, st, [CallRules])
    /\ extractionMethod r = ocr_only /\ ollamaAvailable r = avail.
Proof.
  destruct (parseWithRules_returns txt c avail) as (r & E & Hm & Ha).
  exists r. unfold bind, emit, liftRes. rewrite E. repeat split; assumption.
Qed.

Lemma text_stage (env : Env) (w : World) (txt : string) (c : Q) (avail st : bool) :
  exists (r : ParseResult) (ru : bool),
    bind (if avail then attempt (parseWithLLM env w txt c) markIfTimeout else ret None)
         (fun r3 : option ParseResult =>
            match r3 with
            | Some result => ret result
            | None => emit CallRules ;;; liftRes (parseWithRules txt c avail)
            end) st
    = (Ok r, st || (avail && timesOut (generateWithText w txt)),
       ((if avail then [CallText; NetGenerateText] else [])
        ++ (if ru then [CallRules] else []))%list)
    /\ extractionMethod r = (if ru then ocr_only else llm_structured)
    /\ ollamaAvailable r = avail
    /\ (avail = false -> ru = true).
Proof.
  destruct avail.
  - destruct (text_cases env w txt c st) as [(x & E & Hm & Ha & T) | (e & E & T)].
    + rewrite (bind_ok _ (attempt_ok _ E)). exists x, false.
      unfold ret. cbn [resultOf flagOf traceOf fst snd]. rewrite T.
      rewrite orb_false_r. repeat split; try assumption; try discriminate.
    + rewrite (bind_ok _ (attempt_mark E)).
      destruct (rules_stage txt c true (isTimeoutError e || st)) as (r & -> & Hm & Ha).
      exists r, true. cbn [resultOf flagOf traceOf fst snd]. rewrite <- T.
      rewrite (orb_comm st). repeat split; try assumption; try discriminate.
  - rewrite (bind_ok _ (eq_refl : ret None st = (Ok (@None ParseResult), st, []))).
    destruct (rules_stage txt c false st) as (r & -> & Hm & Ha).
    exists r, true. cbn [resultOf flagOf traceOf fst snd]. rewrite orb_false_r.
    repeat split; assumption.
Qed.

Lemma categorizer_stage (env : Env) (w : World) (txt : string) (c : Q) (avail st : bool) :
  exists (r : ParseResult) (tx ru : bool),
    bind (if avail && Qltb c (80 # 1)
          then attempt (parseWithLLMCategorizer w txt c) markIfTimeout
          else ret None)
         (fun r2 : option ParseResult =>
            match r2 with
            | Some result => ret result
            | None =>
                bind (if avail
                      then attempt (parseWithLLM env w txt c) markIfTimeout
                      else ret None)
                     (fun r3 : option ParseResult =>
                        match r3 with
                        | Some result => ret result
                        | None => emit CallRules ;;; liftRes (parseWithRules txt c avail)
                        end)
            end) st
    = (Ok r,
       st || (avail && Qltb c (80 # 1) && timesOut (categorizeAndValidateWithLLM w txt c))
          || (tx && timesOut (generateWithText w txt)),
       ((if avail && Qltb c (80 # 1) then [CallCategorizer; NetCategorize] else [])
        ++ (if tx then [CallText; NetGenerateText] else [])
        ++ (if ru then [CallRules] else []))%list)
    /\ extractionMethod r
       = (if ru then ocr_only else if tx then llm_structured else llm_categorized)
    /\ ollamaAvailable r = avail
    /\ (tx = true -> avail = true)
    /\ (avail && Qltb c (80 # 1) = false -> tx || ru = true).
Proof.
  destruct (avail && Qltb c (80 # 1)) eqn:G.
  - destruct (categorizer_cases w txt c st) as [(x & E & Hm & Ha & T) | (e & E & T)].
    + rewrite (bind_ok _ (attempt_ok _ E)). exists x, false, false.
      unfold ret. cbn [resultOf flagOf traceOf fst snd andb orb]. rewrite T.
      rewrite !orb_false_r. apply andb_true_iff in G. destruct G as [-> _].
      repeat split; try assumption; try discriminate.
    + rewrite (bind_ok _ (attempt_mark E)).
      destruct (text_stage env w txt c avail (isTimeoutError e || st))
        as (r & ru & -> & Hm & Ha & Hr).
      exists r, avail, ru. cbn [resultOf flagOf traceOf fst snd andb]. rewrite T.
      rewrite (orb_comm st).
      split; [reflexivity|]. split.
      * destruct ru; [exact Hm|]. destruct avail; [exact Hm|].
        specialize (Hr eq_refl). discriminate Hr.
      * repeat split; try assumption; try discriminate. intro; assumption.
  - rewrite (bind_ok _ (eq_refl : ret None st = (Ok (@None ParseResult), st, []))).
    destruct (text_stage env w txt c avail st) as (r & ru & -> & Hm & Ha & Hr).
    exists r, avail, ru. cbn [resultOf flagOf traceOf fst snd andb orb app].
    rewrite orb_false_r.
    split; [reflexivity|]. split.
    + destruct ru; [exact Hm|]. destruct avail; [exact Hm|].
      specialize (Hr eq_refl). discriminate Hr.
    + split; [assumption|]. split; [intro; assumption|].
      intros _. destruct avail; [reflexivity|]. rewrite Hr; reflexivity.
Qed.

Lemma Qltb_50_80 (c : Q) : Qltb c (50 # 1) = true -> Qltb c (80 # 1) = true.
Proof.
  unfold Qltb. intro H. apply negb_true_iff in H. apply negb_true_iff.
  destruct (Qle_bool (80 # 1) c) eqn:E; [|reflexivity].
  apply Qle_bool_iff in E.
  assert (L : (50 # 1 <= c)%Q).
  { eapply Qle_trans; [|exact E]. unfold Qle. simpl. lia. }
  apply Qle_bool_iff in L. congruence.
Qed.

Lemma run_shape (env : Env) (w : World) (txt : string) (c : Q) (img : option string)
      (flag : bool) :
  exists (r : ParseResult) (cg tx ru : bool),
    parseFormFromText env w txt c img flag
    = (Ok r,
       flag || (cg && timesOut (categorizeAndValidateWithLLM w txt c))
            || (tx && timesOut (generateWithText w txt)),
       traceFor (probes env flag) (visionEligible env w c img flag) cg tx ru)
    /\ extractionMethod r = methodFor (visionEligible env w c img flag) cg tx ru
    /\ ollamaAvailable r = reachable env w flag
    /\ (cg = true -> reachable env w flag = true /\ Qltb c (80 # 1) = true)
    /\ (tx = true -> reachable env w flag = true)
    /\ (visionEligible env w c img flag = true -> extractionMethod r <> vision_llm ->
        cg = true)
    /\ (visionEligible env w c img flag || cg || tx || ru = true)
    /\ (visionEligible env w c img flag = false ->
        cg = reachable env w flag && Qltb c (80 # 1)).
Proof.
  unfold parseFormFromText.
  rewrite (bind_ok _ (checkOllamaHealth_run env w flag)).
  cbn [resultOf flagOf traceOf fst snd].
  set (avail := reachable env w flag).
  assert (T0 : (if flag || llmDisabled env then [] else [NetTags])
               = (if probes env flag then [NetTags] else [])).
  { unfold probes. destruct (flag || llmDisabled env); reflexivity. }
  rewrite T0. clear T0.
  assert (V : forall (p : string),
             img = Some p ->
             avail && (truthyPath img && isMultimodalModel env) && truthy p
             && Qltb c (50 # 1)
             = visionEligible env w c img flag).
  { intros p ->. unfold visionEligible. fold avail. cbn [truthyPath].
    destruct avail, (truthy p), (isMultimodalModel env), (Qltb c (50 # 1)); reflexivity. }
  destruct (visionEligible env w c img flag) eqn:VE.
  - (* the vision strategy is tried *)
    destruct img as [p|]; [|unfold visionEligible in VE; cbn [truthyPath] in VE;
                            rewrite andb_false_r in VE; discriminate VE].
    rewrite (V p eq_refl).
    assert (G : truthy p && isMultimodalModel env = true).
    { unfold visionEligible in VE. cbn [truthyPath] in VE.
      destruct (truthy p), (isMultimodalModel env); try reflexivity;
        rewrite ?andb_false_r in VE; discriminate VE. }
    assert (A : avail = true /\ Qltb c (50 # 1) = true).
    { unfold visionEligible in VE. fold avail in VE.
      destruct avail, (Qltb c (50 # 1)); try (split; reflexivity);
        rewrite ?andb_false_r in VE; discriminate VE. }
    destruct A as [A Q50].
    destruct (vision_cases env w p txt c flag G) as [(x & E & Hm & Ha) | (e & E)].
    + rewrite (bind_ok _ (attempt_ok _ E)). exists x, false, false, false.
      unfold ret, traceFor, methodFor. cbn [resultOf flagOf traceOf fst snd andb orb].
      rewrite !orb_false_r, !app_nil_r. rewrite Hm, Ha, A.
      repeat split; try discriminate. intros _ N. exfalso. apply N. reflexivity.
    + rewrite (bind_ok _ (attempt_ignore E)).
      destruct (categorizer_stage env w txt c avail flag)
        as (r & tx & ru & -> & Hm & Ha & Ht & Hr).
      rewrite A in *. rewrite (Qltb_50_80 c Q50) in *. cbn [andb] in *.
      exists r, true, tx, ru. unfold traceFor, methodFor.
      cbn [resultOf flagOf traceOf fst snd andb orb].
      split; [reflexivity|]. split; [destruct ru, tx; exact Hm|].
      repeat split; try assumption; try reflexivity; try discriminate.
  - (* the vision strategy is skipped *)
    assert (R1 : (match img with
                  | Some p =>
                      if avail && (truthyPath img && isMultimodalModel env) && truthy p
                         && Qltb c (50 # 1)
                      then attempt (parseWithVisionLLM env w p txt c) (fun _ => ret tt)
                      else ret None
                  | None => ret None
                  end) flag = (Ok None, flag, [])).
    { destruct img as [p|]; [|reflexivity]. rewrite (V p eq_refl). reflexivity. }
    rewrite (bind_ok _ R1).
    destruct (categorizer_stage env w txt c avail flag)
      as (r & tx & ru & -> & Hm & Ha & Ht & Hr).
    exists r, (avail && Qltb c (80 # 1)), tx, ru. unfold traceFor, methodFor.
    cbn [resultOf flagOf traceOf fst snd andb orb app].
    split; [reflexivity|]. split.
    { destruct ru; [exact Hm|]. destruct tx; [exact Hm|].
      destruct (avail && Qltb c (80 # 1)); [exact Hm|].
      specialize (Hr eq_refl). discriminate Hr. }
    split; [exact Ha|]. split; [apply andb_true_iff|].
    split; [exact Ht|]. split; [discriminate|].
    split; [|intros _; reflexivity].
    destruct (avail && Qltb c (80 # 1)); [reflexivity|]. apply Hr. reflexivity.
Qed.

Lemma returnsOnly_ret {A} (P : A -> Prop) (a : A) : P a -> returnsOnly P (ret a).
Proof. intros H st b st' t E. injection E as <- _ _. exact H. Qed.

Lemma returnsOnly_throw {A} (P : A -> Prop) (e : JsError) : returnsOnly P (throw e).
Proof. intros st b st' t E. discriminate E. Qed.

Lemma returnsOnly_liftRes {A} (P : A -> Prop) (r : Res JsError A) :
  (forall a, r = Ok a -> P a) -> returnsOnly P (liftRes r).
Proof. intros H st b st' t E. injection E as E _ _. apply H, E. Qed.

Lemma returnsOnly_bind {A B} (Q : A -> Prop) (P : B -> Prop) (m : M A) (f : A -> M B) :
  returnsOnly Q m -> (forall a, Q a -> returnsOnly P (f a)) -> returnsOnly P (bind m f).
Proof.
  intros Hm Hf st b st' t. unfold bind.
  destruct (m st) as [[[a|e] st1] t1] eqn:E; [|discriminate].
  destruct (f a st1) as [[r st2] t2] eqn:E2. intro H. injection H as -> <- _.
  eapply Hf; [eapply Hm; exact E|exact E2].
Qed.

Lemma returnsOnly_any {A} (m : M A) : returnsOnly (fun _ => True) m.
Proof. intros st a st' t _. exact I. Qed.

Lemma returnsOnly_tryCatch {A} (P : A -> Prop) (m : M A) (h : JsError -> M A) :
  returnsOnly P m -> (forall e, returnsOnly P (h e)) -> returnsOnly P (tryCatch m h).
Proof.
  intros Hm Hh st a st' t. unfold tryCatch.
  destruct (m st) as [[[b|e] st1] t1] eqn:E.
  - intro H. injection H as <- _ _. eapply Hm, E.
  - destruct (h e st1) as [[r st2] t2] eqn:E2. intro H. injection H as -> _ _.
    eapply Hh, E2.
Qed.

Lemma finish_scored (msg : string) (parsed : JsValue) (c : Q) (m : ExtractionMethod)
      (notes : option (list string)) :
  returnsOnly (scoredAt c) (finish msg parsed c m notes).
Proof.
  unfold finish. destruct (safeValidateForm parsed).
  - apply returnsOnly_ret. reflexivity.
  - apply returnsOnly_throw.
Qed.

Lemma attempt_scored (c : Q) (strategy : M ParseResult) (h : JsError -> M unit) :
  returnsOnly (scoredAt c) strategy -> returnsOnly (scoredIfAny c) (attempt strategy h).
Proof.
  intro H. unfold attempt. apply returnsOnly_tryCatch.
  - apply (returnsOnly_bind (scoredAt c)); [exact H|].
    intros a Pa. apply returnsOnly_ret. exact Pa.
  - intro e. apply (returnsOnly_bind (fun _ => True)); [apply returnsOnly_any|].
    intros _ _. apply returnsOnly_ret. exact I.
Qed.

Lemma parseWithRules_scored (txt : string) (c : Q) (avail : bool) (r : ParseResult) :
  parseWithRules txt c avail = Ok r -> scoredAt c r.
Proof.
  unfold parseWithRules.
  destruct (ruleLines createEmptyForm (filter truthy (map trim (splitLines txt))));
    [|discriminate].
  cbn [bindRes]. intro H. injection H as <-. reflexivity.
Qed.

Lemma strategies_scored (env : Env) (w : World) (txt : string) (c : Q) :
  returnsOnly (scoredAt c) (parseWithLLMCategorizer w txt c)
  /\ returnsOnly (scoredAt c) (parseWithLLM env w txt c)
  /\ forall p, returnsOnly (scoredAt c) (parseWithVisionLLM env w p txt c).
Proof.
  unfold parseWithLLMCategorizer, parseWithLLM, parseWithVisionLLM.
  repeat split; intros;
    repeat (apply (returnsOnly_bind (fun _ => True)); [apply returnsOnly_any|intros ? _]);
    apply finish_scored.
Qed.

Lemma parseFormFromText_scored (env : Env) (w : World) (txt : string) (c : Q)
      (img : option string) :
  returnsOnly (scoredAt c) (parseFormFromText env w txt c img).
Proof.
  destruct (strategies_scored env w txt c) as (Sc & St & Sv).
  unfold parseFormFromText.
  apply (returnsOnly_bind (fun _ => True)); [apply returnsOnly_any|intros avail _].
  apply (returnsOnly_bind (scoredIfAny c)).
  { destruct img as [p|]; [|apply returnsOnly_ret; exact I].
    destruct (_ && _); [|apply returnsOnly_ret; exact I].
    apply attempt_scored, Sv. }
  intros [r1|] P1; [apply returnsOnly_ret; exact P1|].
  apply (returnsOnly_bind (scoredIfAny c)).
  { destruct (_ && _); [|apply returnsOnly_ret; exact I]. apply attempt_scored, Sc. }
  intros [r2|] P2; [apply returnsOnly_ret; exact P2|].
  apply (returnsOnly_bind (scoredIfAny c)).
  { destruct avail; [|apply returnsOnly_ret; exact I]. apply attempt_scored, St. }
  intros [r3|] P3; [apply returnsOnly_ret; exact P3|].
  apply (returnsOnly_bind (fun _ => True)); [apply returnsOnly_any|intros _ _].
  apply returnsOnly_liftRes. intros a. apply parseWithRules_scored.
Qed.

(** X15.  parseFormFromText returns a result for every text, confidence,
    image path, runtime and flag: whatever the strategies throw is
    caught.  The form of the result passes validation, its confidence
    list is the score of that form under the method of the result at the
    OCR confidence of the request, the result tells what the probe
    answered, its method is never manual, and a method other than
    ocr-only means that the probe answered true. *)
Theorem orchestrator_always_returns :
  forall (env : Env) (w : World) (txt : string) (c : Q) (img : option string)
         (flag : bool),
    exists r,
      resultOf (parseFormFromText env w txt c img flag) = Ok r
      /\ validateForm (formToJs (form r)) = Ok (form r)
      /\ confidenceList r = generateConfidenceScores (form r) c (extractionMethod r)
      /\ ollamaAvailable r = reachable env w flag
      /\ extractionMethod r <> manual
      /\ (extractionMethod r <> ocr_only -> reachable env w flag = true).
Proof.
  intros env w txt c img flag.
  destruct (run_shape env w txt c img flag)
    as (r & cg & tx & ru & E & Hm & Ha & Hc & Ht & _ & Hany & _).
  exists r.
  split; [rewrite E; reflexivity|]. split; [apply validateForm_formToJs|].
  split; [exact (parseFormFromText_scored env w txt c img flag r _ _ E)|].
  split; [exact Ha|].
  rewrite Hm. unfold methodFor.
  destruct ru; [split; [discriminate|intro N; exfalso; apply N; reflexivity]|].
  destruct tx; [split; [discriminate|intros _; apply Ht; reflexivity]|].
  destruct cg; [split; [discriminate|intros _; apply Hc; reflexivity]|].
  split; [discriminate|]. intros _.
  rewrite !orb_false_r in Hany. unfold visionEligible in Hany.
  destruct (reachable env w flag); [reflexivity|discriminate Hany].
Qed.

Lemma in_traceFor (ev : Event) (probe v cg tx ru : bool) :
  In ev (traceFor probe v cg tx ru)
  <-> (probe = true /\ ev = NetTags)
      \/ (v = true /\ (ev = CallVision \/ ev = NetGenerateVision))
      \/ (cg = true /\ (ev = CallCategorizer \/ ev = NetCategorize))
      \/ (tx = true /\ (ev = CallText \/ ev = NetGenerateText))
      \/ (ru = true /\ ev = CallRules).
Proof.
  unfold traceFor. rewrite !in_app_iff.
  destruct probe, v, cg, tx, ru; simpl; intuition (try discriminate; subst; auto).
Qed.

(** X16.  The log of every request is the probe, unless the flag is set
    or the LLM is disabled, followed by the strategies that were tried,
    in the order vision, categorizer, text, rules and each at most once.
    The vision strategy is tried exactly when its guard holds, the method
    of the result is that of the last strategy tried, and a vision
    attempt that did not give the result is followed by the categorizer.
    Without a vision attempt the categorizer is tried exactly when the
    probe answered true and the OCR confidence is below 80. *)
Theorem strategies_run_in_priority_order :
  forall (env : Env) (w : World) (txt : string) (c : Q) (img : option string)
         (flag : bool),
    exists (r : ParseResult) (categorizer text rules : bool),
      resultOf (parseFormFromText env w txt c img flag) = Ok r
      /\ traceOf (parseFormFromText env w txt c img flag)
         = traceFor (probes env flag) (visionEligible env w c img flag)
                    categorizer text rules
      /\ extractionMethod r
         = methodFor (visionEligible env w c img flag) categorizer text rules
      /\ (visionEligible env w c img flag || categorizer || text || rules = true)
      /\ (visionEligible env w c img flag = true ->
          extractionMethod r <> vision_llm -> categorizer = true)
      /\ (visionEligible env w c img flag = false ->
          categorizer = reachable env w flag && Qltb c (80 # 1)).
Proof.
  intros env w txt c img flag.
  destruct (run_shape env w txt c img flag)
    as (r & cg & tx & ru & E & Hm & _ & _ & _ & Hv & Hany & Hcg).
  exists r, cg, tx, ru. rewrite E. cbn [resultOf traceOf fst snd].
  repeat split; assumption.
Qed.

(** X17.  The categorizer is entered, and its request sent, only when
    the probe answered true and the OCR confidence is below 80. *)
Theorem categorizer_only_below_eighty :
  forall (env : Env) (w : World) (txt : string) (c : Q) (img : option string)
         (flag : bool),
    In CallCategorizer (traceOf (parseFormFromText env w txt c img flag))
    \/ In NetCategorize (traceOf (parseFormFromText env w txt c img flag)) ->
    resultOf (checkOllamaHealth env w flag) = Ok true /\ (c < 80 # 1)%Q.
Proof.
  intros env w txt c img flag H.
  destruct (run_shape env w txt c img flag)
    as (r & cg & tx & ru & E & _ & _ & Hc & _).
  rewrite E in H. cbn [traceOf snd] in H. rewrite !in_traceFor in H.
  assert (C : cg = true).
  { destruct H as [H | H];
      destruct H as [[_ H] | [[_ [H | H]] | [[C _] | [[_ [H | H]] | [_ H]]]]];
      try discriminate H; exact C. }
  destruct (Hc C) as [R Q80]. rewrite checkOllamaHealth_run. cbn [resultOf fst].
  rewrite R. split; [reflexivity|]. apply Qltb_lt, Q80.
Qed.

Lemma categorizer_only_below_eighty_witness :
  In CallCategorizer
     (traceOf (parseFormFromText plainEnv slowWorld "Name: Bob Smith" (60 # 1) None false))
  /\ resultOf (checkOllamaHealth plainEnv slowWorld false) = Ok true
  /\ (60 # 1 < 80 # 1)%Q.
Proof.
  assert (H : In CallCategorizer
                 (traceOf (parseFormFromText plainEnv slowWorld "Name: Bob Smith" (60 # 1)
                             None false))).
  { vm_compute. right. left. reflexivity. }
  split; [exact H|].
  exact (categorizer_only_below_eighty plainEnv slowWorld "Name: Bob Smith" (60 # 1) None
           false (or_introl H)).
Defined.

(** X18.  The session flag is set at the end of a request exactly when
    it was set before, or the categorizer was tried and timed out, or the
    text extractor was tried and timed out.  A timeout of the vision
    strategy does not set it. *)
Theorem latch_is_set_only_by_a_timeout :
  forall (env : Env) (w : World) (txt : string) (c : Q) (img : option string)
         (flag : bool),
    flagOf (parseFormFromText env w txt c img flag) = true
    <-> flag = true
        \/ (In CallCategorizer (traceOf (parseFormFromText env w txt c img flag))
            /\ timesOut (categorizeAndValidateWithLLM w txt c) = true)
        \/ (In CallText (traceOf (parseFormFromText env w txt c img flag))
            /\ timesOut (generateWithText w txt) = true).
Proof.
  intros env w txt c img flag.
  destruct (run_shape env w txt c img flag) as (r & cg & tx & ru & E & _).
  rewrite E. cbn [flagOf traceOf fst snd]. rewrite !in_traceFor.
  rewrite !orb_true_iff, !andb_true_iff. split.
  - intros [[H | [C T]] | [X T]]; [left; exact H | right; left | right; right].
    + split; [|exact T]. right. right. left. split; [exact C|left; reflexivity].
    + split; [|exact T]. do 3 right. left. split; [exact X|left; reflexivity].
  - intros [H | [[H T] | [H T]]]; [left; left; exact H | left; right | right].
    + split; [|exact T].
      destruct H as [[_ H] | [[_ [H | H]] | [[C _] | [[_ [H | H]] | [_ H]]]]];
        try discriminate H; exact C.
    + split; [|exact T].
      destruct H as [[_ H] | [[_ [H | H]] | [[_ [H | H]] | [[X _] | [_ H]]]]];
        try discriminate H; exact X.
Qed.

(** X19.  With OLLAMA_MODEL unset or empty the model is qwen2.5:0.5b,
    which is not in the multimodal list, and no request enters the vision
    extractor or sends an image. *)
Theorem default_model_never_uses_vision :
  forall (env : Env) (w : World) (txt : string) (c : Q) (img : option string)
         (flag : bool),
    OLLAMA_MODEL env = None \/ OLLAMA_MODEL env = Some EmptyString ->
    DEFAULT_MODEL env = "qwen2.5:0.5b"
    /\ isMultimodalModel env = false
    /\ ~ In CallVision (traceOf (parseFormFromText env w txt c img flag))
    /\ ~ In NetGenerateVision (traceOf (parseFormFromText env w txt c img flag)).
Proof.
  intros env w txt c img flag H.
  assert (D : DEFAULT_MODEL env = "qwen2.5:0.5b").
  { unfold DEFAULT_MODEL. destruct H as [-> | ->]; reflexivity. }
  assert (M : isMultimodalModel env = false).
  { unfold isMultimodalModel. rewrite D. reflexivity. }
  split; [exact D|]. split; [exact M|].
  split; intro V.
  - destruct (vision_guard CallVision env w txt c img flag (or_introl eq_refl) V)
      as (_ & M' & _). congruence.
  - destruct (vision_guard NetGenerateVision env w txt c img flag (or_intror eq_refl) V)
      as (_ & M' & _). congruence.
Qed.

Lemma default_model_never_uses_vision_witness :
  OLLAMA_MODEL plainEnv = None
  /\ ~ In CallVision
        (traceOf (parseFormFromText plainEnv slowWorld "Name: Bob Smith" (40 # 1)
                    (Some "/uploads/scan.png") false)).
Proof.
  split; [reflexivity|].
  exact (proj1 (proj2 (proj2
           (default_model_never_uses_vision plainEnv slowWorld "Name: Bob Smith" (40 # 1)
              (Some "/uploads/scan.png") false (or_introl eq_refl))))).
Defined.

(** ** The logger, the review screen and the schema *)


(** X20.  Whatever LOG_LEVEL holds, the logger prints every message of
    level error, and when it prints a level it prints every more severe
    one.  A value that names no level silences nothing; unset or empty,
    the level is info, so debug messages are dropped. *)
Theorem log_filter_lets_errors_through :
  forall (envLevel : option string),
    printed envLevel error = true
    /\ (forall l l', severity l <= severity l' ->
                     printed envLevel l = true -> printed envLevel l' = true)
    /\ (levels (LOG_LEVEL envLevel) = None -> forall l, printed envLevel l = true)
    /\ (envLevel = None \/ envLevel = Some EmptyString ->
        printed envLevel debug = false /\ printed envLevel info = true).
Proof.
  intro envLevel. unfold printed, dropped.
  destruct (levels (LOG_LEVEL envLevel)) as [n|] eqn:E.
  - assert (N : n <= 3).
    { unfold levels in E.
      repeat match type of E with
             | (if ?b then _ else _) = _ => destruct b; [injection E as <-; lia|]
             end.
      discriminate E. }
    split; [simpl; apply negb_true_iff, Nat.ltb_ge; exact N|].
    split.
    + intros l l' S H. apply negb_true_iff in H. apply negb_true_iff.
      destruct l, l'; simpl in *; apply Nat.ltb_ge in H; apply Nat.ltb_ge; lia.
    + split; [discriminate|].
      intros [-> | ->]; simpl in E; injection E as <-; split; reflexivity.
  - split; [reflexivity|]. split.
    + intros l l' _ _. destruct l'; reflexivity.
    + split; [intros _ l; destruct l; reflexivity|].
      intros [-> | ->]; discriminate E.
Qed.

Lemma mapGet_mapSet (k k' : string) (v : FieldConfidence)
      (m : list (string * FieldConfidence)) :
  mapGet k' (mapSet k v m) = if String.eqb k k' then Some v else mapGet k' m.
Proof.
  induction m as [|[k0 v0] m IH]; simpl.
  - reflexivity.
  - destruct (String.eqb k0 k) eqn:E0.
    + apply String.eqb_eq in E0. subst k0. simpl. destruct (String.eqb k k'); reflexivity.
    + simpl. destruct (String.eqb k0 k') eqn:E1.
      * apply String.eqb_eq in E1. subst k0.
        rewrite String.eqb_sym, E0. reflexivity.
      * exact IH.
Qed.

Lemma mapGet_fold (l : list FieldConfidence) (m : list (string * FieldConfidence))
      (p : string) :
  mapGet p (fold_left (fun m c => mapSet (field c) c m) l m)
  = match find (fun e => String.eqb (field e) p) (rev l) with
    | Some e => Some e
    | None => mapGet p m
    end.
Proof.
  revert m. induction l as [|c l IH]; intro m; [reflexivity|].
  cbn [fold_left rev]. rewrite IH.
  assert (F : find (fun e => String.eqb (field e) p) (rev l ++ [c])
              = match find (fun e => String.eqb (field e) p) (rev l) with
                | Some x => Some x
                | None => if String.eqb (field c) p then Some c else None
                end).
  { generalize (rev l). intro xs. induction xs as [|x xs IHx]; simpl; [reflexivity|].
    destruct (String.eqb (field x) p); [reflexivity|exact IHx]. }
  rewrite F. destruct (find _ (rev l)); [reflexivity|].
  rewrite mapGet_mapSet. destruct (String.eqb (field c) p); reflexivity.
Qed.

(** X21.  The review screen shows for every scored field exactly the
    tier the scorer gave it; a path the scorer does not list reads low,
    and so does every path when the list is empty, as after a blank
    start. *)
Theorem review_screen_shows_the_scored_tier :
  forall (f : MonthlyCareCoordinationForm) (c : Q) (m : ExtractionMethod),
    (forall e, In e (generateConfidenceScores f c m) ->
               getConfidence (generateConfidenceScores f c m) (field e) = confidence e)
    /\ (forall p, ~ In p fieldPaths ->
                  getConfidence (generateConfidenceScores f c m) p = low)
    /\ (forall p, getConfidence [] p = low).
Proof.
  intros f c m.
  split; [|split; [|reflexivity]].
  - intros e H. unfold getConfidence, confidenceMap. rewrite mapGet_fold.
    unfold generateConfidenceScores in *. cbn [rev app].
    simpl in H.
    repeat (destruct H as [<- | H]; [reflexivity|]). contradiction.
  - intros p N. unfold getConfidence, confidenceMap. rewrite mapGet_fold.
    unfold fieldPaths in N. simpl in N.
    unfold generateConfidenceScores. cbn [rev app find addField field].
    repeat match goal with
           | |- context [String.eqb ?a p] =>
               let E := fresh "E" in
               destruct (String.eqb a p) eqn:E;
               [apply String.eqb_eq in E; exfalso; apply N; rewrite <- E; simpl; tauto|]
           end.
    reflexivity.
Qed.

Lemma ap_ok_inv {A B} (f : Res ZodError (A -> B)) (x : Res ZodError A) (r : B) :
  ap f x = Ok r -> exists g a, f = Ok g /\ x = Ok a /\ r = g a.
Proof.
  destruct f as [g|e], x as [a|e']; simpl; try discriminate.
  intro H. injection H as <-. exists g, a. repeat split.
Qed.

Lemma strField_ok (path : list string) (o : list (string * JsValue)) (k v : string) :
  strField path o k = Ok v ->
  (getProp k o = None /\ v = EmptyString) \/ getProp k o = Some (JStr v).
Proof.
  unfold strField, zDefault, zString. destruct (getProp k o) as [[]|]; try discriminate.
  - intro H. injection H as <-. right. reflexivity.
  - intro H. injection H as <-. left. split; reflexivity.
Qed.

Lemma boolField_ok (path : list string) (o : list (string * JsValue)) (k : string)
      (v : bool) :
  boolField path o k = Ok v ->
  (getProp k o = None /\ v = false) \/ getProp k o = Some (JBool v).
Proof.
  unfold boolField, zDefault, zBoolean. destruct (getProp k o) as [[]|]; try discriminate.
  - intro H. injection H as <-. right. reflexivity.
  - intro H. injection H as <-. left. split; reflexivity.
Qed.

Lemma object_ok {A} (shape : list string -> list (string * JsValue) -> Res ZodError A)
      (path : list string) (v : option JsValue) (r : A) :
  zObject shape path v = Ok r -> exists o, v = Some (JObj o) /\ shape path o = Ok r.
Proof.
  unfold zObject. destruct v as [[]|]; try discriminate.
  intro H. eexists. split; [reflexivity|exact H].
Qed.

Ltac invertAp H :=
  repeat match type of H with
         | ap _ _ = Ok _ =>
             let g := fresh "g" in
             let a := fresh "a" in
             let E1 := fresh "Ef" in
             let E2 := fresh "Ex" in
             let E3 := fresh "Er" in
             apply ap_ok_inv in H; destruct H as (g & a & E1 & E2 & E3);
             subst; rename E1 into H
         end.

Ltac openSection H unfolder :=
  unfold unfolder in H; apply object_ok in H;
  let o := fresh "o" in
  let E := fresh "Eo" in
  destruct H as (o & E & H); invertAp H; injection H as <-.

Ltac leafCase :=
  match goal with
  | H : (getProp ?k ?o = None /\ _) \/ getProp ?k ?o = Some _
    |- context [getProp ?k ?o] =>
      destruct H as [[H ?] | H]; subst; rewrite H; reflexivity
  end.

(** X22.  Validation keeps every leaf that is present: in the validated
    form each of the seventeen paths resolves to the value the data holds
    at that path, and to the default (the empty string, false) where the
    data holds none.  The validated form validates again to itself. *)
Theorem validation_keeps_present_leaves :
  forall (d : JsValue) (f : MonthlyCareCoordinationForm),
    validateForm d = Ok f ->
    Forall (fun m =>
              getValueAtPath (formToJs f) (path m)
              = Some (match getValueAtPath d (path m) with
                      | Some v => v
                      | None => leafDefault (kind m)
                      end))
           FORM_FIELDS
    /\ validateForm (formToJs f) = Ok f
    /\ safeValidateForm (formToJs f) = inl f.
Proof.
  intros d f H.
  assert (R : validateForm (formToJs f) = Ok f) by apply validateForm_formToJs.
  split; [|split; [exact R|unfold safeValidateForm; unfold validateForm in R; rewrite R;
                             reflexivity]].
  clear R. unfold validateForm, MonthlyCareCoordinationFormSchema in H.
  apply object_ok in H. destruct H as (o & Ed & H). injection Ed as ->.
  invertAp H. injection H as <-.
  openSection Ex2 FormHeaderSchema.
  openSection Ex1 CareCoordinationTypeSchema.
  openSection Ex0 NarrativeSectionsSchema.
  openSection Ex SignatureSchema.
  repeat match goal with
         | H : strField _ _ _ = Ok _ |- _ => apply strField_ok in H
         | H : boolField _ _ _ = Ok _ |- _ => apply boolField_ok in H
         end.
  unfold FORM_FIELDS.
  repeat (constructor;
          [ unfold getValueAtPath, formToJs, headerToJs, careToJs, narrativeToJs,
              signatureToJs;
            cbn [path kind leafDefault split fold_left getProp String.eqb Ascii.eqb
                 Bool.eqb header careCoordinationType narrative signature
                 recipientName date time recipientIdentifier dob location sih hcbw
                 recipientAndVisitObservations healthEmotionalStatus reviewOfServices
                 progressTowardGoals additionalNotes followUpTasks careCoordinatorName
                 signatureText dateSigned];
            repeat match goal with
                   | E : getProp ?k o = Some _ |- context [getProp ?k o] => rewrite E
                   end;
            leafCase
          | ]).
  constructor.
Qed.

Lemma validation_keeps_present_leaves_witness :
  validateForm sparseData = Ok (setDate "03/15/2024" createEmptyForm)
  /\ getValueAtPath (formToJs (setDate "03/15/2024" createEmptyForm)) "header.date"
     = Some (JStr "03/15/2024")
  /\ getValueAtPath (formToJs (setDate "03/15/2024" createEmptyForm)) "header.time"
     = Some (JStr EmptyString).
Proof.
  assert (H : validateForm sparseData = Ok (setDate "03/15/2024" createEmptyForm))
    by reflexivity.
  split; [exact H|].
  pose proof (proj1 (validation_keeps_present_leaves sparseData _ H)) as F.
  rewrite Forall_forall in F.
  split.
  - apply (F (mkField "header.date" "Date" text true "Header")).
    unfold FORM_FIELDS. simpl. tauto.
  - apply (F (mkField "header.time" "Time" text false "Header")).
    unfold FORM_FIELDS. simpl. tauto.
Defined.

Lemma reports_ap_l {A B} (i : ZodIssue) (f : Res ZodError (A -> B)) (x : Res ZodError A) :
  reports i f -> reports i (ap f x).
Proof.
  intros (e & -> & H). destruct x as [a|e']; simpl.
  - exists e. split; [reflexivity|exact H].
  - exists (e ++ e')%list. split; [reflexivity|]. apply in_or_app. left. exact H.
Qed.

Lemma reports_ap_r {A B} (i : ZodIssue) (f : Res ZodError (A -> B)) (x : Res ZodError A) :
  reports i x -> reports i (ap f x).
Proof.
  intros (e & -> & H). destruct f as [g|e']; simpl.
  - exists e. split; [reflexivity|exact H].
  - exists (e' ++ e)%list. split; [reflexivity|]. apply in_or_app. right. exact H.
Qed.

Lemma reports_object {A}
      (shape : list string -> list (string * JsValue) -> Res ZodError A)
      (path : list string) (v : option JsValue) :
  (forall o, v <> Some (JObj o)) ->
  reports (InvalidType path "object" (parsedType v)) (zObject shape path v).
Proof.
  intro N. unfold zObject.
  destruct v as [[]|];
    try (eexists; split; [reflexivity|left; reflexivity]).
  exfalso. eapply N. reflexivity.
Qed.

(** X23.  Data that is no object is rejected with one issue at the root.
    Data in which one of the four sections is absent, or is no object, is
    rejected, and the issues name that section and what was found in its
    place. *)
Theorem what_is_no_form_is_rejected :
  (forall (d : JsValue),
      (forall o, d <> JObj o) ->
      validateForm d = Throw [InvalidType [] "object" (parsedType (Some d))]
      /\ safeValidateForm d = inr [InvalidType [] "object" (parsedType (Some d))])
  /\ (forall (props : list (string * JsValue)) (k : string),
        In k sectionKeys ->
        (forall o, getProp k props <> Some (JObj o)) ->
        reports (InvalidType [k] "object" (parsedType (getProp k props)))
                (validateForm (JObj props))).
Proof.
  split.
  - intros d N. unfold safeValidateForm, validateForm, MonthlyCareCoordinationFormSchema,
      zObject.
    destruct d; try (split; reflexivity). exfalso. eapply N. reflexivity.
  - intros props k Hk N.
    unfold validateForm, MonthlyCareCoordinationFormSchema. cbn [zObject app].
    simpl in Hk. destruct Hk as [<- | [<- | [<- | [<- | []]]]].
    + do 3 apply reports_ap_l. apply reports_ap_r.
      unfold FormHeaderSchema. apply reports_object, N.
    + do 2 apply reports_ap_l. apply reports_ap_r.
      unfold CareCoordinationTypeSchema. apply reports_object, N.
    + apply reports_ap_l. apply reports_ap_r.
      unfold NarrativeSectionsSchema. apply reports_object, N.
    + apply reports_ap_r. unfold SignatureSchema. apply reports_object, N.
Qed.

Lemma what_is_no_form_is_rejected_witness :
  (validateForm (JStr "form") = Throw [InvalidType [] "object" "string"]
   /\ safeValidateForm (JStr "form") = inr [InvalidType [] "object" "string"])
  /\ reports (InvalidType ["header"] "object" "undefined") (validateForm (JObj [])).
Proof.
  split.
  - apply (proj1 what_is_no_form_is_rejected (JStr "form")).
    intros o; discriminate.
  - apply (proj2 what_is_no_form_is_rejected [] "header").
    + simpl; tauto.
    + intros o; discriminate.
Defined.


(** ** The OCR step and the endpoints *)

Lemma ocr_output_cases (eng : Engine) (path mime : string) (out : OCROutput) :
  extractTextFromFile eng path mime = Ok out ->
  match outMethod out with
  | pdf_text =>
      mime = "application/pdf"
      /\ parsePdf eng path = Ok (outText out, outPageCount out)
      /\ 100 < String.length (trim (outText out))
      /\ outConfidence out = 95 # 1
  | pdf_ocr =>
      mime = "application/pdf"
      /\ exists txt, parsePdf eng path = Ok (txt, outPageCount out)
                     /\ String.length (trim txt) <= 100
  | image_ocr =>
      mime <> "application/pdf" /\ prefix "image/" mime = true
      /\ recognize eng path = Ok (outText out, outConfidence out)
      /\ outPageCount out = 1
  end.
Proof.
  unfold extractTextFromFile.
  destruct (String.eqb mime "application/pdf") eqn:P.
  - apply String.eqb_eq in P. subst mime. unfold extractFromPDF.
    destruct (parsePdf eng path) as [[txt n]|e]; [|discriminate]. cbn [bindRes].
    destruct (100 <? String.length (trim txt)) eqn:L.
    + intro H. injection H as <-. cbn. apply Nat.ltb_lt in L. repeat split. exact L.
    + unfold extractFromPDFWithOCR.
      destruct (makeTempDir eng); [|discriminate]. cbn [bindRes].
      destruct (convertPages eng path n) as [images|]; [|discriminate]. cbn [bindRes].
      destruct (createWorker eng); [|discriminate]. cbn [bindRes].
      destruct (recognizePages eng images); [|discriminate]. cbn [bindRes].
      intro H. injection H as <-. cbn. split; [reflexivity|].
      exists txt. split; [reflexivity|]. apply Nat.ltb_ge in L. exact L.
  - destruct (prefix "image/" mime) eqn:I; [|discriminate].
    unfold extractFromImage.
    destruct (createWorker eng); [|discriminate]. cbn [bindRes].
    destruct (recognize eng path) as [[txt c]|]; [|discriminate]. cbn [bindRes].
    intro H. injection H as <-. cbn.
    split; [intro E; subst mime; discriminate P|]. repeat split.
Qed.

(** X24.  extractTextFromFile goes by the file type: anything that is
    neither a PDF nor an image is refused with the type in the message.
    A result read from the text layer comes from a PDF whose trimmed text
    has more than a hundred characters and carries the confidence 95; a
    PDF with less text is recognized page by page; an image gives one
    page with the text and the confidence of the recognizer. *)
Theorem ocr_route_follows_the_file_type :
  forall (eng : Engine) (path mime : string),
    (String.eqb mime "application/pdf" = false -> prefix "image/" mime = false ->
     extractTextFromFile eng path mime
     = Throw (newError ("Unsupported file type: " ++ mime)))
    /\ (forall out,
          extractTextFromFile eng path mime = Ok out ->
          match outMethod out with
          | pdf_text =>
              mime = "application/pdf"
              /\ parsePdf eng path = Ok (outText out, outPageCount out)
              /\ 100 < String.length (trim (outText out))
              /\ outConfidence out = 95 # 1
          | pdf_ocr =>
              mime = "application/pdf"
              /\ exists txt, parsePdf eng path = Ok (txt, outPageCount out)
                             /\ String.length (trim txt) <= 100
          | image_ocr =>
              mime <> "application/pdf" /\ prefix "image/" mime = true
              /\ recognize eng path = Ok (outText out, outConfidence out)
              /\ outPageCount out = 1
          end).
Proof.
  intros eng path mime. split.
  - unfold extractTextFromFile. intros -> ->. reflexivity.
  - intro out. apply ocr_output_cases.
Qed.

Lemma ocr_route_follows_the_file_type_witness :
  extractTextFromFile
    (mkEngine (fun _ => Ok (EmptyString, 0)) (Ok "tmp") (fun _ _ => Ok [])
              (Ok tt) (fun _ => Ok (EmptyString, 0 # 1)) (fun _ => 0 # 1))
    "notes.txt" "text/plain"
  = Throw (newError "Unsupported file type: text/plain").
Proof.
  apply (proj1 (ocr_route_follows_the_file_type _ "notes.txt" "text/plain"));
    reflexivity.
Defined.


Lemma categorizer_guard (ev : Event) (env : Env) (w : World) (txt : string) (c : Q)
      (img : option string) (flag : bool) :
  ev = CallCategorizer \/ ev = NetCategorize ->
  In ev (traceOf (parseFormFromText env w txt c img flag)) ->
  reachable env w flag = true /\ Qltb c (80 # 1) = true.
Proof.
  intros Hev H.
  destruct (run_shape env w txt c img flag)
    as (r & cg & tx & ru & E & _ & _ & Hc & _).
  rewrite E in H. cbn [traceOf snd] in H. rewrite in_traceFor in H.
  apply Hc.
  destruct Hev as [-> | ->];
    destruct H as [[_ H] | [[_ [H | H]] | [[C _] | [[_ [H | H]] | [_ H]]]]];
    try discriminate H; exact C.
Qed.

Lemma parse_returns (env : Env) (w : World) (txt : string) (c : Q) (img : option string)
      (flag : bool) :
  exists r fl tr,
    parseFormFromText env w txt c img flag = (Ok r, fl, tr)
    /\ confidenceList r = generateConfidenceScores (form r) c (extractionMethod r).
Proof.
  destruct (run_shape env w txt c img flag) as (r & cg & tx & ru & E & _).
  exists r. eexists. eexists. split; [exact E|].
  exact (parseFormFromText_scored env w txt c img flag r _ _ E).
Qed.

(** X25.  POST /extract/pdf without a file answers 400 and does nothing.
    With a file, the upload is removed once, as the last action, whether
    the request succeeds or fails.  The answer is 500 exactly when the
    OCR step throws, and nothing of the pipeline has run then; otherwise
    it is 200 with the OCR text as raw text and the confidence list
    scored at the OCR confidence.  The vision strategy is entered only
    for an image whose OCR confidence is below 50, and a PDF read from
    its text layer reaches neither the vision strategy nor the
    categorizer. *)
Theorem extract_endpoint_removes_the_upload :
  forall (env : Env) (eng : Engine) (w : World) (file : option UploadedFile) (flag : bool),
    match file with
    | None =>
        extractPdf env eng w None flag
        = (mkResponse 400 (Failure "No file provided" None), flag, [])
    | Some f =>
        exists resp fl pipeline,
          extractPdf env eng w (Some f) flag
          = (resp, fl, (map Pipeline pipeline ++ [Unlink (filePath f)])%list)
          /\ match extractTextFromFile eng (filePath f) (mimetype f) with
             | Throw e =>
                 resp = mkResponse 500 (Failure "Extraction failed" (Some (errMessage e)))
                 /\ pipeline = [] /\ fl = flag
             | Ok out =>
                 exists r,
                   resp = mkResponse 200 (Extraction r)
                   /\ rawText r = outText out
                   /\ resConfidence r
                      = generateConfidenceScores (resForm r) (outConfidence out)
                                                 (resMethod r)
                   /\ (In CallVision pipeline ->
                       prefix "image/" (mimetype f) = true
                       /\ (outConfidence out < 50 # 1)%Q)
                   /\ (outMethod out = pdf_text ->
                       ~ In CallVision pipeline /\ ~ In CallCategorizer pipeline)
             end
    end.
Proof.
  intros env eng w [f|] flag; [|reflexivity].
  unfold extractPdf.
  destruct (extractTextFromFile eng (filePath f) (mimetype f)) as [out|e] eqn:O.
  - cbn zeta.
    set (img := if prefix "image/" (mimetype f) && Qltb (outConfidence out) (50 # 1)
                then Some (filePath f) else None).
    destruct (parse_returns env w (outText out) (outConfidence out) img flag)
      as (r & fl & tr & E & S).
    pose proof (vision_guard CallVision env w (outText out) (outConfidence out) img flag
                  (or_introl eq_refl)) as GV.
    pose proof (categorizer_guard CallCategorizer env w (outText out) (outConfidence out)
                  img flag (or_introl eq_refl)) as GC.
    rewrite E in GV, GC |- *. cbn [traceOf snd] in GV, GC.
    exists (mkResponse 200 (Extraction (toExtraction r (outText out)))), fl, tr.
    split; [reflexivity|].
    exists (toExtraction r (outText out)).
    split; [reflexivity|]. split; [reflexivity|]. split; [exact S|].
    assert (V : In CallVision tr ->
                prefix "image/" (mimetype f) = true /\ (outConfidence out < 50 # 1)%Q).
    { intro H. destruct (GV H) as ((p & Ep & _) & _ & _ & Q50).
      split; [|exact Q50]. unfold img in Ep.
      destruct (prefix "image/" (mimetype f)); [reflexivity|discriminate Ep]. }
    split; [exact V|].
    intro M. pose proof (ocr_output_cases eng _ _ out O) as C. rewrite M in C.
    destruct C as (Em & _ & _ & E95). split.
    + intro H. destruct (V H) as [I _]. rewrite Em in I. discriminate I.
    + intro H. destruct (GC H) as [_ Q80]. rewrite E95 in Q80. discriminate Q80.
  - exists (mkResponse 500 (Failure "Extraction failed" (Some (errMessage e)))), flag, [].
    split; [reflexivity|]. repeat split.
Qed.

(** X26.  POST /extract/fill, for a raw text that is a string or
    absent.  It answers 400 without any call when the raw text is absent
    or empty, and 503 when the probe of the handler fails.  Otherwise the
    parser runs at the confidence 40, whatever confidence the request
    states, and without an image, and the answer is 200: the vision
    strategy is never tried, the method is never vision-llm and the
    confidence list is scored at 40.  The parser probes the runtime
    again: the categorizer is tried exactly when this second probe
    succeeds too, and when it fails the answer is the rule-based result,
    with the method ocr-only. *)
Theorem fill_endpoint_uses_confidence_forty :
  forall (env : Env) (atProbe w : World) (req : FillRequest) (flag : bool),
    exists resp fl pipeline,
      extractFill env w atProbe req flag = (resp, fl, map Pipeline pipeline)
      /\ ~ In CallVision pipeline /\ ~ In NetGenerateVision pipeline
      /\ match fillRawText req with
         | Some txt =>
             if truthy txt then
               if reachable env atProbe flag then
                 exists r,
                   resp = mkResponse 200 (Extraction r)
                   /\ rawText r = txt
                   /\ resConfidence r
                      = generateConfidenceScores (resForm r) (40 # 1) (resMethod r)
                   /\ resMethod r <> vision_llm
                   /\ resOllamaAvailable r = reachable env w flag
                   /\ (In CallCategorizer pipeline <-> reachable env w flag = true)
                   /\ (reachable env w flag = false ->
                       resMethod r = ocr_only /\ fl = flag
                       /\ pipeline = [NetTags; NetTags; CallRules])
               else resp = unavailable /\ fl = flag
                    /\ pipeline = (if probes env flag then [NetTags] else [])
             else status resp = 400 /\ pipeline = [] /\ fl = flag
         | None => status resp = 400 /\ pipeline = [] /\ fl = flag
         end.
Proof.
  intros env atProbe w req flag. unfold extractFill.
  destruct (fillRawText req) as [txt|];
    [|eexists; eexists; exists []; split; [reflexivity|];
      split; [intros []|]; split; [intros []|]; repeat split].
  destruct (truthy txt);
    [|eexists; eexists; exists []; split; [reflexivity|];
      split; [intros []|]; split; [intros []|]; repeat split].
  rewrite checkOllamaHealth_run.
  assert (T0 : (if flag || llmDisabled env then [] else [NetTags])
               = (if probes env flag then [NetTags] else [])).
  { unfold probes. destruct (flag || llmDisabled env); reflexivity. }
  rewrite T0. clear T0.
  assert (T1 : forall ev, ev <> NetTags ->
                          ~ In ev (if probes env flag then [NetTags] else [])).
  { intros ev N. destruct (probes env flag); [|intros []].
    intros [H | []]. apply N. symmetry. exact H. }
  destruct (reachable env atProbe flag) eqn:R.
  - destruct (run_shape env w txt (40 # 1) None flag)
      as (r & cg & tx & ru & E & Hm & Ha & _ & Ht & _ & Hany & Hcg).
    pose proof (parseFormFromText_scored env w txt (40 # 1) None flag r _ _ E) as S.
    rewrite E.
    assert (VE : visionEligible env w (40 # 1) None flag = false).
    { unfold visionEligible. cbn [truthyPath]. rewrite andb_false_r. reflexivity. }
    rewrite VE in *. specialize (Hcg eq_refl).
    change (Qltb (40 # 1) (80 # 1)) with true in Hcg. rewrite andb_true_r in Hcg.
    subst cg.
    eexists; eexists; eexists. split; [reflexivity|].
    split.
    { rewrite in_app_iff, in_traceFor. intros [H | H]; [revert H; apply T1; discriminate|].
      destruct H as [[_ H] | [[H _] | [[_ [H | H]] | [[_ [H | H]] | [_ H]]]]];
        discriminate H. }
    split.
    { rewrite in_app_iff, in_traceFor. intros [H | H]; [revert H; apply T1; discriminate|].
      destruct H as [[_ H] | [[H _] | [[_ [H | H]] | [[_ [H | H]] | [_ H]]]]];
        discriminate H. }
    exists (toExtraction r txt).
    split; [reflexivity|]. split; [reflexivity|]. split; [exact S|].
    split.
    { cbn [toExtraction resMethod]. rewrite Hm. unfold methodFor.
      destruct ru, tx, (reachable env w flag); discriminate. }
    split; [exact Ha|].
    split.
    { rewrite in_app_iff, in_traceFor. split.
      - intros [H | H]; [exfalso; revert H; apply T1; discriminate|].
        destruct H as [[_ H] | [[H _] | [[C _] | [[_ [H | H]] | [_ H]]]]];
          try discriminate H. exact C.
      - intro C. right. right. right. left. split; [exact C|left; reflexivity]. }
    intro W.
    assert (P : probes env flag = true).
    { unfold reachable in R. unfold probes. apply andb_true_iff in R. apply R. }
    rewrite W in *.
    destruct tx; [discriminate (Ht eq_refl)|].
    cbn [orb] in Hany. subst ru.
    cbn [toExtraction resMethod]. rewrite Hm. rewrite P.
    split; [reflexivity|]. split; [|reflexivity].
    cbn [andb]. rewrite !orb_false_r. reflexivity.
  - eexists; eexists; eexists. split; [reflexivity|].
    split; [apply T1; discriminate|]. split; [apply T1; discriminate|].
    repeat split.
Qed.
